(** * The model-call adapter of app.py: normalizer, trimmer, adapter

    A shallow embedding of [extract_text_from_model_response],
    [trim_messages], [call_model] and the chat turn of [api_chat]
    (src/app.py), with the properties the specification states about them;
    then of the routes on sessions, [/health], [/api/password-check] and
    [/api/scan-text], with further properties read off the code.

    Python values are embedded as the inductive type [pyval]; a Python
    exception is the [Raises] outcome of the [exc] monad; list objects that
    the program shares and mutates live in an explicit store. *)

From Stdlib Require Import ZArith QArith Lqa Ascii String DecimalString Floats.
From stdpp Require Import base option list gmap strings.

Set Warnings "-register-all,-inexact-float".

Open Scope string_scope.
Open Scope Z_scope.
Open Scope list_scope.

(** ** Python values *)

(** What [json.loads] can produce, which is also what the program builds for
    its payloads.  A [str] is a sequence of characters, here the code points
    below 256.  A [float] is identified by its [repr]: the program never
    computes with the floats it forwards, it only copies and prints them.  A
    [dict] is its [items()] in insertion order, keys pairwise distinct. *)
Inductive pyval : Type :=
  | PNone : pyval
  | PBool (b : bool) : pyval
  | PInt (z : Z) : pyval
  | PFloat (repr : string) : pyval
  | PStr (s : string) : pyval
  | PList (items : list pyval) : pyval
  | PDict (items : list (string * pyval)) : pyval.

Definition dict : Type := list (string * pyval).

Fixpoint dict_lookup (k : string) (d : dict) : option pyval :=
  match d with
  | [] => None
  | (k', v) :: d' => if String.eqb k k' then Some v else dict_lookup k d'
  end.

(** [d.get(k, dflt)] on a dict. *)
Definition dict_get (d : dict) (k : string) (dflt : pyval) : pyval :=
  default dflt (dict_lookup k d).

(** ** Exceptions *)

(** The program only ever catches [Exception] as a whole, so one outcome
    stands for every exception. *)
Inductive exc (A : Type) : Type :=
  | Returns (a : A) : exc A
  | Raises : exc A.
Arguments Returns {A} a.
Arguments Raises {A}.

#[global] Instance exc_ret : MRet exc := fun _ a => Returns a.
#[global] Instance exc_bind : MBind exc := fun _ _ f m =>
  match m with Returns a => f a | Raises => Raises end.

(** [a and b] on conditions that may raise: [b] is evaluated only when [a]
    is true. *)
Definition and_then (a b : exc bool) : exc bool :=
  x ← a; if x : bool then b else Returns false.
Infix "&&&" := and_then (at level 40, left associativity).

(** ** Builtins used by the program *)

Definition isinstance_dict (v : pyval) : bool :=
  match v with PDict _ => true | _ => false end.
Definition isinstance_list (v : pyval) : bool :=
  match v with PList _ => true | _ => false end.
Definition isinstance_str (v : pyval) : bool :=
  match v with PStr _ => true | _ => false end.

Definition is_str_eq (k : string) (v : pyval) : bool :=
  match v with PStr s => String.eqb s k | _ => false end.

Definition is_Some_b {A} (o : option A) : bool :=
  match o with Some _ => true | None => false end.

(** [k in v] for a string [k]: key membership in a dict, substring test in
    a str, element test in a list, [TypeError] otherwise. *)
Definition py_in (k : string) (v : pyval) : exc bool :=
  match v with
  | PDict d => Returns (is_Some_b (dict_lookup k d))
  | PStr s => Returns (is_Some_b (String.index 0 k s))
  | PList l => Returns (existsb (is_str_eq k) l)
  | _ => Raises
  end.

(** [v[k]] for a string [k]: [KeyError] on a dict without the key,
    [TypeError] on everything that is not a dict. *)
Definition py_getitem (v : pyval) (k : string) : exc pyval :=
  match v with
  | PDict d => match dict_lookup k d with Some x => Returns x | None => Raises end
  | _ => Raises
  end.

(** [v.get(k)]: only a dict has the method ([AttributeError] otherwise). *)
Definition py_get_method (v : pyval) (k : string) : exc pyval :=
  match v with
  | PDict d => Returns (dict_get d k PNone)
  | _ => Raises
  end.

(** [v[0]] on a list. *)
Definition py_first (v : pyval) : exc pyval :=
  match v with
  | PList (x :: _) => Returns x
  | _ => Raises
  end.

(** [len(v)] *)
Definition py_len (v : pyval) : exc Z :=
  match v with
  | PStr s => Returns (Z.of_nat (String.length s))
  | PList l => Returns (Z.of_nat (length l))
  | PDict d => Returns (Z.of_nat (length d))
  | _ => Raises
  end.

(** *** [str] and [repr] *)

Definition hex_digit (n : N) : ascii :=
  ascii_of_N (if (n <? 10)%N then 48 + n else 87 + n).

(** [str.isprintable] on one character below 256. *)
Definition printable (c : ascii) : bool :=
  let n := N_of_ascii c in
  ((32 <=? n) && (n <=? 126) || (161 <=? n) && negb (n =? 173))%N.

Definition squote : ascii := ascii_of_N 39.
Definition dquote : ascii := ascii_of_N 34.

Definition repr_char (quote : ascii) (c : ascii) : string :=
  let n := N_of_ascii c in
  if Ascii.eqb c quote then String "\" (String c "")
  else if Ascii.eqb c "\" then "\\"
  else if (n =? 9)%N then "\t"
  else if (n =? 10)%N then "\n"
  else if (n =? 13)%N then "\r"
  else if printable c then String c ""
  else String "\" (String "x" (String (hex_digit (n / 16)) (String (hex_digit (n mod 16)) ""))).

Fixpoint str_has (c : ascii) (s : string) : bool :=
  match s with
  | EmptyString => false
  | String c' s' => Ascii.eqb c c' || str_has c s'
  end.

Fixpoint repr_chars (quote : ascii) (s : string) : string :=
  match s with
  | EmptyString => ""
  | String c s' => repr_char quote c +:+ repr_chars quote s'
  end.

(** [repr] of a str: single quotes, unless it holds a single quote and no
    double quote. *)
Definition repr_str (s : string) : string :=
  let quote := if str_has squote s && negb (str_has dquote s) then dquote else squote in
  String quote (repr_chars quote s +:+ String quote "").

Definition repr_int (z : Z) : string := NilZero.string_of_int (Z.to_int z).

Fixpoint join (sep : string) (l : list string) : string :=
  match l with
  | [] => ""
  | [x] => x
  | x :: l' => x +:+ sep +:+ join sep l'
  end.

Fixpoint py_repr (v : pyval) : string :=
  match v with
  | PNone => "None"
  | PBool true => "True"
  | PBool false => "False"
  | PInt z => repr_int z
  | PFloat r => r
  | PStr s => repr_str s
  | PList l => "[" +:+ join ", " (map py_repr l) +:+ "]"
  | PDict d =>
      "{" +:+ join ", " (map (fun kv => repr_str (fst kv) +:+ ": " +:+ py_repr (snd kv)) d) +:+ "}"
  end.

(** [str(v)] *)
Definition py_str (v : pyval) : string :=
  match v with
  | PStr s => s
  | _ => py_repr v
  end.


(** ** Statements with an early [return] *)

(** The outcome of a block of statements inside a function: [Returns (Some v)]
    is [return v], [Returns None] is reaching the end of the block, [Raises]
    is an exception leaving it. *)
Definition stmt : Type := exc (option pyval).

Definition Return (e : exc pyval) : stmt := v ← e; Returns (Some v).

Definition Pass : stmt := Returns None.

(** [if c: body] *)
Definition If (c : exc bool) (body : stmt) : stmt :=
  b ← c; if b : bool then body else Pass.

(** [s1] followed by [s2] *)
Definition then_ (s1 s2 : stmt) : stmt :=
  r ← s1; match r with Some v => Returns (Some v) | None => s2 end.
Infix ">>>" := then_ (at level 65, right associativity).

(** [for k in keys: body k] *)
Fixpoint For (keys : list string) (body : string → stmt) : stmt :=
  match keys with
  | [] => Pass
  | k :: keys' => body k >>> For keys' body
  end.

(** ** Model Response Parser (app.py, lines 57-92) *)

(** [isinstance(v[k], cls)] *)
Definition item_is (cls : pyval → bool) (v : pyval) (k : string) : exc bool :=
  x ← py_getitem v k; Returns (cls x).

(** [len(v[k]) > 0] *)
Definition item_nonempty (v : pyval) (k : string) : exc bool :=
  x ← py_getitem v k; n ← py_len x; Returns (0 <? n).

(** Lines 64-74: the [choices] style (OpenAI-like). *)
Definition choices_block (resp_json : pyval) : stmt :=
  If (py_in "choices" resp_json
      &&& item_is isinstance_list resp_json "choices"
      &&& item_nonempty resp_json "choices") (
    choice ← (l ← py_getitem resp_json "choices"; py_first l);
    (* chat-style: choice.message.content *)
    If ((m ← py_get_method choice "message"; Returns (isinstance_dict m))
        &&& (m ← py_getitem choice "message"; py_in "content" m))
      (Return (m ← py_getitem choice "message"; py_getitem m "content")) >>>
    (* openai-style text *)
    If (py_in "text" choice &&& item_is isinstance_str choice "text")
      (Return (py_getitem choice "text")) >>>
    (* streaming delta *)
    If (py_in "delta" choice
        &&& item_is isinstance_dict choice "delta"
        &&& (m ← py_getitem choice "delta"; py_in "content" m))
      (Return (m ← py_getitem choice "delta"; py_getitem m "content"))).

(** Lines 77-79: direct top-level string fields. *)
Definition toplevel_block (resp_json : pyval) : stmt :=
  For ["text"; "result"; "output_text"; "response"] (fun key =>
    If (py_in key resp_json &&& item_is isinstance_str resp_json key)
      (Return (py_getitem resp_json key))).

(** Lines 82-86: the [data] variant. *)
Definition data_block (resp_json : pyval) : stmt :=
  If (py_in "data" resp_json
      &&& item_is isinstance_list resp_json "data"
      &&& item_nonempty resp_json "data") (
    d0 ← (l ← py_getitem resp_json "data"; py_first l);
    For ["text"; "content"] (fun k =>
      If (py_in k d0 &&& item_is isinstance_str d0 k)
        (Return (py_getitem d0 k)))).

(** The body of the [try] block. *)
Definition try_block (resp_json : pyval) : stmt :=
  If (Returns (isinstance_dict resp_json))
    (choices_block resp_json >>> toplevel_block resp_json >>> data_block resp_json).

(** [try: ... except Exception: pass], then the fallback to the string
    representation.  The function returns the pair [(text, resp_json)]. *)
Definition extract_text_from_model_response (resp_json : pyval) : pyval * pyval :=
  match try_block resp_json with
  | Returns (Some text) => (text, resp_json)
  | Returns None | Raises => (PStr (py_str resp_json), resp_json)
  end.

(** *** The specification's reading of the normalizer

    A prioritized chain of optional pattern matches (section 4.2): each step
    either matches or does not, the first match wins, and the fallback is the
    string serialization of the whole response. *)

Definition field (k : string) (v : pyval) : option pyval :=
  match v with PDict d => dict_lookup k d | _ => None end.

Definition str_field (k : string) (v : pyval) : option pyval :=
  match field k v with Some (PStr s) => Some (PStr s) | _ => None end.

Definition obj_field (k : string) (v : pyval) : option pyval :=
  match field k v with Some (PDict d) => Some (PDict d) | _ => None end.

Definition first_item (v : pyval) : option pyval :=
  match v with PList (x :: _) => Some x | _ => None end.

Definition or_else {A} (a b : option A) : option A :=
  match a with Some x => Some x | None => b end.
Infix "|||" := or_else (at level 50, left associativity).

(** Step 1 on [choices[0]]. *)
Definition match_choice (choice : pyval) : option pyval :=
  (obj_field "message" choice ≫= field "content")
  ||| str_field "text" choice
  ||| (obj_field "delta" choice ≫= field "content").

Definition choices_head (resp : pyval) : option pyval :=
  field "choices" resp ≫= first_item.

Definition match_choices (resp : pyval) : option pyval :=
  choices_head resp ≫= match_choice.

(** Step 2. *)
Definition match_toplevel (resp : pyval) : option pyval :=
  str_field "text" resp ||| str_field "result" resp
  ||| str_field "output_text" resp ||| str_field "response" resp.

(** Step 3. *)
Definition match_data (resp : pyval) : option pyval :=
  d0 ← field "data" resp ≫= first_item;
  str_field "text" d0 ||| str_field "content" d0.

Definition first_match (resp : pyval) : option pyval :=
  match_choices resp ||| match_toplevel resp ||| match_data resp.

Definition extract_text_spec (resp : pyval) : pyval :=
  default (PStr (py_str resp)) (first_match resp).

(** [choices[0]] can be inspected: it is an object, or there is no
    [choices[0]] to inspect. *)
Definition inspectable (resp : pyval) : bool :=
  match choices_head resp with
  | Some choice => isinstance_dict choice
  | None => true
  end.

(** ** Payload trimming helpers (app.py, lines 98-129) *)

Definition MAX_MESSAGES : Z := 24.
Definition MAX_TOTAL_CHARS : Z := 14000.
Definition MAX_MESSAGE_CHARS : Z := 3000.

(** The index at which the slice [x[start:]] of a sequence of length [len]
    begins: a negative [start] counts from the end, and both ends clamp. *)
Definition slice_start (start len : Z) : nat :=
  Z.to_nat (if start <? 0 then Z.max (len + start) 0 else Z.min start len).

(** [l[start:]] on a list: a new list. *)
Definition slice_from {A} (start : Z) (l : list A) : list A :=
  drop (slice_start start (Z.of_nat (length l))) l.

Fixpoint str_drop (n : nat) (s : string) : string :=
  match n, s with
  | S n', String _ s' => str_drop n' s'
  | _, _ => s
  end.

(** [s[start:]] on a str. *)
Definition str_slice_from (start : Z) (s : string) : string :=
  str_drop (slice_start start (Z.of_nat (String.length s))) s.

(** [v[start:]]: defined on str and list; a dict has no slices. *)
Definition py_slice_from (start : Z) (v : pyval) : exc pyval :=
  match v with
  | PStr s => Returns (PStr (str_slice_from start s))
  | PList l => Returns (PList (slice_from start l))
  | _ => Raises
  end.

(** The inner function [trim_msg]. *)
Definition trim_msg (m : dict) : exc dict :=
  let content := dict_get m "content" (PStr "") in
  n ← py_len content;
  content ← (if MAX_MESSAGE_CHARS <? n
             then py_slice_from (- MAX_MESSAGE_CHARS) content
             else Returns content);
  Returns [("role", dict_get m "role" (PStr "user")); ("content", content)].

(** [[f(x) for x in l]] *)
Fixpoint comprehension {A B} (f : A → exc B) (l : list A) : exc (list B) :=
  match l with
  | [] => Returns []
  | x :: l' => y ← f x; ys ← comprehension f l'; Returns (y :: ys)
  end.

(** [sum(len(m["content"]) for m in msgs)] *)
Fixpoint total_chars (msgs : list dict) : exc Z :=
  match msgs with
  | [] => Returns 0
  | m :: msgs' =>
      n ← (c ← py_getitem (PDict m) "content"; py_len c);
      t ← total_chars msgs';
      Returns (n + t)
  end.

(** The [while] loop: drop the oldest message until the total fits or one
    message is left.  [msgs.pop(0)] is the tail of the list. *)
Fixpoint drop_oldest (msgs : list dict) : exc (list dict) :=
  total ← total_chars msgs;
  if (MAX_TOTAL_CHARS <? total) && (1 <? Z.of_nat (length msgs)) then
    match msgs with
    | _ :: msgs' => drop_oldest msgs'
    | [] => Raises
    end
  else Returns msgs.

Definition trim_messages (messages : list dict) : exc (list dict) :=
  match messages with
  | [] => Returns messages
  | _ =>
      let msgs := slice_from (- MAX_MESSAGES) messages in
      msgs ← comprehension trim_msg msgs;
      drop_oldest msgs
  end.

(** ** Robust Model Caller (app.py, lines 19-29 and 135-230) *)

Definition MODEL_ENDPOINTS : list string :=
  [ "/v1/chat/completions"; "/v1/completions"; "/predict"; "/v1/generate"; "/v1/complete" ].

(** [s.rstrip("/")] *)
Fixpoint rstrip_slash (s : string) : string :=
  match s with
  | EmptyString => EmptyString
  | String c s' =>
      match rstrip_slash s' with
      | EmptyString => if Ascii.eqb c "/" then EmptyString else String c EmptyString
      | t => String c t
      end
  end.

(** [MODEL_HOST] is read from the environment when the module is loaded. *)
Definition MODEL_URLS (MODEL_HOST : string) : list string :=
  map (fun ep => rstrip_slash MODEL_HOST +:+ ep) MODEL_ENDPOINTS.

(** What the program reads of a [requests.Response]: [json] is [None] when
    [r.json()] raises. *)
Record response : Type := Response {
  status_code : Z;
  text : string;
  json : option pyval
}.

(** [float(z)] for a small natural number: what [0.6 * (attempt + 1)] and
    [score / 10] make of their int operand. *)
Definition float_of_int (z : Z) : float := PrimFloat.of_uint63 (Uint63.of_Z z).

(** [requests.post] answers, or raises an exception whose [str] is [msg]. *)
Inductive outcome : Type :=
  | Answers (r : response)
  | Fails (msg : string).

(** What a call does, in order: the requests it sends with what came back,
    the diagnostics it stores in [last_err], and its sleeps: the double that
    [time.sleep] is given, in seconds.  A literal such as [0.6] is, as in
    Python, the double nearest to it. *)
Inductive event : Type :=
  | Post (url : string) (payload : pyval) (o : outcome)
  | Diagnostic (d : string)
  | Sleep (seconds : float).

(** The model server and the network in front of it: the outcome of a request
    may depend on everything that happened before in the call. *)
Definition network : Type := list event → string → pyval → outcome.

Record state : Type := State {
  trace : list event;
  last_err : option string
}.

Definition log (e : event) (st : state) : state :=
  {| trace := trace st ++ [e]; last_err := last_err st |}.

(** [last_err = d] *)
Definition set_last_err (d : string) (st : state) : state :=
  log (Diagnostic d) {| trace := trace st; last_err := Some d |}.

(** [time.sleep(seconds)] *)
Definition sleep (seconds : float) (st : state) : state := log (Sleep seconds) st.

(** How one pass through the body of the attempt loop ends. *)
Inductive flow : Type :=
  | Done (result : bool * pyval)
  | Break
  | Continue.

(** The two [200] branches: parse and normalize, or the raw body. *)
Definition success (r : response) : bool * pyval :=
  match json r with
  | Some j => (true, fst (extract_text_from_model_response j))
  | None => (true, PStr (text r))
  end.

Definition recoverable : list Z := [408; 409; 429; 500; 502; 503; 504].

Definition status_in (codes : list Z) (r : response) : bool :=
  existsb (Z.eqb (status_code r)) codes.

Definition chat_payload (safe_messages : list dict) (max_tokens : Z) (temperature : pyval) : pyval :=
  PDict [ ("model", PStr "local-model");
          ("messages", PList (map PDict safe_messages));
          ("max_tokens", PInt max_tokens);
          ("temperature", temperature) ].

Definition inputs_payload (prompt : pyval) (max_tokens : Z) (temperature : pyval) : pyval :=
  PDict [ ("inputs", prompt);
          ("parameters", PDict [ ("max_new_tokens", PInt max_tokens);
                                 ("temperature", temperature) ]) ].

(** The messages payload: role/content pairs, trimmed; a single user message
    when no messages were given. *)
Definition safe_messages_of (prompt : pyval) (messages : option (list dict)) : exc (list dict) :=
  safe_messages ←
    match messages with
    | Some (m :: ms) =>
        trim_messages
          (map (fun m => [ ("role", dict_get m "role" (PStr "user"));
                           ("content", PStr (py_str (dict_get m "content" (PStr "")))) ])
               (m :: ms))
    | _ => Returns []
    end;
  match safe_messages with
  | [] => Returns [ [("role", PStr "user"); ("content", prompt)] ]
  | _ => Returns safe_messages
  end.

Section Adapter.

Variable net : network.
Variables (prompt : pyval) (max_tokens : Z) (temperature : pyval).
Variable safe_messages : list dict.

(** [requests.post(url, json=payload, headers=headers, timeout=60)] *)
Definition post (url : string) (payload : pyval) (st : state) : state * outcome :=
  let o := net (trace st) url payload in
  (log (Post url payload o) st, o).

(** Both [except] clauses. *)
Definition on_exception (msg : string) (attempt : Z) (st : state) : state * flow :=
  (sleep (0.5 * float_of_int (attempt + 1))%float (set_last_err msg st), Continue).

(** The body of [for attempt in range(3)]. *)
Definition attempt_body (url : string) (attempt : Z) (st : state) : state * flow :=
  let payload := chat_payload safe_messages max_tokens temperature in
  let '(st, o) := post url payload st in
  match o with
  | Fails msg => on_exception msg attempt st
  | Answers r =>
      if status_code r =? 200 then (st, Done (success r))
      else if status_code r =? 404 then
        (set_last_err (url +:+ " returned 404 Not Found") st, Break)
      else if status_in recoverable r then
        (sleep (0.6 * float_of_int (attempt + 1))%float
           (set_last_err (url +:+ " returned " +:+ repr_int (status_code r) +:+ ": " +:+ text r) st),
         Continue)
      else
        let payload_inputs := inputs_payload prompt max_tokens temperature in
        let '(st, o2) := post url payload_inputs st in
        match o2 with
        | Fails msg => on_exception msg attempt st
        | Answers r2 =>
            if status_code r2 =? 200 then (st, Done (success r2))
            else if status_code r2 =? 404 then
              (set_last_err (url +:+ " (inputs) returned 404") st, Break)
            else
              (set_last_err (url +:+ " returned " +:+ repr_int (status_code r) +:+ ": " +:+ text r) st,
               Continue)
        end
  end.

(** [for attempt in attempts]: [Some] when the function returned. *)
Fixpoint for_attempt (url : string) (attempts : list Z) (st : state)
  : state * option (bool * pyval) :=
  match attempts with
  | [] => (st, None)
  | attempt :: attempts' =>
      match attempt_body url attempt st with
      | (st', Done result) => (st', Some result)
      | (st', Break) => (st', None)
      | (st', Continue) => for_attempt url attempts' st'
      end
  end.

(** [for url in urls], with three attempts per endpoint. *)
Fixpoint for_url (urls : list string) (st : state) : state * option (bool * pyval) :=
  match urls with
  | [] => (st, None)
  | url :: urls' =>
      match for_attempt url [0; 1; 2] st with
      | (st', Some result) => (st', Some result)
      | (st', None) => for_url urls' st'
      end
  end.

End Adapter.

(** [f"{last_err}"] *)
Definition format_last_err (e : option string) : string := default "None" e.

(** Leaving the loops: the [return] of a [200] branch, or line 230. *)
Definition after_loops (r : state * option (bool * pyval)) : list event * exc (bool * pyval) :=
  match r with
  | (st, Some result) => (trace st, Returns result)
  | (st, None) =>
      (trace st,
       Returns (false, PStr ("Failed to contact model. Last error: " +:+ format_last_err (last_err st))))
  end.

(** [call_model]: the events of the call and what it returns; [Raises] when
    an exception leaves the function. *)
Definition call_model (MODEL_HOST : string) (net : network)
    (prompt : pyval) (max_tokens : Z) (stop : pyval) (temperature : pyval)
    (messages : option (list dict)) : list event * exc (bool * pyval) :=
  match safe_messages_of prompt messages with
  | Raises => ([], Raises)
  | Returns safe_messages =>
      after_loops (for_url net prompt max_tokens temperature safe_messages
                     (MODEL_URLS MODEL_HOST) {| trace := []; last_err := None |})
  end.

(** ** List objects *)

(** The program shares list objects and updates them in place
    ([append], [pop]), so a list is a reference into a store of list objects.
    The message dicts inside are only ever read and built anew, never updated,
    and are kept as values. *)
Definition loc : Type := nat.
Abbreviation store := (gmap loc (list dict)).

(** A new list object. *)
Definition alloc (l : list dict) (h : store) : store * loc :=
  let a := fresh (dom h) in (<[a := l]> h, a).

(** The list behind a reference. *)
Definition deref (h : store) (a : loc) : list dict := default [] (h !! a).

(** [a.append(x)] *)
Definition append (a : loc) (x : dict) (h : store) : store :=
  alter (fun l => l ++ [x]) a h.

(** [a.pop(0)] *)
Definition pop0 (a : loc) (h : store) : store := alter (drop 1) a h.

(** The [while] loop of [trim_messages] on the list object [msgs]: every turn
    pops one message, so [fuel] turns are enough as soon as [fuel] is the
    length of the list (lemma [while_pop_spec]). *)
Fixpoint while_pop (fuel : nat) (msgs : loc) (h : store) : exc store :=
  total ← total_chars (deref h msgs);
  if (MAX_TOTAL_CHARS <? total) && (1 <? Z.of_nat (length (deref h msgs))) then
    match fuel with
    | O => Raises
    | S fuel' => while_pop fuel' msgs (pop0 msgs h)
    end
  else Returns h.

(** [trim_messages] on list objects: which lists it creates, which it
    updates, and which one it returns. *)
Definition trim_messages_st (messages : loc) (h : store) : exc (store * loc) :=
  match deref h messages with
  | [] => Returns (h, messages)                                  (* return messages *)
  | _ =>
      let '(h, msgs) := alloc (slice_from (- MAX_MESSAGES) (deref h messages)) h in
      l ← comprehension trim_msg (deref h msgs);
      let '(h, msgs) := alloc l h in
      h ← while_pop (length l) msgs h;
      Returns (h, msgs)
  end.

(** ** Session store and the chat route (app.py, lines 32-46 and 287-319) *)

Record session : Type := Session {
  sess_id : string;
  sess_name : string;
  sess_created : pyval;
  sess_messages : loc
}.

Record world : Type := World {
  lists : store;
  sessions : gmap string session
}.

(** What the route takes from its environment: a [uuid.uuid4()] and three
    readings of [time.time()]. *)
Record environment : Type := Environment {
  uuid4 : string;
  time_created : pyval;
  time_user : pyval;
  time_assistant : pyval
}.

Definition create_session (sid : string) (now : pyval) (name : option string) (w : world)
  : world * session :=
  let '(h, l) := alloc [] (lists w) in
  let dflt := "Chat " +:+ repr_int (Z.of_nat (size (sessions w)) + 1) in
  let s := {| sess_id := sid;
              sess_name := match name with Some (String c n) => String c n | _ => dflt end;
              sess_created := now;
              sess_messages := l |} in
  ({| lists := h; sessions := <[sid := s]> (sessions w) |}, s).

(** Truth value of a Python value. *)
Definition py_truthy (v : pyval) : bool :=
  match v with
  | PNone => false
  | PBool b => b
  | PInt z => negb (z =? 0)
  | PFloat r => negb (String.eqb r "0.0" || String.eqb r "-0.0")
  | PStr s => negb (String.eqb s "")
  | PList l => negb (bool_decide (length l = 0%nat))
  | PDict d => negb (bool_decide (length d = 0%nat))
  end.

(** [session_id in sessions]: the keys are strings; lists and dicts cannot be
    hashed. *)
Definition in_sessions (session_id : pyval) (ss : gmap string session) : exc bool :=
  match session_id with
  | PStr s => Returns (is_Some_b (ss !! s))
  | PList _ | PDict _ => Raises
  | _ => Returns false
  end.

(** [{"role": m["role"], "content": m["content"]}] *)
Definition project (m : dict) : exc dict :=
  r ← py_getitem (PDict m) "role";
  c ← py_getitem (PDict m) "content";
  Returns [("role", r); ("content", c)].

Definition user_message (prompt now : pyval) : dict :=
  [("role", PStr "user"); ("content", prompt); ("time", now)].

Definition assistant_message (assistant_text now : pyval) : dict :=
  [("role", PStr "assistant"); ("content", assistant_text); ("time", now)].

Definition with_lists (h : store) (w : world) : world :=
  {| lists := h; sessions := sessions w |}.

(** Lines 295-299: the session of the request, created when the id is
    missing or unknown, with the id the route goes on with. *)
Definition session_of (e : environment) (session_id : pyval) (w : world)
  : exc (world * string * session) :=
  known ← (if py_truthy session_id then in_sessions session_id (sessions w)
           else Returns false);
  if known : bool then
    match session_id with
    | PStr sid =>
        match sessions w !! sid with
        | Some s => Returns (w, sid, s)
        | None => Raises
        end
    | _ => Raises
    end
  else
    let '(w, s) := create_session (uuid4 e) (time_created e) None w in
    match sessions w !! sess_id s with
    | Some s' => Returns (w, sess_id s, s')
    | None => Raises
    end.

(** The route [/api/chat] from line 295 on; [prompt], [session_id] and
    [max_tokens] are what lines 290-293 decode from the request body.  It
    yields the new session store, the events of the model call and the JSON
    it answers with; [Raises] is the [except] branch (status 500). *)
Definition api_chat (MODEL_HOST : string) (net : network) (e : environment)
    (prompt session_id : pyval) (max_tokens : Z) (w : world)
  : world * list event * exc pyval :=
  match session_of e session_id w with
  | Raises => (w, [], Raises)
  | Returns (w, session_id, s) =>
      (* record user message *)
      let w := with_lists (append (sess_messages s) (user_message prompt (time_user e)) (lists w)) w in
      (* build messages for model (trimmed) *)
      match
        l ← comprehension project (deref (lists w) (sess_messages s));
        let '(h, messages_for_model) := alloc l (lists w) in
        trim_messages_st messages_for_model h
      with
      | Raises => (w, [], Raises)
      | Returns (h, messages_for_model) =>
          let w := with_lists h w in
          let '(tr, r) :=
            call_model MODEL_HOST net prompt max_tokens PNone (PFloat "0.2")
              (Some (deref h messages_for_model)) in
          match r with
          | Raises => (w, tr, Raises)
          | Returns (ok, model_resp) =>
              let assistant_text :=
                if ok : bool then model_resp
                else PStr ("[Model error] " +:+ py_str model_resp) in
              (* store assistant reply *)
              let w := with_lists (append (sess_messages s)
                                     (assistant_message assistant_text (time_assistant e))
                                     (lists w)) w in
              (w, tr, Returns (PDict [ ("session_id", PStr session_id);
                                       ("response", assistant_text) ]))
          end
      end
  end.

(** ** The session routes (app.py, lines 258-284 and 373-380) and [/health] *)

(** What a route answers: the value given to [jsonify], and the status. *)
Definition reply : Type := pyval * Z.

(** The session dict as [jsonify] sees it, the messages of its list
    included. *)
Definition session_dict (w : world) (s : session) : pyval :=
  PDict [ ("id", PStr (sess_id s));
          ("name", PStr (sess_name s));
          ("created", sess_created s);
          ("messages", PList (map PDict (deref (lists w) (sess_messages s)))) ].

Definition api_sessions_get (sid : string) (w : world) : reply :=
  match sessions w !! sid with
  | None => (PDict [("error", PStr "not_found")], 404)
  | Some s => (PDict [("session", session_dict w s)], 200)
  end.

Definition api_sessions_delete (sid : string) (w : world) : world * reply :=
  match sessions w !! sid with
  | Some _ =>
      ({| lists := lists w; sessions := delete sid (sessions w) |},
       (PDict [("deleted", PBool true)], 200))
  | None => (w, (PDict [("deleted", PBool false)], 404))
  end.

(** [str.isspace] on one character below 256. *)
Definition is_space (c : ascii) : bool :=
  let n := N_of_ascii c in
  ((9 <=? n) && (n <=? 13) || (28 <=? n) && (n <=? 32) || (n =? 133) || (n =? 160))%N.

(** [s.lstrip()] *)
Fixpoint lstrip (s : string) : string :=
  match s with
  | EmptyString => EmptyString
  | String c s' => if is_space c then lstrip s' else s
  end.

(** [s.rstrip()] *)
Fixpoint rstrip (s : string) : string :=
  match s with
  | EmptyString => EmptyString
  | String c s' =>
      match rstrip s' with
      | EmptyString => if is_space c then EmptyString else String c EmptyString
      | t => String c t
      end
  end.

(** [s.strip()] *)
Definition strip (s : string) : string := rstrip (lstrip s).

(** [v.strip()]: a method of str only. *)
Definition py_strip (v : pyval) : exc string :=
  match v with
  | PStr s => Returns (strip s)
  | _ => Raises
  end.

(** [v.get(k, dflt)]: a method of dict only. *)
Definition py_get_default (v : pyval) (k : string) (dflt : pyval) : exc pyval :=
  match v with
  | PDict d => Returns (dict_get d k dflt)
  | _ => Raises
  end.

Definition with_name (name : string) (s : session) : session :=
  {| sess_id := sess_id s; sess_name := name;
     sess_created := sess_created s; sess_messages := sess_messages s |}.

Definition with_messages (l : loc) (s : session) : session :=
  {| sess_id := sess_id s; sess_name := sess_name s;
     sess_created := sess_created s; sess_messages := l |}.

(** The route [PATCH /api/sessions/<sid>]; [data] is the parsed body.  The
    route has no [try]: [Raises] is an exception leaving it. *)
Definition api_sessions_rename (sid : string) (data : pyval) (w : world) : world * exc reply :=
  match sessions w !! sid with
  | None => (w, Returns (PDict [("error", PStr "not_found")], 404))
  | Some s =>
      (* data = request.get_json(force=True) or {} *)
      let data := if py_truthy data then data else PDict [] in
      match (v ← py_get_default data "name" (PStr ""); py_strip v) with
      | Raises => (w, Raises)
      | Returns name =>
          if String.eqb name "" then (w, Returns (PDict [("error", PStr "empty_name")], 400))
          else
            ({| lists := lists w; sessions := <[sid := with_name name s]> (sessions w) |},
             Returns (PDict [ ("renamed", PBool true);
                              ("session", PDict [("id", PStr sid); ("name", PStr name)]) ],
                      200))
      end
  end.

(** The route [POST /api/session/clear]; [data] is the parsed body.  The
    session gets a new, empty list. *)
Definition api_session_clear (data : pyval) (w : world) : world * exc reply :=
  match
    sid ← py_get_method data "session_id";
    found ← (if py_truthy sid then in_sessions sid (sessions w) else Returns false);
    Returns (sid, found)
  with
  | Raises => (w, Raises)
  | Returns (PStr sid, true) =>
      match sessions w !! sid with
      | Some s =>
          let '(h, l) := alloc [] (lists w) in
          ({| lists := h; sessions := <[sid := with_messages l s]> (sessions w) |},
           Returns (PDict [("cleared", PBool true)], 200))
      | None => (w, Raises)
      end
  | Returns _ => (w, Returns (PDict [("cleared", PBool false)], 404))
  end.

(** The route [/health]: a probe of the model with the prompt ["Hello"]. *)
Definition health (MODEL_HOST : string) (net : network) (w : world) : list event * exc reply :=
  let '(tr, r) := call_model MODEL_HOST net (PStr "Hello") 5 PNone (PFloat "0.2") None in
  (tr,
   match r with
   | Returns (ok, _) =>
       Returns (PDict [ ("model_reachable", PBool ok);
                        ("sessions_count", PInt (Z.of_nat (size (sessions w)))) ],
                200)
   | Raises => Raises
   end).

(** ** Password and text checks (app.py, lines 322-370) *)

Definition between (lo hi : N) (c : ascii) : bool :=
  ((lo <=? N_of_ascii c) && (N_of_ascii c <=? hi))%N.

Definition is_code (n : N) (c : ascii) : bool := (N_of_ascii c =? n)%N.

(** The character classes of Unicode on the code points below 256. *)
Definition char_isupper (c : ascii) : bool :=
  between 65 90 c || between 192 214 c || between 216 222 c.

Definition char_islower (c : ascii) : bool :=
  between 97 122 c || between 223 246 c || between 248 255 c
  || is_code 170 c || is_code 181 c || is_code 186 c.

Definition char_isdigit (c : ascii) : bool :=
  between 48 57 c || is_code 178 c || is_code 179 c || is_code 185 c.

Definition char_isalnum (c : ascii) : bool :=
  char_isupper c || char_islower c || char_isdigit c || between 188 190 c.

Fixpoint str_any (p : ascii → bool) (s : string) : bool :=
  match s with
  | EmptyString => false
  | String c s' => p c || str_any p s'
  end.

Fixpoint str_all (p : ascii → bool) (s : string) : bool :=
  match s with
  | EmptyString => true
  | String c s' => p c && str_all p s'
  end.

(** [s.isupper()]: no lowercase character and at least one uppercase one. *)
Definition str_isupper (s : string) : bool :=
  negb (str_any char_islower s) && str_any char_isupper s.

(** [s.islower()] *)
Definition str_islower (s : string) : bool :=
  negb (str_any char_isupper s) && str_any char_islower s.

(** [s.isdigit()]: not empty, and digits only. *)
Definition str_isdigit (s : string) : bool :=
  negb (String.eqb s "") && str_all char_isdigit s.

(** [s.isalnum()] *)
Definition str_isalnum (s : string) : bool :=
  negb (String.eqb s "") && str_all char_isalnum s.

(** [s.lower()] *)
Definition char_lower (c : ascii) : ascii :=
  if char_isupper c then ascii_of_N (N_of_ascii c + 32) else c.

Fixpoint str_lower (s : string) : string :=
  match s with
  | EmptyString => EmptyString
  | String c s' => String (char_lower c) (str_lower s')
  end.

(** A method of str that gives a bool, called on any value. *)
Definition str_method (f : string → bool) (v : pyval) : exc bool :=
  match v with
  | PStr s => Returns (f s)
  | _ => Raises
  end.

(** [v.lower()] *)
Definition py_lower (v : pyval) : exc string :=
  match v with
  | PStr s => Returns (str_lower s)
  | _ => Raises
  end.

(** [for c in v]: the characters of a str, the elements of a list, the
    keys of a dict. *)
Definition py_iter (v : pyval) : exc (list pyval) :=
  match v with
  | PStr s => Returns (map (fun c => PStr (String c EmptyString)) (list_ascii_of_string s))
  | PList l => Returns l
  | PDict d => Returns (map (fun kv => PStr kv.1) d)
  | _ => Raises
  end.

(** [any(f(c) for c in l)]: stops at the first [True]. *)
Fixpoint py_any (f : pyval → exc bool) (l : list pyval) : exc bool :=
  match l with
  | [] => Returns false
  | c :: l' => b ← f c; if b : bool then Returns true else py_any f l'
  end.

(** [int(f)]: the double cut towards zero. *)
Definition int_of_float (f : float) : exc Z :=
  match Prim2SF f with
  | S754_zero _ => Returns 0
  | S754_finite s m e =>
      let a := if 0 <=? e then Z.pos m * 2 ^ e else Z.pos m / 2 ^ (- e) in
      Returns (if s then - a else a)
  | _ => Raises
  end.

(** The route [/api/password-check]; [data] is the parsed body, [Raises]
    the [except] branch (status 500). *)
Definition api_password_check (data : pyval) : exc pyval :=
  pw ← py_get_default data "password" (PStr "");
  let score := 0 in
  if negb (py_truthy pw) then
    Returns (PDict [("score", PInt 0); ("suggestions", PList [PStr "Empty password"])])
  else
    n ← py_len pw;
    let score := if 12 <=? n then score + 4 else score in
    cs ← py_iter pw;
    b ← py_any (str_method str_isupper) cs;
    let score := if b : bool then score + 2 else score in
    b ← py_any (str_method str_islower) cs;
    let score := if b : bool then score + 1 else score in
    b ← py_any (str_method str_isdigit) cs;
    let score := if b : bool then score + 2 else score in
    b ← py_any (fun c => a ← str_method str_isalnum c; Returns (negb a)) cs;
    let score := if b : bool then score + 1 else score in
    let suggestions := [] in
    let suggestions :=
      if n <? 12 then suggestions ++ [PStr "Use at least 12 characters."] else suggestions in
    b ← py_any (str_method str_isdigit) cs;
    let suggestions := if negb b then suggestions ++ [PStr "Add digits."] else suggestions in
    b ← py_any (str_method str_isupper) cs;
    let suggestions :=
      if negb b then suggestions ++ [PStr "Add uppercase letters."] else suggestions in
    b ← py_any (fun c => a ← str_method str_isalnum c; Returns (negb a)) cs;
    let suggestions := if negb b then suggestions ++ [PStr "Add symbols."] else suggestions in
    score ← int_of_float (float_of_int score / float_of_int 10 * float_of_int 10)%float;
    let score := Z.min 10 (Z.max 1 score) in
    Returns (PDict [("score", PInt score); ("suggestions", PList suggestions)]).

(** The route [/api/scan-text]; [data] is the parsed body, [Raises] the
    [except] branch (status 500). *)
Definition api_scan_text (data : pyval) : exc pyval :=
  text ← py_get_default data "text" (PStr "");
  let issues := [] in
  let score := 0 in
  b ← (a ← py_in "http://" text; if a : bool then Returns true else py_in "https://" text);
  let '(issues, score) :=
    if b : bool then (issues ++ [PStr "URL(s) detected"], score + 30) else (issues, score) in
  b ← (l ← py_lower text;
       a ← py_in "urgent" (PStr l);
       if a : bool then Returns true
       else l ← py_lower text; py_in "immediately" (PStr l));
  let '(issues, score) :=
    if b : bool then (issues ++ [PStr "Urgent language"], score + 20) else (issues, score) in
  Returns (PDict [("score", PInt (Z.min 100 score)); ("issues", PList issues)]).

(** * Vocabulary of the properties *)

(** ** The normalizer *)

(** The results of steps 1 that are returned without a type test. *)
Definition untested_content (resp : pyval) (v : pyval) : Prop :=
  ∃ choice, choices_head resp = Some choice ∧
    (obj_field "message" choice ≫= field "content" = Some v ∨
     obj_field "delta" choice ≫= field "content" = Some v).

(** ** The trimmer *)

(** A message as [trim_msg] builds it: a role, and a content within the
    per-message cap. *)
Definition trimmed (m : dict) : Prop :=
  ∃ r c n, m = [("role", r); ("content", c)]
           ∧ py_len c = Returns n ∧ n ≤ MAX_MESSAGE_CHARS.

(** The content of the message is a str, or is missing. *)
Definition is_text (m : dict) : bool := isinstance_str (dict_get m "content" (PStr "")).

(** A trimmed message whose content is a str. *)
Definition trimmed_text (m : dict) : Prop :=
  ∃ r s, m = [("role", r); ("content", PStr s)]
         ∧ Z.of_nat (String.length s) ≤ MAX_MESSAGE_CHARS.

(** ** The adapter *)

(** A request answered with status 200. *)
Definition is_200 (e : event) : bool :=
  match e with
  | Post _ _ (Answers r) => status_code r =? 200
  | _ => false
  end.

(** No request of the trace was answered with status 200. *)
Definition no_200 (tr : list event) : Prop := Forall (fun e => is_200 e = false) tr.

(** The diagnostics stored in [last_err], oldest first. *)
Definition diagnostics (tr : list event) : list string :=
  omap (fun e => match e with Diagnostic d => Some d | _ => None end) tr.

Definition last_diagnostic (tr : list event) : option string := last (diagnostics tr).

(** The diagnostic of an answer: [f"{url} returned {r.status_code}: {r.text}"]. *)
Definition returned_diagnostic (url : string) (r : response) : string :=
  url +:+ " returned " +:+ repr_int (status_code r) +:+ ": " +:+ text r.

Section CallInvariants.

Variables (prompt : pyval) (max_tokens : Z) (temperature : pyval).
Variable safe_messages : list dict.

(** One of the two payloads of the call. *)
Definition sent_by_call (e : event) : Prop :=
  match e with
  | Post _ p _ =>
      p = chat_payload safe_messages max_tokens temperature
      ∨ p = inputs_payload prompt max_tokens temperature
  | _ => True
  end.

(** What has happened when the loops are still running. *)
Record running (st : state) : Prop := {
  running_no_200 : no_200 (trace st);
  running_last_err : last_err st = last_diagnostic (trace st);
  running_sent : Forall sent_by_call (trace st)
}.

(** What has happened when the function returns from inside the loops. *)
Definition returned (st : state) (result : bool * pyval) : Prop :=
  ∃ pre url p r,
    trace st = pre ++ [Post url p (Answers r)]
    ∧ no_200 pre
    ∧ status_code r = 200
    ∧ result = success r
    ∧ Forall sent_by_call (trace st).

End CallInvariants.

(** ** Requests, sleeps and scenarios of a call *)

(** A request. *)
Definition is_post (e : event) : bool := match e with Post _ _ _ => true | _ => false end.

(** The number of requests of a trace. *)
Definition n_posts (tr : list event) : nat := length (List.filter is_post tr).

(** The number that a double stands for (0 for what is no number). *)
Definition Q_of_float (f : float) : Q :=
  match Prim2SF f with
  | S754_finite s m e =>
      let q := if 0 <=? e then inject_Z (Z.pos m * 2 ^ e)
               else Qmake (Z.pos m) (2 ^ Z.to_pos (- e)) in
      if s then Qopp q else q
  | _ => 0%Q
  end.

(** The time slept in a trace, in seconds: the sum of the doubles given to
    [time.sleep], as an exact number. *)
Fixpoint slept (tr : list event) : Q :=
  match tr with
  | [] => 0
  | Sleep d :: tr' => Q_of_float d + slept tr'
  | _ :: tr' => slept tr'
  end%Q.

(** The attempt numbers of a list of attempts, added up. *)
Fixpoint attempt_numbers (attempts : list Z) : Q :=
  match attempts with
  | [] => 0
  | attempt :: attempts' => inject_Z (attempt + 1) + attempt_numbers attempts'
  end%Q.

(** A request, if the event is one, goes to one of [urls]. *)
Definition sent_to (urls : list string) (e : event) : Prop :=
  match e with Post url _ _ => In url urls | _ => True end.

(** The call gets to the candidate [url] in state [st], the candidates
    [before] it given up, the candidates [after] it still to come. *)
Definition reaches (MODEL_HOST : string) (net : network) (prompt : pyval) (max_tokens : Z)
    (temperature : pyval) (messages : option (list dict))
    (safe_messages : list dict) (before : list string) (url : string) (after : list string)
    (st : state) : Prop :=
  safe_messages_of prompt messages = Returns safe_messages
  ∧ MODEL_URLS MODEL_HOST = before ++ url :: after
  ∧ for_url net prompt max_tokens temperature safe_messages before
      {| trace := []; last_err := None |} = (st, None).

(** A status that is neither 200, nor 404, nor one of the recoverable ones. *)
Definition other_status (r : response) : bool :=
  negb (status_code r =? 200) && negb (status_code r =? 404) && negb (status_in recoverable r).

(** The event is no request to [url]. *)
Definition not_to (url : string) (e : event) : Prop :=
  match e with Post u _ _ => u ≠ url | _ => True end.

(** A call that has given up a candidate with the diagnostic [d] goes on:
    the events [rest] that follow are those of the candidates [after] it and
    begin with the chat-shape request to the next one; when no candidate is
    left, nothing follows and the call returns the failure made of [d]. *)
Definition goes_on (chat : pyval) (after : list string) (d : string) (rest : list event)
    (result : exc (bool * pyval)) : Prop :=
  Forall (sent_to after) rest
  ∧ match after with
    | next :: _ => ∃ o rest', rest = Post next chat o :: rest'
    | [] =>
        rest = []
        ∧ result = Returns (false, PStr ("Failed to contact model. Last error: " +:+ d))
    end.

(** ** The session store *)

(** Every session is stored under its own id and has a list of its own. *)
Definition store_ok (w : world) : Prop :=
  ∀ sid s, sessions w !! sid = Some s →
    sess_id s = sid
    ∧ is_Some (lists w !! sess_messages s)
    ∧ ∀ sid' s', sessions w !! sid' = Some s' →
        sess_messages s' = sess_messages s → sid' = sid.

(** The history of a session: the messages of its list. *)
Definition history (w : world) (sid : string) : option (list dict) :=
  s ← sessions w !! sid; lists w !! sess_messages s.

(** Only whitespace, or nothing at all. *)
Fixpoint blank (s : string) : bool :=
  match s with
  | EmptyString => true
  | String c s' => is_space c && blank s'
  end.

(** No whitespace at either end. *)
Definition no_space_at_ends (s : string) : Prop :=
  ∀ c t, s = String c t ∨ s = t +:+ String c EmptyString → is_space c = false.

(** The values that [len] accepts. *)
Definition sized (v : pyval) : bool :=
  match v with
  | PStr _ | PList _ | PDict _ => true
  | _ => false
  end.

(** ** Passwords *)

(** The points of a password that is a str. *)
Definition points (pw : string) : Z :=
  (if 12 <=? Z.of_nat (String.length pw) then 4 else 0)
  + (if str_any char_isupper pw then 2 else 0)
  + (if str_any char_islower pw then 1 else 0)
  + (if str_any char_isdigit pw then 2 else 0)
  + (if str_any (fun c => negb (char_isalnum c)) pw then 1 else 0).

(** ** Concrete inputs *)

Definition three_messages : list dict :=
  [ [("role", PStr "user"); ("content", PStr "What is phishing?"); ("time", PFloat "1.5")];
    [("role", PStr "assistant"); ("content", PStr "A kind of fraud.")];
    [("role", PStr "user")] ].

(** [c * n] *)
Fixpoint str_repeat (c : ascii) (n : nat) : string :=
  match n with
  | O => EmptyString
  | S n' => String c (str_repeat c n')
  end.

Definition local_host : string := "http://127.0.0.1:5000/".

(** A server that answers every request alike. *)
Definition always (code : Z) (body : string) (parsed : option pyval) : network :=
  fun _ _ _ => Answers {| status_code := code; text := body; json := parsed |}.

Definition hi_response : pyval :=
  PDict [("choices", PList [PDict [("message", PDict [("content", PStr "hi")])]])].

Definition hello_messages : list dict := [[("role", PStr "user"); ("content", PStr "Hello")]].

Definition not_found : response := {| status_code := 404; text := "Not Found"; json := None |}.

(** The state of a call that found its first two candidates missing. *)
Definition two_given_up : state :=
  {| trace :=
       [ Post "http://127.0.0.1:5000/v1/chat/completions"
           (chat_payload hello_messages 5 (PFloat "0.2")) (Answers not_found);
         Diagnostic "http://127.0.0.1:5000/v1/chat/completions returned 404 Not Found";
         Post "http://127.0.0.1:5000/v1/completions"
           (chat_payload hello_messages 5 (PFloat "0.2")) (Answers not_found);
         Diagnostic "http://127.0.0.1:5000/v1/completions returned 404 Not Found" ];
     last_err := Some "http://127.0.0.1:5000/v1/completions returned 404 Not Found" |}.

(** A server whose [/predict] is busy and which has no other endpoint. *)
Definition busy_at_predict : network :=
  fun _ url _ =>
    if String.eqb url "http://127.0.0.1:5000/predict"
    then Answers {| status_code := 503; text := "busy"; json := None |}
    else Answers not_found.

(** ** Further concrete inputs *)

Definition first_url : string := "http://127.0.0.1:5000/v1/chat/completions".

Definition other_urls : list string :=
  [ "http://127.0.0.1:5000/v1/completions"; "http://127.0.0.1:5000/predict";
    "http://127.0.0.1:5000/v1/generate"; "http://127.0.0.1:5000/v1/complete" ].

Definition initial : state := {| trace := []; last_err := None |}.

Definition predict_url : string := "http://127.0.0.1:5000/predict".

Definition busy : response := {| status_code := 503; text := "busy"; json := None |}.

Definition hello_chat : pyval := chat_payload hello_messages 5 (PFloat "0.2").

Definition hello_inputs : pyval := inputs_payload (PStr "Hello") 5 (PFloat "0.2").

Definition unauthorized : response :=
  {| status_code := 401; text := "Unauthorized"; json := None |}.

(** A server that cannot be reached. *)
Definition unreachable : network := fun _ _ _ => Fails "Connection refused".

(** A server that refuses the chat shape and does not know the completion
    shape. *)
Definition chat_refused : network :=
  fun _ _ payload =>
    match field "messages" payload with
    | Some _ => Answers unauthorized
    | None => Answers not_found
    end.

(** A model that answers with a content that is [null]. *)
Definition null_response : pyval :=
  PDict [("choices", PList [PDict [("message", PDict [("content", PNone)])]])].

Definition first_request : environment :=
  {| uuid4 := "3f2b"; time_created := PFloat "1.0";
     time_user := PFloat "2.0"; time_assistant := PFloat "3.0" |}.

Definition second_request : environment :=
  {| uuid4 := "77c1"; time_created := PFloat "4.0";
     time_user := PFloat "5.0"; time_assistant := PFloat "6.0" |}.

Definition no_sessions : world := {| lists := ∅; sessions := ∅ |}.

(** The store after one chat request that the model answered with [hi], and
    after one that it answered with [null]. *)
Definition after_hi : world :=
  (api_chat local_host (always 200 "{...}" (Some hi_response)) first_request
     (PStr "Hello") PNone 256 no_sessions).1.1.

Definition after_null : world :=
  (api_chat local_host (always 200 "{...}" (Some null_response)) first_request
     (PStr "Hello") PNone 256 no_sessions).1.1.

Definition the_session : session :=
  {| sess_id := "3f2b"; sess_name := "Chat 1"; sess_created := PFloat "1.0";
     sess_messages := 0%nat |}.

Definition many_messages : list dict :=
  List.repeat [("role", PStr "user"); ("content", PStr "x")] 24.

(** * Properties *)

(** ** The normalizer *)

Lemma choices_block_dict d :
  choices_block (PDict d) =
    match choices_head (PDict d) with
    | None => Returns None
    | Some (PDict c) => Returns (match_choice (PDict c))
    | Some _ => Raises
    end.
Proof.
  unfold choices_block, choices_head, item_is, item_nonempty. simpl.
  destruct (dict_lookup "choices" d) as [v|]; simpl; [|reflexivity].
  destruct v as [| | | | |l|]; simpl; try reflexivity.
  destruct l as [|choice l]; simpl; [reflexivity|].
  destruct choice as [| | | | | |c]; simpl; try reflexivity.
  unfold match_choice, obj_field, str_field, dict_get. simpl.
  destruct (dict_lookup "message" c) as [[| | | | | |m]|] eqn:Em; simpl.
  all: try destruct (dict_lookup "content" m) as [x|] eqn:Ec; simpl; try reflexivity.
  all: destruct (dict_lookup "text" c) as [[| | | | | |]|] eqn:Et; simpl; try reflexivity.
  all: destruct (dict_lookup "delta" c) as [[| | | | | |dl]|] eqn:Ed; simpl; try reflexivity.
  all: try (destruct (dict_lookup "content" dl) as [y|] eqn:Ec'; simpl; reflexivity).
Qed.

(** One turn of a loop over string fields of the dict [d]. *)
Lemma str_field_turn d k (rest : stmt) :
  (If (py_in k (PDict d) &&& item_is isinstance_str (PDict d) k)
     (Return (py_getitem (PDict d) k)) >>> rest)
  = match str_field k (PDict d) with
    | Some v => Returns (Some v)
    | None => rest
    end.
Proof.
  unfold str_field, item_is. simpl.
  destruct (dict_lookup k d) as [[| | | | | |]|]; reflexivity.
Qed.

Lemma then_Pass (s : stmt) : (s >>> Pass) = s.
Proof. destruct s as [[v|]|]; reflexivity. Qed.

Lemma toplevel_block_dict d :
  toplevel_block (PDict d) = Returns (match_toplevel (PDict d)).
Proof.
  unfold toplevel_block, match_toplevel. cbn [For].
  rewrite !str_field_turn.
  destruct (str_field "text" (PDict d)); [reflexivity|].
  destruct (str_field "result" (PDict d)); [reflexivity|].
  destruct (str_field "output_text" (PDict d)); [reflexivity|].
  destruct (str_field "response" (PDict d)); reflexivity.
Qed.

(** The loop over the fields of [data[0]]: on an object it is the
    specification's step 3; on anything else it either raises or finds
    nothing. *)
Lemma data_loop d0 :
  match For ["text"; "content"] (fun k =>
          If (py_in k d0 &&& item_is isinstance_str d0 k) (Return (py_getitem d0 k))) with
  | Returns r => r = (str_field "text" d0 ||| str_field "content" d0)
  | Raises => isinstance_dict d0 = false
  end.
Proof.
  destruct d0 as [| | | |s|l|c]; try reflexivity.
  - cbn. destruct (index 0 "text" s); cbn; [reflexivity|].
    destruct (index 0 "content" s); reflexivity.
  - cbn. destruct (existsb (is_str_eq "text") l); cbn; [reflexivity|].
    destruct (existsb (is_str_eq "content") l); reflexivity.
  - cbn [For]. rewrite !str_field_turn.
    destruct (str_field "text" (PDict c)); [reflexivity|].
    destruct (str_field "content" (PDict c)); reflexivity.
Qed.

Lemma str_field_not_dict k v : isinstance_dict v = false → str_field k v = None.
Proof. destruct v; try reflexivity; discriminate. Qed.

Lemma data_block_dict d :
  match data_block (PDict d) with
  | Returns r => r = match_data (PDict d)
  | Raises => match_data (PDict d) = None
  end.
Proof.
  unfold data_block, match_data, item_is, item_nonempty. cbn -[For].
  destruct (dict_lookup "data" d) as [v|]; cbn -[For]; [|reflexivity].
  destruct v as [| | | | |l|]; cbn -[For]; try reflexivity.
  destruct l as [|d0 l]; cbn -[For]; [reflexivity|].
  pose proof (data_loop d0) as H.
  destruct (For _ _) as [r|]; [exact H|].
  rewrite !str_field_not_dict by exact H. reflexivity.
Qed.

(** What the function computes, on every value: the first match of the
    specification's chain when [choices[0]] can be inspected, and the string
    of the whole value when inspecting it raises. *)
Lemma extract_text_characterisation resp_json :
  extract_text_from_model_response resp_json =
    (if inspectable resp_json then extract_text_spec resp_json
     else PStr (py_str resp_json),
     resp_json).
Proof.
  unfold extract_text_from_model_response, try_block.
  destruct resp_json as [| | | | | |d]; try reflexivity.
  cbn [If isinstance_dict mbind exc_bind].
  unfold extract_text_spec, first_match, match_choices, inspectable.
  rewrite choices_block_dict, toplevel_block_dict.
  pose proof (data_block_dict d) as Hd.
  set (fb := py_str (PDict d)). clearbody fb.
  set (md := match_data (PDict d)) in *. clearbody md.
  set (mt := match_toplevel (PDict d)). clearbody mt.
  destruct (data_block (PDict d)) as [r|]; subst.
  all: destruct (choices_head (PDict d)) as [[| | | | | |c]|]; try reflexivity.
  all: cbn; try destruct (match_choice (PDict c)); try reflexivity.
  all: cbn; destruct mt; try reflexivity.
  all: cbn; destruct md; reflexivity.
Qed.

Lemma extract_text_fst resp_json :
  fst (extract_text_from_model_response resp_json) =
    if inspectable resp_json then extract_text_spec resp_json
    else PStr (py_str resp_json).
Proof. rewrite extract_text_characterisation. reflexivity. Qed.

Lemma not_inspectable_raises resp_json :
  inspectable resp_json = false → try_block resp_json = Raises.
Proof.
  unfold inspectable, try_block.
  destruct resp_json as [| | | | | |d]; try discriminate.
  cbn [If isinstance_dict mbind exc_bind]. rewrite choices_block_dict.
  destruct (choices_head (PDict d)) as [[| | | | | |c]|]; try discriminate; reflexivity.
Qed.

Lemma str_field_is_str k v x : str_field k v = Some x → isinstance_str x = true.
Proof.
  unfold str_field. destruct (field k v) as [[| | | | | |]|]; try discriminate.
  intros [= <-]. reflexivity.
Qed.

Lemma or_else_Some {A} (a b : option A) x :
  a ||| b = Some x → a = Some x ∨ (a = None ∧ b = Some x).
Proof. destruct a; cbn; intros H; [left | right]; auto. Qed.

Lemma first_match_text resp v :
  first_match resp = Some v → isinstance_str v = true ∨ untested_content resp v.
Proof.
  unfold first_match. intros H.
  apply or_else_Some in H as [H|[_ H]]; [apply or_else_Some in H as [H|[_ H]]|].
  - unfold match_choices in H.
    destruct (choices_head resp) as [choice|] eqn:Ec; [|discriminate]. cbn in H.
    unfold match_choice in H.
    apply or_else_Some in H as [H|[_ H]]; [apply or_else_Some in H as [H|[_ H]]|].
    + right. exists choice. auto.
    + left. eapply str_field_is_str, H.
    + right. exists choice. auto.
  - left. unfold match_toplevel in H.
    repeat (apply or_else_Some in H as [H|[_ H]]); eapply str_field_is_str, H.
  - left. unfold match_data in H.
    destruct (field "data" resp ≫= first_item) as [d0|]; [|discriminate]. cbn in H.
    apply or_else_Some in H as [H|[_ H]]; eapply str_field_is_str, H.
Qed.

(** C5, as amended.  [extract_text_from_model_response] never fails: on
    every value it returns a result, paired with its input.  An exception
    raised while the structure is inspected is swallowed and the function
    goes straight to the final fallback, the string of the whole input, without
    trying the later steps; this is what happens whenever [choices[0]] is not
    an object.  When no recognized shape matches, the result is the string of
    the whole input.  The result is a str whenever it is not the [content]
    of [choices[0].message] or of [choices[0].delta]. *)
Theorem extract_text_never_fails resp_json :
  snd (extract_text_from_model_response resp_json) = resp_json
  ∧ (try_block resp_json = Raises →
       fst (extract_text_from_model_response resp_json) = PStr (py_str resp_json))
  ∧ (inspectable resp_json = false →
       try_block resp_json = Raises
       ∧ fst (extract_text_from_model_response resp_json) = PStr (py_str resp_json))
  ∧ (first_match resp_json = None →
       fst (extract_text_from_model_response resp_json) = PStr (py_str resp_json))
  ∧ (isinstance_str (fst (extract_text_from_model_response resp_json)) = true
     ∨ untested_content resp_json (fst (extract_text_from_model_response resp_json))).
Proof.
  repeat split.
  - rewrite extract_text_characterisation. reflexivity.
  - intros H. unfold extract_text_from_model_response. rewrite H. reflexivity.
  - apply not_inspectable_raises, H.
  - rewrite extract_text_fst, H. reflexivity.
  - intros H. rewrite extract_text_fst. unfold extract_text_spec. rewrite H.
    destruct (inspectable resp_json); reflexivity.
  - rewrite extract_text_fst. unfold extract_text_spec.
    destruct (inspectable resp_json); [|left; reflexivity].
    destruct (first_match resp_json) as [v|] eqn:E; [|left; reflexivity].
    apply first_match_text, E.
Qed.

(** The empty object matches no shape; a first choice that is a number
    cannot be inspected: in both cases the string of the input is returned. *)
Lemma extract_text_never_fails_witness :
  fst (extract_text_from_model_response (PDict [])) = PStr "{}"
  ∧ try_block (PDict [("choices", PList [PInt 5]); ("result", PStr "r")]) = Raises
  ∧ fst (extract_text_from_model_response
           (PDict [("choices", PList [PInt 5]); ("result", PStr "r")]))
    = PStr "{'choices': [5], 'result': 'r'}".
Proof.
  split; [|split].
  - destruct (extract_text_never_fails (PDict [])) as (_ & _ & _ & H & _).
    apply H. reflexivity.
  - destruct (extract_text_never_fails (PDict [("choices", PList [PInt 5]); ("result", PStr "r")]))
      as (_ & _ & H & _).
    apply H. reflexivity.
  - destruct (extract_text_never_fails (PDict [("choices", PList [PInt 5]); ("result", PStr "r")]))
      as (_ & H & _).
    apply H. reflexivity.
Defined.

(** C5, as the specification states it, fails: on
    [{"choices": [null], "text": "hello"}] inspecting [choices[0]] raises;
    were that "no match at that step", the next step would return ["hello"];
    the function returns the string of the whole input instead. *)
Lemma extract_text_exception_is_not_no_match :
  let resp := PDict [("choices", PList [PNone]); ("text", PStr "hello")] in
  choices_block resp = Raises
  ∧ toplevel_block resp = Returns (Some (PStr "hello"))
  ∧ fst (extract_text_from_model_response resp) = PStr "{'choices': [None], 'text': 'hello'}"
  ∧ fst (extract_text_from_model_response resp) ≠ PStr "hello".
Proof. cbv zeta. repeat split; try reflexivity. discriminate. Qed.

(** C6, as the specification states it, fails: on
    [{"choices": ["hi"], "data": [{"content": "d"}]}] no heuristic on
    [choices[0]] matches and no top-level string field is present, so the
    priority order gives the [content] of [data[0]], ["d"]; the function
    returns the string of the whole input. *)
Lemma extract_text_priority_order_fails :
  let resp := PDict [ ("choices", PList [PStr "hi"]);
                      ("data", PList [PDict [("content", PStr "d")]]) ] in
  match_choices resp = None
  ∧ match_toplevel resp = None
  ∧ match_data resp = Some (PStr "d")
  ∧ fst (extract_text_from_model_response resp)
    = PStr "{'choices': ['hi'], 'data': [{'content': 'd'}]}"
  ∧ fst (extract_text_from_model_response resp)
    ≠ default (PStr (py_str resp))
        (match_choices resp ||| match_toplevel resp ||| match_data resp).
Proof. cbv zeta. repeat split; try reflexivity. discriminate. Qed.

(** C6, as amended.  On every response whose [choices[0]], if there is
    one, is an object, the shape heuristics are applied in the fixed priority
    order: [choices[0].message.content], then a string [choices[0].text],
    then [choices[0].delta.content]; then the first string among the
    top-level fields [text], [result], [output_text], [response]; then the
    string field [text] or [content] of [data[0]]; the first match wins, and
    the string of the input is the result when nothing matches.  When
    [choices] is a non-empty list whose first element is not an object, the
    result is the string of the whole input.  The five examples of the
    specification hold. *)
Theorem extract_text_priority_order :
  (∀ resp, inspectable resp = true →
     fst (extract_text_from_model_response resp) =
       default (PStr (py_str resp))
         (match_choices resp ||| match_toplevel resp ||| match_data resp))
  ∧ (∀ resp, inspectable resp = false →
       fst (extract_text_from_model_response resp) = PStr (py_str resp))
  ∧ fst (extract_text_from_model_response
           (PDict [("choices", PList [PDict [("message", PDict [("content", PStr "hi")])]])]))
    = PStr "hi"
  ∧ fst (extract_text_from_model_response
           (PDict [("choices", PList [PDict [("text", PStr "hey")]])]))
    = PStr "hey"
  ∧ fst (extract_text_from_model_response (PDict [("text", PStr "direct")])) = PStr "direct"
  ∧ fst (extract_text_from_model_response
           (PDict [("data", PList [PDict [("content", PStr "d")]])]))
    = PStr "d"
  ∧ fst (extract_text_from_model_response (PDict [])) = PStr "{}".
Proof.
  split; [|split].
  - intros resp H. rewrite extract_text_fst, H. reflexivity.
  - intros resp H. rewrite extract_text_fst, H. reflexivity.
  - repeat split; reflexivity.
Qed.

(** With a chat message, a delta and a top-level [text], the message wins;
    with a first choice that is no object, the string of the input is
    returned. *)
Lemma extract_text_priority_order_witness :
  fst (extract_text_from_model_response
         (PDict [ ("text", PStr "low");
                  ("choices", PList [PDict [ ("delta", PDict [("content", PStr "mid")]);
                                             ("message", PDict [("content", PStr "high")]) ]]) ]))
  = PStr "high"
  ∧ fst (extract_text_from_model_response (PDict [("choices", PList [PInt 5])]))
    = PStr "{'choices': [5]}".
Proof.
  destruct extract_text_priority_order as (H1 & H2 & _). split.
  - rewrite H1; reflexivity.
  - rewrite H2; reflexivity.
Defined.

(** The [content] of a chat message is returned as it is, text or not:
    [{"choices": [{"message": {"content": null}}]}] yields [None]. *)
Example extract_text_null_content :
  fst (extract_text_from_model_response
         (PDict [("choices", PList [PDict [("message", PDict [("content", PNone)])]])]))
  = PNone.
Proof. reflexivity. Qed.

(** ** The trimmer *)

Lemma slice_start_neg k len :
  0 < k → 0 ≤ len → slice_start (- k) len = Z.to_nat (len - k).
Proof. intros Hk Hlen. unfold slice_start. destruct (Z.ltb_spec (- k) 0); lia. Qed.

Lemma length_str_drop n s : String.length (str_drop n s) = (String.length s - n)%nat.
Proof.
  revert s. induction n as [|n IH]; intros [|c s]; cbn; try reflexivity.
  apply IH.
Qed.

Lemma length_str_slice_from k s :
  0 < k →
  Z.of_nat (String.length (str_slice_from (- k) s)) = Z.min k (Z.of_nat (String.length s)).
Proof.
  intros Hk. unfold str_slice_from.
  rewrite slice_start_neg, length_str_drop by lia. lia.
Qed.

Lemma length_slice_from {A} k (l : list A) :
  0 < k → Z.of_nat (length (slice_from (- k) l)) = Z.min k (Z.of_nat (length l)).
Proof.
  intros Hk. unfold slice_from.
  rewrite slice_start_neg, length_drop by lia. lia.
Qed.

Lemma slice_from_all {A} k (l : list A) :
  0 < k → Z.of_nat (length l) ≤ k → slice_from (- k) l = l.
Proof.
  intros Hk Hl. unfold slice_from. rewrite slice_start_neg by lia.
  replace (Z.to_nat (Z.of_nat (length l) - k)) with 0%nat by lia. reflexivity.
Qed.

Lemma slice_from_Forall {A} (P : A → Prop) start (l : list A) :
  Forall P l → Forall P (slice_from start l).
Proof. apply Forall_drop. Qed.

Lemma trim_msg_trimmed m m' : trim_msg m = Returns m' → trimmed m'.
Proof.
  unfold trim_msg, trimmed.
  destruct (dict_get m "content" (PStr "")) as [| | | |s|l|d]; cbn; try discriminate.
  - destruct (Z.ltb_spec MAX_MESSAGE_CHARS (Z.of_nat (String.length s))); cbn;
      intros [= <-]; eexists _, _, _; (split; [reflexivity|]); cbn; split; try reflexivity.
    + rewrite length_str_slice_from by reflexivity. lia.
    + lia.
  - destruct (Z.ltb_spec MAX_MESSAGE_CHARS (Z.of_nat (length l))); cbn;
      intros [= <-]; eexists _, _, _; (split; [reflexivity|]); cbn; split; try reflexivity.
    + rewrite length_slice_from by reflexivity. lia.
    + lia.
  - destruct (Z.ltb_spec MAX_MESSAGE_CHARS (Z.of_nat (length d))); cbn; try discriminate.
    intros [= <-]; eexists _, _, _; (split; [reflexivity|]); cbn; split; [reflexivity|lia].
Qed.

Lemma trim_msg_fixed m : trimmed m → trim_msg m = Returns m.
Proof.
  intros (r & c & n & -> & Hlen & Hn). unfold trim_msg. cbn.
  rewrite Hlen. cbn.
  destruct (Z.ltb_spec MAX_MESSAGE_CHARS n); [lia|reflexivity].
Qed.

Lemma trimmed_text_trimmed m : trimmed_text m → trimmed m.
Proof. intros (r & s & -> & H). exists r, (PStr s), (Z.of_nat (String.length s)). auto. Qed.

Lemma trim_msg_text m :
  is_text m = true → ∃ m', trim_msg m = Returns m' ∧ trimmed_text m'.
Proof.
  unfold is_text, trim_msg, trimmed_text.
  destruct (dict_get m "content" (PStr "")) as [| | | |s| |]; try discriminate.
  intros _. cbn.
  destruct (Z.ltb_spec MAX_MESSAGE_CHARS (Z.of_nat (String.length s))); cbn;
    eexists; (split; [reflexivity|]); eexists _, _; (split; [reflexivity|]).
  - rewrite length_str_slice_from by reflexivity. lia.
  - lia.
Qed.

Lemma comprehension_Forall2 {A B} (f : A → exc B) l l' :
  comprehension f l = Returns l' → Forall2 (fun x y => f x = Returns y) l l'.
Proof.
  revert l'. induction l as [|x l IH]; cbn; intros l'.
  - intros [= <-]. constructor.
  - destruct (f x) as [y|] eqn:Ex; cbn; [|discriminate].
    destruct (comprehension f l) as [ys|]; cbn; [|discriminate].
    intros [= <-]. constructor; auto.
Qed.

Lemma comprehension_fixed {A} (f : A → exc A) l :
  Forall (fun x => f x = Returns x) l → comprehension f l = Returns l.
Proof.
  induction 1 as [|x l Hx _ IH]; cbn; [reflexivity|]. rewrite Hx. cbn. rewrite IH. reflexivity.
Qed.

Lemma comprehension_returns {A B} (f : A → exc B) (Q : B → Prop) l :
  Forall (fun x => ∃ y, f x = Returns y ∧ Q y) l →
  ∃ l', comprehension f l = Returns l' ∧ length l' = length l ∧ Forall Q l'.
Proof.
  induction 1 as [|x l (y & Hy & HQ) _ (l' & IH & Hlen & HQl)]; cbn.
  - exists []. auto.
  - rewrite Hy. cbn. rewrite IH. cbn. exists (y :: l'). cbn. auto.
Qed.

Lemma comprehension_trimmed l l' :
  comprehension trim_msg l = Returns l' → length l' = length l ∧ Forall trimmed l'.
Proof.
  intros H%comprehension_Forall2. split.
  - symmetry. eapply Forall2_length, H.
  - induction H; constructor; eauto using trim_msg_trimmed.
Qed.

Lemma total_chars_trimmed l :
  Forall trimmed l → ∃ t, total_chars l = Returns t.
Proof.
  induction 1 as [|m l (r & c & n & -> & Hlen & Hn) _ (t & IH)]; cbn.
  - eauto.
  - rewrite Hlen. cbn. rewrite IH. cbn. eauto.
Qed.

(** What the [while] loop leaves: a suffix of the list that the loop does
    not shorten any further. *)
Lemma drop_oldest_trimmed l :
  Forall trimmed l →
  ∃ l' t, drop_oldest l = Returns l'
          ∧ l' `suffix_of` l
          ∧ (l ≠ [] → l' ≠ [])
          ∧ total_chars l' = Returns t
          ∧ (t ≤ MAX_TOTAL_CHARS ∨ length l' = 1%nat)
          ∧ drop_oldest l' = Returns l'.
Proof.
  induction 1 as [|m l Hm Hl (l' & t & IH & Hsuf & Hne & Ht & Hcap & Hfix)].
  - exists [], 0. cbn. repeat split; auto. left. unfold MAX_TOTAL_CHARS. lia.
  - destruct (total_chars_trimmed (m :: l)) as [t0 Ht0]; [constructor; auto|].
    assert (Hstep : drop_oldest (m :: l) =
              if (MAX_TOTAL_CHARS <? t0) && (1 <? Z.of_nat (length (m :: l)))
              then drop_oldest l else Returns (m :: l)).
    { change (drop_oldest (m :: l)) with
        (total ← total_chars (m :: l);
         if (MAX_TOTAL_CHARS <? total) && (1 <? Z.of_nat (length (m :: l)))
         then drop_oldest l else Returns (m :: l)).
      rewrite Ht0. reflexivity. }
    destruct ((MAX_TOTAL_CHARS <? t0) && (1 <? Z.of_nat (length (m :: l)))) eqn:Hc.
    + apply andb_true_iff in Hc as [_ Hlen%Z.ltb_lt]. cbn in Hlen.
      exists l', t. rewrite Hstep.
      split; [exact IH|]. split; [apply suffix_cons_r, Hsuf|].
      split; [|auto].
      intros _. apply Hne. destruct l; [cbn in Hlen; lia|discriminate].
    + exists (m :: l), t0. rewrite Hstep.
      split; [reflexivity|]. split; [reflexivity|]. split; [discriminate|].
      split; [exact Ht0|]. split.
      * apply andb_false_iff in Hc as [Hc%Z.ltb_ge|Hc%Z.ltb_ge]; [left; lia|right].
        cbn in Hc |- *. lia.
      * reflexivity.
Qed.

Lemma Forall_suffix {A} (P : A → Prop) (l' l : list A) :
  l' `suffix_of` l → Forall P l → Forall P l'.
Proof. intros [k ->] H. apply Forall_app in H. apply H. Qed.

(** Whenever [trim_messages] returns, its result is within the caps and is
    left as it is by each of the three steps. *)
Lemma trim_messages_result messages out :
  trim_messages messages = Returns out →
  Z.of_nat (length out) ≤ MAX_MESSAGES
  ∧ Forall trimmed out
  ∧ (∃ t, total_chars out = Returns t ∧ (t ≤ MAX_TOTAL_CHARS ∨ length out = 1%nat))
  ∧ (messages ≠ [] → out ≠ [])
  ∧ drop_oldest out = Returns out
  ∧ (∃ l, comprehension trim_msg (slice_from (- MAX_MESSAGES) messages) = Returns l
          ∧ out `suffix_of` l).
Proof.
  unfold trim_messages. destruct messages as [|m ms].
  - intros [= <-]. cbn. repeat split; auto.
    + unfold MAX_MESSAGES. lia.
    + exists 0. split; [reflexivity|]. left. unfold MAX_TOTAL_CHARS. lia.
    + exists []. split; [reflexivity|]. reflexivity.
  - set (messages := m :: ms).
    destruct (comprehension trim_msg (slice_from (- MAX_MESSAGES) messages)) as [l|] eqn:El;
      cbn; [|discriminate].
    intros Hout.
    destruct (comprehension_trimmed _ _ El) as [Hlen Htr].
    destruct (drop_oldest_trimmed l Htr) as (l' & t & Hd & Hsuf & Hne & Ht & Hcap & Hfix).
    rewrite Hd in Hout. injection Hout as <-.
    assert (Hl : Z.of_nat (length l) = Z.min MAX_MESSAGES (Z.of_nat (length messages))).
    { rewrite Hlen. apply length_slice_from. reflexivity. }
    repeat split.
    + apply suffix_length in Hsuf. lia.
    + eapply Forall_suffix; eauto.
    + eauto.
    + intros _. apply Hne. intros ->. subst messages. cbn in Hl. unfold MAX_MESSAGES in Hl. lia.
    + exact Hfix.
    + eauto.
Qed.

Lemma trim_messages_fixed messages out :
  trim_messages messages = Returns out → trim_messages out = Returns out.
Proof.
  intros (Hlen & Htr & _ & _ & Hfix & _)%trim_messages_result.
  unfold trim_messages. destruct out as [|m out]; [reflexivity|].
  rewrite slice_from_all by (try reflexivity; exact Hlen).
  rewrite comprehension_fixed by (eapply Forall_impl; [exact Htr|apply trim_msg_fixed]).
  exact Hfix.
Qed.

Lemma trim_messages_returns messages :
  forallb is_text messages = true →
  ∃ out, trim_messages messages = Returns out ∧ Forall trimmed_text out.
Proof.
  intros Htext. unfold trim_messages. destruct messages as [|m ms]; [exists []; auto|].
  set (messages := m :: ms) in *.
  destruct (comprehension_returns trim_msg trimmed_text (slice_from (- MAX_MESSAGES) messages))
    as (l & El & _ & Hl).
  { apply slice_from_Forall. apply Forall_forall. intros x Hx. apply trim_msg_text.
    rewrite forallb_forall in Htext. apply Htext. apply list_elem_of_In, Hx. }
  rewrite El. cbn.
  destruct (drop_oldest_trimmed l) as (l' & t & Hd & Hsuf & _).
  { eapply Forall_impl; [exact Hl|apply trimmed_text_trimmed]. }
  exists l'. split; [exact Hd|]. eapply Forall_suffix; eauto.
Qed.

(** C1.  On every list of messages (dicts whose content is text),
    [trim_messages] returns a list of at most [MAX_MESSAGES] (24) messages,
    each a role with a content of at most [MAX_MESSAGE_CHARS] (3000)
    characters, whose total content length is at most [MAX_TOTAL_CHARS]
    (14000) unless the list has exactly one message, and which is not empty
    when the input is not empty. *)
Theorem trim_messages_bounded messages :
  forallb is_text messages = true →
  ∃ out total,
    trim_messages messages = Returns out
    ∧ Z.of_nat (length out) ≤ MAX_MESSAGES
    ∧ Forall trimmed_text out
    ∧ total_chars out = Returns total
    ∧ (total ≤ MAX_TOTAL_CHARS ∨ length out = 1%nat)
    ∧ (messages ≠ [] → out ≠ []).
Proof.
  intros Htext.
  destruct (trim_messages_returns messages Htext) as (out & Hout & Htr).
  destruct (trim_messages_result messages out Hout) as (Hlen & _ & (t & Ht & Hcap) & Hne & _).
  exists out, t. auto 10.
Qed.

(** C7.  [trim_messages] is idempotent: on every list of messages, trimming
    the trimmed list again returns that same list. *)
Theorem trim_messages_idempotent messages :
  forallb is_text messages = true →
  ∃ out, trim_messages messages = Returns out ∧ trim_messages out = Returns out.
Proof.
  intros Htext.
  destruct (trim_messages_returns messages Htext) as (out & Hout & _).
  exists out. split; [exact Hout|]. eapply trim_messages_fixed, Hout.
Qed.

(** ** The adapter *)

Section AdapterFacts.

Variable net : network.
Variables (prompt : pyval) (max_tokens : Z) (temperature : pyval).
Variable safe_messages : list dict.

Let chat := chat_payload safe_messages max_tokens temperature.
Let inputs := inputs_payload prompt max_tokens temperature.

Abbreviation Sent := (sent_by_call prompt max_tokens temperature safe_messages).
Abbreviation Running := (running prompt max_tokens temperature safe_messages).
Abbreviation Returned := (returned prompt max_tokens temperature safe_messages).

Lemma running_log e st :
  Running st → is_200 e = false → Sent e →
  (∀ d, e ≠ Diagnostic d) →
  Running (log e st).
Proof.
  intros [H1 H2 H3] He Hs Hd. split; cbn.
  - apply Forall_app. split; [exact H1|]. repeat constructor. exact He.
  - rewrite H2. unfold last_diagnostic, diagnostics. rewrite omap_app. cbn.
    destruct e; try (rewrite app_nil_r; reflexivity). exfalso. eapply Hd. reflexivity.
  - apply Forall_app. split; [exact H3|]. constructor; [exact Hs|constructor].
Qed.

Lemma running_set_last_err d st : Running st → Running (set_last_err d st).
Proof.
  intros [H1 H2 H3]. split; cbn.
  - apply Forall_app. split; [exact H1|]. repeat constructor.
  - unfold last_diagnostic, diagnostics. rewrite omap_app. cbn. rewrite last_snoc. reflexivity.
  - apply Forall_app. split; [exact H3|]. repeat constructor.
Qed.

Lemma running_sleep q st : Running st → Running (sleep q st).
Proof. intros H. apply running_log; [exact H|reflexivity|exact I|discriminate]. Qed.

Lemma last_err_set_last_err d st : last_err (set_last_err d st) = Some d.
Proof. reflexivity. Qed.

(** After a request: still running when the answer is not a 200. *)
Lemma running_post url p st :
  Running st → p = chat ∨ p = inputs →
  match snd (post net url p st) with
  | Answers r =>
      if status_code r =? 200 then Returned (fst (post net url p st)) (success r)
      else Running (fst (post net url p st))
  | Fails _ => Running (fst (post net url p st))
  end.
Proof.
  intros Hrun Hp. unfold post. cbn [fst snd].
  destruct (net (trace st) url p) as [r|msg] eqn:E.
  - destruct (status_code r =? 200) eqn:E200.
    + exists (trace st), url, p, r. destruct Hrun as [H1 H2 H3].
      split; [reflexivity|]. split; [exact H1|]. split; [apply Z.eqb_eq, E200|].
      split; [reflexivity|].
      cbn. apply Forall_app. split; [exact H3|]. constructor; [exact Hp|constructor].
    + apply running_log; [exact Hrun|cbn; exact E200|exact Hp|discriminate].
  - apply running_log; [exact Hrun|reflexivity|exact Hp|discriminate].
Qed.

(** One attempt: the function returns on a 200; otherwise the loops go on
    with a diagnostic in [last_err]. *)
Lemma attempt_body_spec url attempt st :
  Running st →
  match snd (attempt_body net prompt max_tokens temperature safe_messages url attempt st) with
  | Done result =>
      Returned (fst (attempt_body net prompt max_tokens temperature safe_messages url attempt st)) result
  | _ =>
      Running (fst (attempt_body net prompt max_tokens temperature safe_messages url attempt st))
      ∧ is_Some (last_err (fst (attempt_body net prompt max_tokens temperature safe_messages url attempt st)))
  end.
Proof.
  intros Hrun. unfold attempt_body, on_exception.
  pose proof (running_post url chat st Hrun (or_introl eq_refl)) as H1. fold chat.
  destruct (post net url chat st) as [st1 o1]. cbn [fst snd] in H1.
  destruct o1 as [r|msg].
  2:{ cbn. split; [apply running_sleep, running_set_last_err, H1|eauto]. }
  destruct (status_code r =? 200); [exact H1|].
  destruct (status_code r =? 404).
  { cbn. split; [apply running_set_last_err, H1|eauto]. }
  destruct (status_in recoverable r).
  { cbn. split; [apply running_sleep, running_set_last_err, H1|eauto]. }
  pose proof (running_post url inputs st1 H1 (or_intror eq_refl)) as H2. fold inputs.
  destruct (post net url inputs st1) as [st2 o2]. cbn [fst snd] in H2.
  destruct o2 as [r2|msg2].
  2:{ cbn. split; [apply running_sleep, running_set_last_err, H2|eauto]. }
  destruct (status_code r2 =? 200); [exact H2|].
  destruct (status_code r2 =? 404).
  all: cbn; split; [apply running_set_last_err, H2|eauto].
Qed.

Lemma for_attempt_spec url attempts st :
  Running st →
  match snd (for_attempt net prompt max_tokens temperature safe_messages url attempts st) with
  | Some result =>
      Returned (fst (for_attempt net prompt max_tokens temperature safe_messages url attempts st)) result
  | None =>
      Running (fst (for_attempt net prompt max_tokens temperature safe_messages url attempts st))
      ∧ (attempts ≠ [] ∨ is_Some (last_err st) →
         is_Some (last_err (fst (for_attempt net prompt max_tokens temperature safe_messages url attempts st))))
  end.
Proof.
  revert st. induction attempts as [|attempt attempts IH]; intros st Hrun; cbn [for_attempt fst snd].
  - split; [exact Hrun|]. intros [H|H]; [congruence|exact H].
  - pose proof (attempt_body_spec url attempt st Hrun) as Hb.
    destruct (attempt_body net prompt max_tokens temperature safe_messages url attempt st)
      as [st1 [result| |]]; cbn [fst snd] in *.
    + exact Hb.
    + destruct Hb as [Hb1 Hb2]. auto.
    + destruct Hb as [Hb1 Hb2]. specialize (IH st1 Hb1).
      destruct (for_attempt net prompt max_tokens temperature safe_messages url attempts st1)
        as [st2 [result|]]; cbn [fst snd] in *; [exact IH|].
      destruct IH as [IH1 IH2]. auto.
Qed.

Lemma for_url_spec urls st :
  Running st →
  match snd (for_url net prompt max_tokens temperature safe_messages urls st) with
  | Some result =>
      Returned (fst (for_url net prompt max_tokens temperature safe_messages urls st)) result
  | None =>
      Running (fst (for_url net prompt max_tokens temperature safe_messages urls st))
      ∧ (urls ≠ [] ∨ is_Some (last_err st) →
         is_Some (last_err (fst (for_url net prompt max_tokens temperature safe_messages urls st))))
  end.
Proof.
  revert st. induction urls as [|url urls IH]; intros st Hrun; cbn [for_url fst snd].
  - split; [exact Hrun|]. intros [H|H]; [congruence|exact H].
  - pose proof (for_attempt_spec url [0; 1; 2] st Hrun) as Ha.
    destruct (for_attempt net prompt max_tokens temperature safe_messages url [0; 1; 2] st)
      as [st1 [result|]]; cbn [fst snd] in *; [exact Ha|].
    destruct Ha as [Ha1 Ha2]. specialize (IH st1 Ha1).
    destruct (for_url net prompt max_tokens temperature safe_messages urls st1)
      as [st2 [result|]]; cbn [fst snd] in *; [exact IH|].
    destruct IH as [IH1 IH2]. split; [exact IH1|]. intros _. apply IH2. right.
    apply Ha2. left. discriminate.
Qed.

End AdapterFacts.

Lemma running_initial prompt max_tokens temperature safe_messages :
  running prompt max_tokens temperature safe_messages {| trace := []; last_err := None |}.
Proof. split; cbn; [constructor|reflexivity|constructor]. Qed.

Lemma safe_messages_of_returns prompt messages :
  ∃ safe_messages, safe_messages_of prompt messages = Returns safe_messages.
Proof.
  unfold safe_messages_of. destruct messages as [[|m ms]|]; cbn; eauto.
  destruct (trim_messages_returns
              (map (fun m => [ ("role", dict_get m "role" (PStr "user"));
                               ("content", PStr (py_str (dict_get m "content" (PStr "")))) ])
                   (m :: ms))) as (out & Hout & _).
  { apply forallb_forall. intros x (y & <- & _)%in_map_iff. reflexivity. }
  cbn in Hout. rewrite Hout. cbn. destruct out; eauto.
Qed.

(** The two ways [call_model] ends: it returns from inside the loops on the
    first answer with status 200, or it leaves the loops and reports the last
    diagnostic. *)
Lemma call_model_cases MODEL_HOST net prompt max_tokens stop temperature messages :
  ∃ safe_messages st,
    safe_messages_of prompt messages = Returns safe_messages
    ∧ ((∃ result,
          returned prompt max_tokens temperature safe_messages st result
          ∧ call_model MODEL_HOST net prompt max_tokens stop temperature messages
            = (trace st, Returns result))
       ∨ (∃ d,
            running prompt max_tokens temperature safe_messages st
            ∧ last_err st = Some d
            ∧ call_model MODEL_HOST net prompt max_tokens stop temperature messages
              = (trace st,
                 Returns (false, PStr ("Failed to contact model. Last error: " +:+ d))))).
Proof.
  destruct (safe_messages_of_returns prompt messages) as [safe Hsafe].
  unfold call_model, after_loops. rewrite Hsafe.
  pose proof (for_url_spec net prompt max_tokens temperature safe (MODEL_URLS MODEL_HOST) _
                (running_initial prompt max_tokens temperature safe)) as H.
  destruct (for_url net prompt max_tokens temperature safe (MODEL_URLS MODEL_HOST) _)
    as [st [result|]]; cbn [fst snd] in H; exists safe, st; (split; [reflexivity|]).
  - left. eauto.
  - right. destruct H as [Hrun Herr].
    destruct Herr as [d Hd]; [left; discriminate|].
    exists d. rewrite Hd. auto.
Qed.

Lemma snoc_eq_middle {A} (pre' pre post : list A) (e' e : A) :
  pre' ++ [e'] = pre ++ e :: post → (post = [] ∧ e = e') ∨ In e pre'.
Proof.
  destruct post as [|x post _] using rev_ind.
  - intros [_ ->]%app_inj_tail. left. auto.
  - rewrite app_comm_cons, app_assoc. intros [-> _]%app_inj_tail.
    right. apply in_or_app. right. left. reflexivity.
Qed.

(** C2.  Whenever a request of the call is answered with status 200 (the
    chat-shape request in particular), [call_model] returns at once: nothing
    follows that answer in the call, neither a later candidate URL nor a
    further attempt, and the result is the success variant with the
    normalizer's extraction of the parsed JSON body, or with the raw body
    text when the body does not parse. *)
Theorem call_model_returns_on_200
    MODEL_HOST net prompt max_tokens stop temperature messages pre url payload r post :
  fst (call_model MODEL_HOST net prompt max_tokens stop temperature messages)
    = pre ++ Post url payload (Answers r) :: post →
  status_code r = 200 →
  post = []
  ∧ snd (call_model MODEL_HOST net prompt max_tokens stop temperature messages)
    = Returns (true,
               match json r with
               | Some j => fst (extract_text_from_model_response j)
               | None => PStr (text r)
               end).
Proof.
  intros Htr H200.
  destruct (call_model_cases MODEL_HOST net prompt max_tokens stop temperature messages)
    as (safe & st & _ & [(result & Hret & Hcall)|(d & Hrun & _ & Hcall)]);
    rewrite Hcall in *; cbn [fst snd] in *.
  - destruct Hret as (pre' & url' & p' & r' & Htr' & Hno & _ & -> & _).
    rewrite Htr' in Htr. apply snoc_eq_middle in Htr as [[-> [= _ _ ->]]|Hin].
    + split; [reflexivity|]. unfold success. destruct (json r'); reflexivity.
    + exfalso. unfold no_200 in Hno. rewrite Forall_forall in Hno.
      apply list_elem_of_In, Hno in Hin. cbn in Hin. rewrite H200 in Hin. discriminate.
  - exfalso. destruct Hrun as [Hno _ _]. unfold no_200 in Hno. rewrite Forall_forall in Hno.
    assert (Hin : Post url payload (Answers r) ∈ trace st).
    { rewrite Htr. apply list_elem_of_In, in_or_app. right. left. reflexivity. }
    apply Hno in Hin. cbn in Hin. rewrite H200 in Hin. discriminate.
Qed.

(** C4.  When no request of the call is answered with status 200, every
    candidate URL is exhausted and [call_model] returns the error variant
    ([ok] is [False]) whose message is the last diagnostic stored in
    [last_err], after the prefix ["Failed to contact model. Last error: "]. *)
Theorem call_model_failure MODEL_HOST net prompt max_tokens stop temperature messages :
  no_200 (fst (call_model MODEL_HOST net prompt max_tokens stop temperature messages)) →
  ∃ d,
    last_diagnostic (fst (call_model MODEL_HOST net prompt max_tokens stop temperature messages))
      = Some d
    ∧ snd (call_model MODEL_HOST net prompt max_tokens stop temperature messages)
      = Returns (false, PStr ("Failed to contact model. Last error: " +:+ d)).
Proof.
  intros Hno.
  destruct (call_model_cases MODEL_HOST net prompt max_tokens stop temperature messages)
    as (safe & st & _ & [(result & Hret & Hcall)|(d & Hrun & Hd & Hcall)]);
    rewrite Hcall in *; cbn [fst snd] in *.
  - exfalso. destruct Hret as (pre' & url' & p' & r' & Htr' & _ & H200 & _).
    unfold no_200 in Hno. rewrite Htr', Forall_app, Forall_singleton in Hno.
    destruct Hno as [_ Hno]. cbn in Hno. rewrite H200 in Hno. discriminate.
  - exists d. split; [|reflexivity].
    destruct Hrun as [_ <- _]. exact Hd.
Qed.

(** C9.  Every completion-shape request of a call (a payload with the key
    [inputs]) carries the prompt argument as it was given, with
    [max_new_tokens] and [temperature], and nothing else: no [messages], so
    the trimmed conversation history is not in it. *)
Theorem call_model_inputs_payload
    MODEL_HOST net prompt max_tokens stop temperature messages url payload o :
  In (Post url payload o)
     (fst (call_model MODEL_HOST net prompt max_tokens stop temperature messages)) →
  is_Some (field "inputs" payload) →
  payload = PDict [ ("inputs", prompt);
                    ("parameters", PDict [ ("max_new_tokens", PInt max_tokens);
                                           ("temperature", temperature) ]) ]
  ∧ field "messages" payload = None.
Proof.
  intros Hin Hkey.
  assert (Hsent : ∃ safe, sent_by_call prompt max_tokens temperature safe (Post url payload o)).
  { destruct (call_model_cases MODEL_HOST net prompt max_tokens stop temperature messages)
      as (safe & st & _ & [(result & Hret & Hcall)|(d & Hrun & _ & Hcall)]);
      rewrite Hcall in Hin; cbn [fst snd] in Hin; exists safe.
    - destruct Hret as (_ & _ & _ & _ & _ & _ & _ & _ & Hall).
      rewrite Forall_forall in Hall. apply Hall, list_elem_of_In, Hin.
    - destruct Hrun as [_ _ Hall].
      rewrite Forall_forall in Hall. apply Hall, list_elem_of_In, Hin. }
  destruct Hsent as (safe & [->| ->]).
  - destruct Hkey as [x Hx]. discriminate.
  - split; reflexivity.
Qed.

(** C10.  The [stop] parameter has no effect: two calls that differ only in
    [stop] send the same requests and return the same result. *)
Theorem call_model_ignores_stop
    MODEL_HOST net prompt max_tokens stop stop' temperature messages :
  call_model MODEL_HOST net prompt max_tokens stop temperature messages
  = call_model MODEL_HOST net prompt max_tokens stop' temperature messages.
Proof. reflexivity. Qed.

Lemma recoverable_status r :
  status_in recoverable r = true →
  (status_code r =? 200) = false ∧ (status_code r =? 404) = false.
Proof.
  unfold status_in, recoverable. intros H.
  split; apply Z.eqb_neq; intros E; rewrite E in H; discriminate.
Qed.

Lemma attempt_body_recoverable net prompt max_tokens temperature safe_messages url attempt st r :
  net (trace st) url (chat_payload safe_messages max_tokens temperature) = Answers r →
  status_in recoverable r = true →
  attempt_body net prompt max_tokens temperature safe_messages url attempt st
  = ({| trace := trace st ++ [ Post url (chat_payload safe_messages max_tokens temperature) (Answers r);
                               Diagnostic (returned_diagnostic url r);
                               Sleep (0.6 * float_of_int (attempt + 1)) ];
        last_err := Some (returned_diagnostic url r) |},
     Continue).
Proof.
  intros Hnet Hrec. destruct (recoverable_status r Hrec) as [H200 H404].
  unfold attempt_body, post. rewrite Hnet, H200, H404, Hrec.
  unfold sleep, set_last_err, log. cbn. rewrite <- !app_assoc. reflexivity.
Qed.

(** The loop over a list of candidates in two parts. *)
Lemma for_url_app net prompt max_tokens temperature safe_messages urls urls' st :
  for_url net prompt max_tokens temperature safe_messages (urls ++ urls') st =
    match for_url net prompt max_tokens temperature safe_messages urls st with
    | (st', Some result) => (st', Some result)
    | (st', None) => for_url net prompt max_tokens temperature safe_messages urls' st'
    end.
Proof.
  revert st. induction urls as [|url urls IH]; intros st; cbn [for_url app]; [reflexivity|].
  destruct (for_attempt net prompt max_tokens temperature safe_messages url [0; 1; 2] st)
    as [st1 [result|]]; [reflexivity|]. apply IH.
Qed.

(** ** List objects and the chat route *)

Lemma alloc_fresh l (h : store) : h !! (alloc l h).2 = None.
Proof. unfold alloc. cbn. apply not_elem_of_dom, is_fresh. Qed.

Lemma alloc_lookup l (h : store) a :
  (alloc l h).1 !! a = if decide ((alloc l h).2 = a) then Some l else h !! a.
Proof. unfold alloc. cbn. apply lookup_insert. Qed.

Lemma alloc_old l (h : store) a : is_Some (h !! a) → (alloc l h).1 !! a = h !! a.
Proof.
  intros Ha. rewrite alloc_lookup. destruct (decide _) as [<-|]; [|reflexivity].
  rewrite alloc_fresh in Ha. destruct Ha; discriminate.
Qed.

Lemma deref_alloc l (h : store) : deref (alloc l h).1 (alloc l h).2 = l.
Proof. unfold deref. rewrite alloc_lookup, decide_True by reflexivity. reflexivity. Qed.

Lemma drop_oldest_step m l :
  drop_oldest (m :: l) =
    total ← total_chars (m :: l);
    if (MAX_TOTAL_CHARS <? total) && (1 <? Z.of_nat (length (m :: l)))
    then drop_oldest l else Returns (m :: l).
Proof. reflexivity. Qed.

(** The loop on the list object does what the loop on the list does, and
    changes no other list. *)
Lemma while_pop_spec fuel msgs (h : store) l :
  h !! msgs = Some l → (length l ≤ fuel)%nat →
  while_pop fuel msgs h = (l' ← drop_oldest l; Returns (<[msgs := l']> h)).
Proof.
  revert h l. induction fuel as [|fuel IH]; intros h l Hl Hlen.
  - destruct l; [|cbn in Hlen; lia].
    cbn. unfold deref. rewrite Hl. cbn. rewrite insert_id by exact Hl. reflexivity.
  - cbn [while_pop]. unfold deref. rewrite Hl. cbn [default from_option id].
    destruct l as [|m l].
    + cbn. rewrite insert_id by exact Hl. reflexivity.
    + rewrite drop_oldest_step.
      destruct (total_chars (m :: l)) as [t|]; [|reflexivity]. cbn [mbind exc_bind].
      destruct ((MAX_TOTAL_CHARS <? t) && (1 <? Z.of_nat (length (m :: l)))).
      * rewrite (IH (pop0 msgs h) l).
        -- destruct (drop_oldest l) as [l'|]; [|reflexivity]. cbn.
           unfold pop0. f_equal. apply map_eq. intros a.
           rewrite !lookup_insert. destruct (decide (msgs = a)); [reflexivity|].
           rewrite lookup_alter_ne by assumption. reflexivity.
        -- unfold pop0. rewrite lookup_alter_eq, Hl. reflexivity.
        -- cbn in Hlen. lia.
      * cbn. rewrite insert_id by exact Hl. reflexivity.
Qed.

(** [trim_messages] on list objects: two new lists when the input is not
    empty, the second of which holds the trimmed messages and is returned;
    the input list itself when it is empty. *)
Lemma trim_messages_st_spec messages (h : store) :
  trim_messages_st messages h =
    match deref h messages with
    | [] => Returns (h, messages)
    | _ =>
        out ← trim_messages (deref h messages);
        let h1 := (alloc (slice_from (- MAX_MESSAGES) (deref h messages)) h).1 in
        Returns (<[(alloc out h1).2 := out]> h1, (alloc out h1).2)
    end.
Proof.
  unfold trim_messages_st, trim_messages.
  destruct (deref h messages) as [|m ms] eqn:E; [reflexivity|].
  set (s := slice_from (- MAX_MESSAGES) (m :: ms)).
  destruct (alloc s h) as [h1 a1] eqn:E1.
  assert (Hd : deref h1 a1 = s).
  { pose proof (deref_alloc s h) as H. rewrite E1 in H. exact H. }
  rewrite Hd. cbn [fst].
  destruct (comprehension trim_msg s) as [l|]; [|reflexivity]. cbn [mbind exc_bind].
  assert (Ha : ∀ x, (alloc x h1).2 = fresh (dom h1)) by reflexivity.
  destruct (alloc l h1) as [h2 a2] eqn:E2.
  assert (E2' : h2 = <[a2 := l]> h1 ∧ a2 = fresh (dom h1)).
  { unfold alloc in E2. injection E2 as <- <-. auto. }
  destruct E2' as [-> ->].
  rewrite (while_pop_spec _ _ _ l); [|apply lookup_insert_eq|reflexivity].
  destruct (drop_oldest l) as [l'|]; [|reflexivity]. cbn.
  rewrite insert_insert_eq. reflexivity.
Qed.

(** [trim_messages] changes no list that existed before the call; what it
    returns holds the trimmed messages, and is a new list object whenever the
    input is not empty. *)
Lemma trim_messages_st_frame messages (h h' : store) r :
  trim_messages_st messages h = Returns (h', r) →
  (∀ a, is_Some (h !! a) → h' !! a = h !! a)
  ∧ trim_messages (deref h messages) = Returns (deref h' r)
  ∧ (deref h messages ≠ [] → h !! r = None).
Proof.
  rewrite trim_messages_st_spec.
  destruct (deref h messages) as [|m ms] eqn:E.
  - intros [= <- <-]. rewrite E. repeat split; auto. congruence.
  - set (s := slice_from (- MAX_MESSAGES) (m :: ms)).
    destruct (trim_messages (m :: ms)) as [out|]; [|discriminate].
    cbn [mbind exc_bind]. cbv zeta.
    set (h1 := (alloc s h).1). set (a2 := (alloc out h1).2).
    assert (Hfresh : h1 !! a2 = None) by apply alloc_fresh.
    assert (Hold : ∀ a, is_Some (h !! a) → h1 !! a = h !! a) by (intros a; apply alloc_old).
    clearbody h1 a2. intros [= <- <-].
    repeat split.
    + intros a Ha. rewrite lookup_insert_ne; [apply Hold, Ha|].
      intros Heq. pose proof (Hold _ Ha) as Hx. rewrite <- Heq in Hx, Ha.
      rewrite Hfresh in Hx. rewrite <- Hx in Ha. destruct Ha; discriminate.
    + unfold deref. rewrite lookup_insert_eq. reflexivity.
    + intros _. destruct (h !! a2) eqn:Ea; [|reflexivity].
      assert (Hx : h1 !! a2 = h !! a2) by (apply Hold; rewrite Ea; eauto).
      rewrite Hfresh, Ea in Hx. discriminate.
Qed.

Lemma append_lookup a x (h : store) l :
  h !! a = Some l → append a x h !! a = Some (l ++ [x]).
Proof. intros H. unfold append. rewrite lookup_alter_eq, H. reflexivity. Qed.

Lemma append_other a b x (h : store) : a ≠ b → append a x h !! b = h !! b.
Proof. intros H. unfold append. apply lookup_alter_ne, H. Qed.

(** The chat route and the stored history: the list of the session keeps
    all it held, followed by the user message with the prompt as it was
    given and, when the route answers, by the assistant message; the lists of
    the other sessions are as they were. *)
Lemma api_chat_history MODEL_HOST net e prompt session_id max_tokens w w0 sid s old :
  session_of e session_id w = Returns (w0, sid, s) →
  lists w0 !! sess_messages s = Some old →
  ∃ rest,
    lists (api_chat MODEL_HOST net e prompt session_id max_tokens w).1.1 !! sess_messages s
      = Some (old ++ user_message prompt (time_user e) :: rest)
    ∧ (∀ a, a ≠ sess_messages s → is_Some (lists w0 !! a) →
         lists (api_chat MODEL_HOST net e prompt session_id max_tokens w).1.1 !! a
         = lists w0 !! a)
    ∧ match (api_chat MODEL_HOST net e prompt session_id max_tokens w).2 with
      | Returns _ => ∃ assistant_text, rest = [assistant_message assistant_text (time_assistant e)]
      | Raises => rest = []
      end.
Proof.
  intros Hs Hold. unfold api_chat. rewrite Hs.
  set (a := sess_messages s) in *.
  set (u := user_message prompt (time_user e)).
  set (h1 := append a u (lists w0)).
  assert (H1 : h1 !! a = Some (old ++ [u])) by (apply append_lookup, Hold).
  assert (H1' : ∀ b, a ≠ b → h1 !! b = lists w0 !! b) by (intros b; apply append_other).
  cbn [lists with_lists].
  destruct (comprehension project (deref h1 a)) as [l|]; cbn [mbind exc_bind].
  2:{ exists []. cbn. rewrite <- H1. repeat split; auto. }
  destruct (alloc l h1) as [h2 mfm] eqn:E2.
  assert (H2 : ∀ b, is_Some (h1 !! b) → h2 !! b = h1 !! b).
  { intros b Hb. pose proof (alloc_old l h1 b Hb) as H. rewrite E2 in H. exact H. }
  destruct (trim_messages_st mfm h2) as [[h3 r]|] eqn:E3.
  2:{ exists []. cbn. rewrite <- H1. repeat split; auto. }
  destruct (trim_messages_st_frame _ _ _ _ E3) as (H3 & _ & _).
  assert (H13 : ∀ b, is_Some (h1 !! b) → h3 !! b = h1 !! b).
  { intros b Hb. rewrite H3, H2; auto. rewrite H2; auto. }
  destruct (call_model _ _ _ _ _ _ _) as [tr [[ok model_resp]|]]; cbn [fst snd lists with_lists].
  - eexists [_]. split; [|split; [|eauto]].
    + erewrite append_lookup; [|rewrite H13; eauto]. rewrite <- app_assoc. reflexivity.
    + intros b Hb Hb'. rewrite append_other by auto. rewrite H13, H1'; auto.
      rewrite H1'; auto.
  - exists []. split; [|split; [|reflexivity]].
    + rewrite H13; eauto.
    + intros b Hb Hb'. rewrite H13, H1'; auto. rewrite H1'; auto.
Qed.

(** The guard at the empty list, [if not messages: return messages], hands
    back the very list object it was given, where the docstring of the
    function says that it returns a new list.  No list is changed on this
    path either, and neither caller of the function passes an empty list. *)
Remark trim_messages_empty_returns_its_argument :
  let h : store := {[ 7%nat := [] ]} in
  trim_messages_st 7%nat h = Returns (h, 7%nat)
  ∧ is_Some (h !! 7%nat).
Proof. cbv zeta. split; [reflexivity|]. rewrite lookup_singleton_eq. eauto. Qed.

(** ** The theorems at concrete inputs *)

Lemma trim_messages_bounded_witness :
  forallb is_text three_messages = true
  ∧ ∃ out total,
      trim_messages three_messages = Returns out
      ∧ Z.of_nat (length out) ≤ MAX_MESSAGES
      ∧ Forall trimmed_text out
      ∧ total_chars out = Returns total
      ∧ (total ≤ MAX_TOTAL_CHARS ∨ length out = 1%nat)
      ∧ (three_messages ≠ [] → out ≠ []).
Proof. split; [reflexivity|]. apply trim_messages_bounded. reflexivity. Defined.

Lemma trim_messages_idempotent_witness :
  forallb is_text three_messages = true
  ∧ ∃ out, trim_messages three_messages = Returns out ∧ trim_messages out = Returns out.
Proof. split; [reflexivity|]. apply trim_messages_idempotent. reflexivity. Defined.

Lemma call_model_returns_on_200_witness :
  snd (call_model local_host (always 200 "{...}" (Some hi_response))
         (PStr "Hello") 5 PNone (PFloat "0.2") None)
  = Returns (true, PStr "hi").
Proof.
  destruct (call_model_returns_on_200 local_host (always 200 "{...}" (Some hi_response))
              (PStr "Hello") 5 PNone (PFloat "0.2") None
              [] "http://127.0.0.1:5000/v1/chat/completions"
              (chat_payload [[("role", PStr "user"); ("content", PStr "Hello")]] 5 (PFloat "0.2"))
              {| status_code := 200; text := "{...}"; json := Some hi_response |} [])
    as [_ H].
  - vm_compute. reflexivity.
  - reflexivity.
  - exact H.
Defined.

Lemma no_200_forallb tr : forallb (fun e => negb (is_200 e)) tr = true → no_200 tr.
Proof.
  intros H. apply Forall_forall. intros e He.
  rewrite forallb_forall in H. apply list_elem_of_In, H in He.
  destruct (is_200 e); [discriminate|reflexivity].
Qed.

Lemma call_model_failure_witness :
  ∃ d,
    last_diagnostic (fst (call_model local_host (always 404 "Not Found" None)
                            (PStr "Hello") 5 PNone (PFloat "0.2") None))
      = Some d
    ∧ snd (call_model local_host (always 404 "Not Found" None)
             (PStr "Hello") 5 PNone (PFloat "0.2") None)
      = Returns (false, PStr ("Failed to contact model. Last error: " +:+ d)).
Proof. apply call_model_failure. apply no_200_forallb. vm_compute. reflexivity. Defined.

Lemma call_model_inputs_payload_witness :
  inputs_payload (PStr "Hello") 5 (PFloat "0.2")
  = PDict [ ("inputs", PStr "Hello");
            ("parameters", PDict [ ("max_new_tokens", PInt 5);
                                   ("temperature", PFloat "0.2") ]) ]
  ∧ field "messages" (inputs_payload (PStr "Hello") 5 (PFloat "0.2")) = None.
Proof.
  apply (call_model_inputs_payload local_host (always 401 "Unauthorized" None)
           (PStr "Hello") 5 PNone (PFloat "0.2") (Some three_messages)
           "http://127.0.0.1:5000/v1/chat/completions"
           (inputs_payload (PStr "Hello") 5 (PFloat "0.2"))
           (Answers {| status_code := 401; text := "Unauthorized"; json := None |})).
  - vm_compute. right. left. reflexivity.
  - eexists. reflexivity.
Defined.

(** The chat payload of a call with messages carries the trimmed list. *)
Lemma call_model_chat_payload_trimmed
    MODEL_HOST net prompt max_tokens stop temperature m ms url payload o msgs :
  In (Post url payload o)
     (fst (call_model MODEL_HOST net prompt max_tokens stop temperature (Some (m :: ms)))) →
  field "messages" payload = Some msgs →
  ∃ out total,
    msgs = PList (map PDict out)
    ∧ Z.of_nat (length out) ≤ MAX_MESSAGES
    ∧ Forall trimmed_text out
    ∧ total_chars out = Returns total
    ∧ (total ≤ MAX_TOTAL_CHARS ∨ length out = 1%nat).
Proof.
  intros Hin Hmsgs.
  set (projected := map (fun m => [ ("role", dict_get m "role" (PStr "user"));
                                    ("content", PStr (py_str (dict_get m "content" (PStr "")))) ])
                        (m :: ms)).
  assert (Htext : forallb is_text projected = true).
  { apply forallb_forall. intros x (y & <- & _)%in_map_iff. reflexivity. }
  destruct (trim_messages_returns projected Htext) as (out & Hout & Htr).
  destruct (trim_messages_result projected out Hout) as (Hlen & _ & (t & Ht & Hcap) & Hne & _).
  assert (Hsafe : safe_messages_of prompt (Some (m :: ms)) = Returns out).
  { unfold safe_messages_of. fold projected. rewrite Hout. cbn.
    destruct out; [|reflexivity]. exfalso. apply Hne; [discriminate|reflexivity]. }
  destruct (call_model_cases MODEL_HOST net prompt max_tokens stop temperature (Some (m :: ms)))
    as (safe & st & Hsafe' & Hcases).
  rewrite Hsafe in Hsafe'. injection Hsafe' as <-.
  assert (Hsent : sent_by_call prompt max_tokens temperature out (Post url payload o)).
  { destruct Hcases as [(result & Hret & Hcall)|(d & Hrun & _ & Hcall)];
      rewrite Hcall in Hin; cbn [fst snd] in Hin.
    - destruct Hret as (_ & _ & _ & _ & _ & _ & _ & _ & Hall).
      rewrite Forall_forall in Hall. apply Hall, list_elem_of_In, Hin.
    - destruct Hrun as [_ _ Hall].
      rewrite Forall_forall in Hall. apply Hall, list_elem_of_In, Hin. }
  destruct Hsent as [-> | ->]; [|discriminate].
  injection Hmsgs as <-. exists out, t. auto 10.
Qed.

(** ** The functions at work *)

(** Thirty messages of 3001 characters each: the last 24 are kept, each is
    cut to its last 3000 characters, and the oldest are dropped until the
    total is within 14000. *)
Example trim_messages_long_history :
  match trim_messages (repeat [("role", PStr "user"); ("content", PStr (str_repeat "a" 3001))] 30) with
  | Returns out =>
      out = repeat [("role", PStr "user"); ("content", PStr (str_repeat "a" 3000))] 4
  | Raises => False
  end.
Proof. vm_compute. reflexivity. Qed.

(** A content that is not text makes [len] raise. *)
Example trim_messages_number_content :
  trim_messages [[("role", PStr "user"); ("content", PInt 5)]] = Raises.
Proof. reflexivity. Qed.

(** Every endpoint busy: fifteen requests, then the failure with the last
    diagnostic. *)
Example call_model_all_busy :
  let call := call_model local_host (always 503 "busy" None)
                (PStr "Hello") 5 PNone (PFloat "0.2") None in
  length (List.filter (fun e => match e with Post _ _ _ => true | _ => false end) (fst call)) = 15%nat
  ∧ snd call
    = Returns (false,
               PStr "Failed to contact model. Last error: http://127.0.0.1:5000/v1/complete returned 503: busy").
Proof. vm_compute. split; reflexivity. Qed.

(** A server that only understands the completion shape: the second request
    to the first endpoint succeeds. *)
Example call_model_inputs_fallback :
  call_model local_host
    (fun _ _ payload =>
       if is_Some_b (field "inputs" payload)
       then Answers {| status_code := 200; text := "ok"; json := Some (PDict [("text", PStr "pong")]) |}
       else Answers {| status_code := 422; text := "bad shape"; json := None |})
    (PStr "ping") 5 PNone (PFloat "0.2") None
  = ([ Post "http://127.0.0.1:5000/v1/chat/completions"
         (chat_payload [[("role", PStr "user"); ("content", PStr "ping")]] 5 (PFloat "0.2"))
         (Answers {| status_code := 422; text := "bad shape"; json := None |});
       Post "http://127.0.0.1:5000/v1/chat/completions"
         (inputs_payload (PStr "ping") 5 (PFloat "0.2"))
         (Answers {| status_code := 200; text := "ok"; json := Some (PDict [("text", PStr "pong")]) |}) ],
     Returns (true, PStr "pong")).
Proof. vm_compute. reflexivity. Qed.

(** A first chat request without a session id: a session is created, and its
    history holds the prompt and the reply in full. *)
Example api_chat_new_session :
  let '(w, tr, answer) :=
    api_chat local_host (always 200 "raw reply" None)
      {| uuid4 := "6f1c"; time_created := PFloat "1.0";
         time_user := PFloat "2.0"; time_assistant := PFloat "3.0" |}
      (PStr "Hello") PNone 256 {| lists := ∅; sessions := ∅ |} in
  answer = Returns (PDict [("session_id", PStr "6f1c"); ("response", PStr "raw reply")])
  ∧ (s ← sessions w !! "6f1c"; lists w !! sess_messages s)
    = Some [ [("role", PStr "user"); ("content", PStr "Hello"); ("time", PFloat "2.0")];
             [("role", PStr "assistant"); ("content", PStr "raw reply"); ("time", PFloat "3.0")] ].
Proof. vm_compute. split; reflexivity. Qed.

(** * Further properties *)

(** ** Requests and sleeps of a call *)

Lemma slept_app tr tr' : (slept (tr ++ tr') == slept tr + slept tr')%Q.
Proof.
  induction tr as [|[| |q] tr IH]; cbn [slept app]; try rewrite IH; lra.
Qed.
Lemma n_posts_app tr tr' : n_posts (tr ++ tr') = (n_posts tr + n_posts tr')%nat.
Proof. unfold n_posts. rewrite List.filter_app, length_app. reflexivity. Qed.

Lemma sent_to_mono urls urls' e : (∀ u, In u urls → In u urls') → sent_to urls e → sent_to urls' e.
Proof. destruct e; cbn; auto. Qed.

Lemma attempt_numbers_nonneg attempts :
  Forall (fun attempt => 0 ≤ attempt) attempts → (0 <= attempt_numbers attempts)%Q.
Proof.
  induction 1 as [|attempt attempts Hatt _ IH]; cbn [attempt_numbers]; [lra|].
  assert (0 <= inject_Z (attempt + 1))%Q by (unfold Qle; cbn; lia). lra.
Qed.

Section AdapterBounds.

Variable net : network.
Variables (prompt : pyval) (max_tokens : Z) (temperature : pyval).
Variable safe_messages : list dict.

(** What one pass through the body of the attempt loop adds to the trace;
    the double that is slept is never above the exact product. *)
Lemma attempt_body_events url attempt st :
  attempt = 0 ∨ attempt = 1 ∨ attempt = 2 →
  ∃ evs,
    trace (fst (attempt_body net prompt max_tokens temperature safe_messages url attempt st))
      = trace st ++ evs
    ∧ Forall (sent_to [url]) evs
    ∧ (n_posts evs ≤ 2)%nat
    ∧ (slept evs <= 0.6 * inject_Z (attempt + 1))%Q.
Proof.
  intros Hatt.
  unfold attempt_body, post, on_exception, sleep, set_last_err, log. cbn [trace fst snd].
  destruct (net (trace st) url _) as [r|msg]; cbn [trace fst snd].
  2:{ eexists. rewrite <- !app_assoc. split; [reflexivity|].
      split; [cbn; repeat constructor; auto|]. split; [cbn; lia|].
      destruct Hatt as [->|[->| ->]]; vm_compute; discriminate. }
  destruct (status_code r =? 200); cbn [trace fst snd].
  { eexists. split; [reflexivity|]. split; [cbn; repeat constructor; auto|]. split; [cbn; lia|].
    destruct Hatt as [->|[->| ->]]; vm_compute; discriminate. }
  destruct (status_code r =? 404); cbn [trace fst snd].
  { eexists. rewrite <- !app_assoc. split; [reflexivity|].
    split; [cbn; repeat constructor; auto|]. split; [cbn; lia|].
    destruct Hatt as [->|[->| ->]]; vm_compute; discriminate. }
  destruct (status_in recoverable r); cbn [trace fst snd].
  { eexists. rewrite <- !app_assoc. split; [reflexivity|].
    split; [cbn; repeat constructor; auto|]. split; [cbn; lia|].
    destruct Hatt as [->|[->| ->]]; vm_compute; discriminate. }
  destruct (net _ url _) as [r2|msg2]; cbn [trace fst snd].
  2:{ eexists. rewrite <- !app_assoc. split; [reflexivity|].
      split; [cbn; repeat constructor; auto|]. split; [cbn; lia|].
      destruct Hatt as [->|[->| ->]]; vm_compute; discriminate. }
  destruct (status_code r2 =? 200); cbn [trace fst snd].
  { eexists. rewrite <- !app_assoc. split; [reflexivity|].
    split; [cbn; repeat constructor; auto|]. split; [cbn; lia|].
    destruct Hatt as [->|[->| ->]]; vm_compute; discriminate. }
  destruct (status_code r2 =? 404); cbn [trace fst snd].
  all: eexists; rewrite <- !app_assoc; (split; [reflexivity|]);
    (split; [cbn; repeat constructor; auto|]); (split; [cbn; lia|]);
    destruct Hatt as [->|[->| ->]]; vm_compute; discriminate.
Qed.

Lemma for_attempt_events url attempts st :
  Forall (fun attempt => attempt = 0 ∨ attempt = 1 ∨ attempt = 2) attempts →
  ∃ evs,
    trace (fst (for_attempt net prompt max_tokens temperature safe_messages url attempts st))
      = trace st ++ evs
    ∧ Forall (sent_to [url]) evs
    ∧ (n_posts evs ≤ 2 * length attempts)%nat
    ∧ (slept evs <= 0.6 * attempt_numbers attempts)%Q.
Proof.
  intros Hall. revert st. induction Hall as [|attempt attempts Hatt Hrest IH]; intros st.
  - exists []. cbn. rewrite app_nil_r. repeat split; auto. lra.
  - cbn [for_attempt].
    assert (Hpos : (0 <= attempt_numbers attempts)%Q).
    { apply attempt_numbers_nonneg. eapply Forall_impl; [exact Hrest|]. cbn. lia. }
    destruct (attempt_body_events url attempt st Hatt) as (evs & Htr & Hto & Hn & Hs).
    destruct (attempt_body net prompt max_tokens temperature safe_messages url attempt st)
      as [st1 [result| |]]; cbn [fst snd] in *.
    1,2: exists evs; split; [exact Htr|]; split; [exact Hto|]; split; [cbn; lia|];
         cbn [attempt_numbers]; lra.
    destruct (IH st1) as (evs' & Htr' & Hto' & Hn' & Hs').
    exists (evs ++ evs'). rewrite Htr', Htr, <- app_assoc. split; [reflexivity|].
    split; [apply Forall_app; auto|]. rewrite n_posts_app, slept_app.
    split; [cbn; lia|]. cbn [attempt_numbers]. lra.
Qed.

Lemma for_url_events urls st :
  ∃ evs,
    trace (fst (for_url net prompt max_tokens temperature safe_messages urls st))
      = trace st ++ evs
    ∧ Forall (sent_to urls) evs
    ∧ (n_posts evs ≤ 6 * length urls)%nat
    ∧ (slept evs <= 3.6 * inject_Z (Z.of_nat (length urls)))%Q.
Proof.
  revert st. induction urls as [|url urls IH]; intros st.
  - exists []. cbn. rewrite app_nil_r. repeat split; auto. vm_compute. discriminate.
  - cbn [for_url].
    destruct (for_attempt_events url [0; 1; 2] st) as (evs & Htr & Hto & Hn & Hs).
    { constructor; [auto|constructor; [auto|constructor; [auto|constructor]]]. }
    assert (Hlen : (inject_Z (Z.of_nat (length (url :: urls)))
                    == 1 + inject_Z (Z.of_nat (length urls)))%Q).
    { cbn [length]. rewrite Nat2Z.inj_succ. unfold Z.succ. rewrite inject_Z_plus.
      change (inject_Z 1) with 1%Q. ring. }
    assert (Hpos : (0 <= inject_Z (Z.of_nat (length urls)))%Q) by (unfold Qle; cbn; lia).
    assert (Hs' : (slept evs <= 3.6)%Q).
    { eapply Qle_trans; [exact Hs|]. vm_compute. discriminate. }
    assert (Hto' : Forall (sent_to (url :: urls)) evs).
    { eapply Forall_impl; [exact Hto|]. intros e. apply sent_to_mono.
      intros u [->|[]]. left. reflexivity. }
    destruct (for_attempt net prompt max_tokens temperature safe_messages url [0; 1; 2] st)
      as [st1 [result|]]; cbn [fst snd] in *.
    + exists evs. split; [exact Htr|]. split; [exact Hto'|]. split; [cbn in *; lia|].
      rewrite Hlen. lra.
    + destruct (IH st1) as (evs2 & Htr2 & Hto2 & Hn2 & Hs2).
      exists (evs ++ evs2). rewrite Htr2, Htr, <- app_assoc. split; [reflexivity|].
      split.
      { apply Forall_app. split; [exact Hto'|]. eapply Forall_impl; [exact Hto2|].
        intros e. apply sent_to_mono. intros u Hu. right. exact Hu. }
      rewrite n_posts_app, slept_app. split; [cbn in *; lia|]. rewrite Hlen. lra.
Qed.

End AdapterBounds.

(** X1.  A call never sends more than 30 requests, never sleeps more than 18
    seconds in all, and sends every request to one of the five candidate
    URLs. *)
Theorem call_model_budget MODEL_HOST net prompt max_tokens stop temperature messages :
  (n_posts (fst (call_model MODEL_HOST net prompt max_tokens stop temperature messages)) ≤ 30)%nat
  ∧ (slept (fst (call_model MODEL_HOST net prompt max_tokens stop temperature messages)) <= 18)%Q
  ∧ Forall (sent_to (MODEL_URLS MODEL_HOST))
      (fst (call_model MODEL_HOST net prompt max_tokens stop temperature messages)).
Proof.
  unfold call_model.
  destruct (safe_messages_of prompt messages) as [safe|].
  2:{ cbn. repeat split; [lia|lra|constructor]. }
  destruct (for_url_events net prompt max_tokens temperature safe (MODEL_URLS MODEL_HOST)
              {| trace := []; last_err := None |}) as (evs & Htr & Hto & Hn & Hs).
  cbn [trace app] in Htr.
  assert (Htrace : fst (after_loops (for_url net prompt max_tokens temperature safe
                                       (MODEL_URLS MODEL_HOST) {| trace := []; last_err := None |}))
                   = evs).
  { rewrite <- Htr. destruct (for_url _ _ _ _ _ _ _) as [st [result|]]; reflexivity. }
  rewrite Htrace. change (length (MODEL_URLS MODEL_HOST)) with 5%nat in *.
  split; [lia|]. split; [|exact Hto].
  eapply Qle_trans; [exact Hs|]. vm_compute. discriminate.
Qed.

Lemma call_model_at MODEL_HOST net prompt max_tokens stop temperature messages
    safe_messages before url after st :
  reaches MODEL_HOST net prompt max_tokens temperature messages safe_messages before url after st →
  call_model MODEL_HOST net prompt max_tokens stop temperature messages
  = after_loops (for_url net prompt max_tokens temperature safe_messages (url :: after) st).
Proof.
  intros (Hsafe & Hurls & Hbefore).
  unfold call_model. rewrite Hsafe, Hurls, for_url_app, Hbefore. reflexivity.
Qed.

Lemma attempt_body_404 net prompt max_tokens temperature safe_messages url attempt st r :
  net (trace st) url (chat_payload safe_messages max_tokens temperature) = Answers r →
  status_code r = 404 →
  attempt_body net prompt max_tokens temperature safe_messages url attempt st
  = ({| trace := trace st ++ [ Post url (chat_payload safe_messages max_tokens temperature) (Answers r);
                               Diagnostic (url +:+ " returned 404 Not Found") ];
        last_err := Some (url +:+ " returned 404 Not Found") |},
     Break).
Proof.
  intros Hnet H404. unfold attempt_body, post. rewrite Hnet, H404.
  unfold set_last_err, log. cbn. rewrite <- !app_assoc. reflexivity.
Qed.

Lemma attempt_body_fails net prompt max_tokens temperature safe_messages url attempt st msg :
  net (trace st) url (chat_payload safe_messages max_tokens temperature) = Fails msg →
  attempt_body net prompt max_tokens temperature safe_messages url attempt st
  = ({| trace := trace st ++ [ Post url (chat_payload safe_messages max_tokens temperature) (Fails msg);
                               Diagnostic msg;
                               Sleep (0.5 * float_of_int (attempt + 1)) ];
        last_err := Some msg |},
     Continue).
Proof.
  intros Hnet. unfold attempt_body, post, on_exception. rewrite Hnet.
  unfold sleep, set_last_err, log. cbn [trace last_err fst snd]. rewrite <- !app_assoc.
  reflexivity.
Qed.

Lemma other_status_spec r :
  other_status r = true →
  (status_code r =? 200) = false ∧ (status_code r =? 404) = false
  ∧ status_in recoverable r = false.
Proof.
  unfold other_status. intros H.
  apply andb_true_iff in H as [H H3]. apply andb_true_iff in H as [H1 H2].
  apply negb_true_iff in H1, H2, H3. auto.
Qed.

Lemma attempt_body_other net prompt max_tokens temperature safe_messages url attempt st r r2 :
  net (trace st) url (chat_payload safe_messages max_tokens temperature) = Answers r →
  other_status r = true →
  net (trace st ++ [Post url (chat_payload safe_messages max_tokens temperature) (Answers r)])
      url (inputs_payload prompt max_tokens temperature) = Answers r2 →
  (status_code r2 =? 200) = false →
  attempt_body net prompt max_tokens temperature safe_messages url attempt st
  = (let st2 :=
       {| trace := trace st ++
            [ Post url (chat_payload safe_messages max_tokens temperature) (Answers r);
              Post url (inputs_payload prompt max_tokens temperature) (Answers r2) ];
          last_err := last_err st |} in
     if status_code r2 =? 404
     then (set_last_err (url +:+ " (inputs) returned 404") st2, Break)
     else (set_last_err (returned_diagnostic url r) st2, Continue)).
Proof.
  intros Hnet Hother Hnet2 H200.
  destruct (other_status_spec r Hother) as (E200 & E404 & Erec).
  unfold attempt_body, post. rewrite Hnet, E200, E404, Erec. cbn [log trace last_err].
  rewrite Hnet2, H200. unfold set_last_err, log. cbn.
  destruct (status_code r2 =? 404); cbn; rewrite <- ?app_assoc; reflexivity.
Qed.

Lemma attempt_body_other_other net prompt max_tokens temperature safe_messages url attempt st r r2 :
  net (trace st) url (chat_payload safe_messages max_tokens temperature) = Answers r →
  other_status r = true →
  net (trace st ++ [Post url (chat_payload safe_messages max_tokens temperature) (Answers r)])
      url (inputs_payload prompt max_tokens temperature) = Answers r2 →
  (status_code r2 =? 200) = false →
  (status_code r2 =? 404) = false →
  attempt_body net prompt max_tokens temperature safe_messages url attempt st
  = ({| trace := trace st ++
          [ Post url (chat_payload safe_messages max_tokens temperature) (Answers r);
            Post url (inputs_payload prompt max_tokens temperature) (Answers r2);
            Diagnostic (returned_diagnostic url r) ];
        last_err := Some (returned_diagnostic url r) |},
     Continue).
Proof.
  intros Hnet Hother Hnet2 H200 H404.
  rewrite (attempt_body_other _ _ _ _ _ _ _ _ _ _ Hnet Hother Hnet2 H200).
  rewrite H404. cbv zeta iota.
  unfold set_last_err, log. cbn [trace last_err]. rewrite <- app_assoc. reflexivity.
Qed.

(** ** A candidate that is given up *)

Lemma str_app_inv_head (s a b : string) : s +:+ a = s +:+ b → a = b.
Proof. induction s as [|c s IH]; cbn; [auto|]. intros [= H]. auto. Qed.

(** The five candidate URLs are pairwise different. *)
Lemma MODEL_URLS_NoDup MODEL_HOST : NoDup (MODEL_URLS MODEL_HOST).
Proof.
  unfold MODEL_URLS, MODEL_ENDPOINTS. cbn [map].
  repeat (apply NoDup_cons_2;
          [rewrite ?not_elem_of_cons; repeat split;
           try (intros H%str_app_inv_head; discriminate H); apply not_elem_of_nil|]).
  apply NoDup_nil_2.
Qed.

Lemma reaches_apart MODEL_HOST net prompt max_tokens temperature messages
    safe_messages before url after st :
  reaches MODEL_HOST net prompt max_tokens temperature messages safe_messages before url after st →
  ¬ In url before ∧ ¬ In url after.
Proof.
  intros (_ & Hurls & _). pose proof (MODEL_URLS_NoDup MODEL_HOST) as Hnd.
  rewrite Hurls in Hnd. apply NoDup_app in Hnd as (_ & Hba & Hnd).
  apply NoDup_cons in Hnd as [Hnot _]. split.
  - intros Hin%list_elem_of_In. apply (Hba _ Hin). left.
  - intros Hin%list_elem_of_In. contradiction.
Qed.

Lemma sent_to_not_to urls url e : ¬ In url urls → sent_to urls e → not_to url e.
Proof. destruct e; cbn; auto. intros Hn Hin ->. auto. Qed.

Lemma fst_after_loops r : fst (after_loops r) = trace (fst r).
Proof. destruct r as [st [result|]]; reflexivity. Qed.

Section GivenUp.

Variable net : network.
Variables (prompt : pyval) (max_tokens : Z) (temperature : pyval).
Variable safe_messages : list dict.

Let chat := chat_payload safe_messages max_tokens temperature.

(** Every pass through the body of the attempt loop begins with the
    chat-shape request. *)
Lemma attempt_body_first url attempt st :
  ∃ o evs,
    trace (fst (attempt_body net prompt max_tokens temperature safe_messages url attempt st))
    = trace st ++ Post url chat o :: evs.
Proof.
  unfold attempt_body, post, on_exception, sleep, set_last_err, log. cbn [trace fst snd].
  fold chat. exists (net (trace st) url chat).
  destruct (net (trace st) url chat) as [r|msg]; cbn [trace fst snd].
  2:{ eexists. rewrite <- !app_assoc. reflexivity. }
  destruct (status_code r =? 200); cbn [trace fst snd].
  { exists []. reflexivity. }
  destruct (status_code r =? 404); cbn [trace fst snd].
  { eexists. rewrite <- !app_assoc. reflexivity. }
  destruct (status_in recoverable r); cbn [trace fst snd].
  { eexists. rewrite <- !app_assoc. reflexivity. }
  destruct (net _ url _) as [r2|msg2]; cbn [trace fst snd].
  2:{ eexists. rewrite <- !app_assoc. reflexivity. }
  destruct (status_code r2 =? 200); cbn [trace fst snd].
  { eexists. rewrite <- !app_assoc. reflexivity. }
  destruct (status_code r2 =? 404); cbn [trace fst snd];
    eexists; rewrite <- !app_assoc; reflexivity.
Qed.

Lemma for_attempt_extends url attempts st :
  ∃ evs,
    trace (fst (for_attempt net prompt max_tokens temperature safe_messages url attempts st))
    = trace st ++ evs.
Proof.
  revert st. induction attempts as [|attempt attempts IH]; intros st.
  - exists []. cbn. rewrite app_nil_r. reflexivity.
  - cbn [for_attempt].
    destruct (attempt_body_first url attempt st) as (o & evs & Htr).
    destruct (attempt_body net prompt max_tokens temperature safe_messages url attempt st)
      as [st1 [result| |]]; cbn [fst snd] in *.
    1,2: eexists; exact Htr.
    destruct (IH st1) as (evs' & Htr'). rewrite Htr', Htr, <- app_assoc. eauto.
Qed.

(** The loop over the candidates begins with the chat-shape request to the
    first of them. *)
Lemma for_url_first next urls st :
  ∃ o evs,
    trace (fst (for_url net prompt max_tokens temperature safe_messages (next :: urls) st))
    = trace st ++ Post next chat o :: evs.
Proof.
  cbn [for_url].
  change (for_attempt net prompt max_tokens temperature safe_messages next [0; 1; 2] st)
    with (match attempt_body net prompt max_tokens temperature safe_messages next 0 st with
          | (st', Done result) => (st', Some result)
          | (st', Break) => (st', None)
          | (st', Continue) =>
              for_attempt net prompt max_tokens temperature safe_messages next [1; 2] st'
          end).
  destruct (attempt_body_first next 0 st) as (o & evs & Htr). exists o.
  destruct (attempt_body net prompt max_tokens temperature safe_messages next 0 st)
    as [st1 [result| |]]; cbn [fst snd] in *.
  - eexists. exact Htr.
  - destruct (for_url_events net prompt max_tokens temperature safe_messages urls st1)
      as (evs2 & Htr2 & _).
    rewrite Htr2, Htr, <- app_assoc. cbn [app]. eauto.
  - destruct (for_attempt_extends next [1; 2] st1) as (evs1 & Htr1).
    destruct (for_attempt net prompt max_tokens temperature safe_messages next [1; 2] st1)
      as [st2 [result|]]; cbn [fst snd] in *.
    + rewrite Htr1, Htr, <- app_assoc. cbn [app]. eauto.
    + destruct (for_url_events net prompt max_tokens temperature safe_messages urls st2)
        as (evs2 & Htr2 & _).
      rewrite Htr2, Htr1, Htr, <- !app_assoc. cbn [app]. eauto.
Qed.

(** A call that reaches a candidate and gives it up, having added the
    events [evs] to its trace and stored the diagnostic [d]: the trace of the
    call is what came before, then [evs], then what the remaining candidates
    add; no other request of the call goes to that candidate. *)
Lemma call_model_gives_up MODEL_HOST stop messages before url after st evs d :
  reaches MODEL_HOST net prompt max_tokens temperature messages safe_messages before url after st →
  for_attempt net prompt max_tokens temperature safe_messages url [0; 1; 2] st
  = ({| trace := trace st ++ evs; last_err := Some d |}, None) →
  ∃ rest,
    fst (call_model MODEL_HOST net prompt max_tokens stop temperature messages)
    = trace st ++ evs ++ rest
    ∧ Forall (not_to url) (trace st ++ rest)
    ∧ goes_on chat after d rest
        (snd (call_model MODEL_HOST net prompt max_tokens stop temperature messages)).
Proof.
  intros Hreach Hurl.
  destruct (reaches_apart _ _ _ _ _ _ _ _ _ _ _ Hreach) as [Hbefore Hafter].
  rewrite (call_model_at _ _ _ _ stop _ _ _ _ _ _ _ Hreach).
  cbn [for_url]. rewrite Hurl. rewrite fst_after_loops.
  set (st1 := {| trace := trace st ++ evs; last_err := Some d |}).
  destruct (for_url_events net prompt max_tokens temperature safe_messages after st1)
    as (rest & Htr & Hto & _).
  exists rest. split; [rewrite Htr; subst st1; cbn [trace]; rewrite <- app_assoc; reflexivity|].
  split.
  - apply Forall_app. split.
    + destruct Hreach as (_ & _ & Hst).
      destruct (for_url_events net prompt max_tokens temperature safe_messages before
                  {| trace := []; last_err := None |}) as (evs0 & Htr0 & Hto0 & _).
      rewrite Hst in Htr0. cbn [fst trace app] in Htr0. rewrite Htr0.
      eapply Forall_impl; [exact Hto0|]. intros e. apply sent_to_not_to, Hbefore.
    + eapply Forall_impl; [exact Hto|]. intros e. apply sent_to_not_to, Hafter.
  - split; [exact Hto|]. destruct after as [|next after'].
    + cbn [for_url fst] in Htr. cbn [for_url after_loops snd last_err format_last_err default
                                      from_option id].
      split; [|reflexivity].
      apply (f_equal length) in Htr. rewrite length_app in Htr.
      destruct rest; [reflexivity|cbn in Htr; lia].
    + destruct (for_url_first next after' st1) as (o & evs' & Htr').
      rewrite Htr in Htr'. apply app_inv_head in Htr'. eauto.
Qed.

(** Three attempts answered with a recoverable status. *)
Lemma for_attempt_recoverable url st r1 r2 r3 :
  let attempt1 := [Post url chat (Answers r1); Diagnostic (returned_diagnostic url r1); Sleep 0.6] in
  let attempt2 := [Post url chat (Answers r2); Diagnostic (returned_diagnostic url r2); Sleep 1.2] in
  let attempt3 := [Post url chat (Answers r3); Diagnostic (returned_diagnostic url r3);
                   Sleep 1.7999999999999998] in
  net (trace st) url chat = Answers r1 → status_in recoverable r1 = true →
  net (trace st ++ attempt1) url chat = Answers r2 → status_in recoverable r2 = true →
  net (trace st ++ attempt1 ++ attempt2) url chat = Answers r3 → status_in recoverable r3 = true →
  for_attempt net prompt max_tokens temperature safe_messages url [0; 1; 2] st
  = ({| trace := trace st ++ (attempt1 ++ attempt2 ++ attempt3);
        last_err := Some (returned_diagnostic url r3) |}, None).
Proof.
  intros attempt1 attempt2 attempt3 E1 H1 E2 H2 E3 H3.
  pose proof (attempt_body_recoverable net prompt max_tokens temperature safe_messages
                url 0 st r1 E1 H1) as A1.
  set (st1 := {| trace := _; last_err := _ |}) in A1.
  pose proof (attempt_body_recoverable net prompt max_tokens temperature safe_messages
                url 1 st1 r2 E2 H2) as A2.
  set (st2 := {| trace := _; last_err := _ |}) in A2.
  assert (E3' : net (trace st2) url chat = Answers r3).
  { subst st2 st1. cbn [trace]. rewrite <- app_assoc. exact E3. }
  pose proof (attempt_body_recoverable net prompt max_tokens temperature safe_messages
                url 2 st2 r3 E3' H3) as A3.
  cbn [for_attempt]. rewrite A1, A2, A3.
  subst st1 st2 attempt1 attempt2 attempt3. cbn [trace]. rewrite <- !app_assoc. reflexivity.
Qed.

(** Three attempts at which [requests.post] raises. *)
Lemma for_attempt_fails url st msg1 msg2 msg3 :
  let attempt1 := [Post url chat (Fails msg1); Diagnostic msg1; Sleep 0.5] in
  let attempt2 := [Post url chat (Fails msg2); Diagnostic msg2; Sleep 1] in
  let attempt3 := [Post url chat (Fails msg3); Diagnostic msg3; Sleep 1.5] in
  net (trace st) url chat = Fails msg1 →
  net (trace st ++ attempt1) url chat = Fails msg2 →
  net (trace st ++ attempt1 ++ attempt2) url chat = Fails msg3 →
  for_attempt net prompt max_tokens temperature safe_messages url [0; 1; 2] st
  = ({| trace := trace st ++ (attempt1 ++ attempt2 ++ attempt3); last_err := Some msg3 |}, None).
Proof.
  intros attempt1 attempt2 attempt3 E1 E2 E3.
  pose proof (attempt_body_fails net prompt max_tokens temperature safe_messages
                url 0 st msg1 E1) as A1.
  set (st1 := {| trace := _; last_err := _ |}) in A1.
  pose proof (attempt_body_fails net prompt max_tokens temperature safe_messages
                url 1 st1 msg2 E2) as A2.
  set (st2 := {| trace := _; last_err := _ |}) in A2.
  assert (E3' : net (trace st2) url chat = Fails msg3).
  { subst st2 st1. cbn [trace]. rewrite <- app_assoc. exact E3. }
  pose proof (attempt_body_fails net prompt max_tokens temperature safe_messages
                url 2 st2 msg3 E3') as A3.
  cbn [for_attempt]. rewrite A1, A2, A3.
  subst st1 st2 attempt1 attempt2 attempt3. cbn [trace]. rewrite <- !app_assoc. reflexivity.
Qed.

(** Three attempts at which both shapes are refused. *)
Lemma for_attempt_refused url st r1 q1 r2 q2 r3 q3 :
  let inputs := inputs_payload prompt max_tokens temperature in
  let attempt1 := [Post url chat (Answers r1); Post url inputs (Answers q1);
                   Diagnostic (returned_diagnostic url r1)] in
  let attempt2 := [Post url chat (Answers r2); Post url inputs (Answers q2);
                   Diagnostic (returned_diagnostic url r2)] in
  let attempt3 := [Post url chat (Answers r3); Post url inputs (Answers q3);
                   Diagnostic (returned_diagnostic url r3)] in
  net (trace st) url chat = Answers r1 → other_status r1 = true →
  net (trace st ++ [Post url chat (Answers r1)]) url inputs = Answers q1 →
  (status_code q1 =? 200) = false → (status_code q1 =? 404) = false →
  net (trace st ++ attempt1) url chat = Answers r2 → other_status r2 = true →
  net (trace st ++ attempt1 ++ [Post url chat (Answers r2)]) url inputs = Answers q2 →
  (status_code q2 =? 200) = false → (status_code q2 =? 404) = false →
  net (trace st ++ attempt1 ++ attempt2) url chat = Answers r3 → other_status r3 = true →
  net (trace st ++ attempt1 ++ attempt2 ++ [Post url chat (Answers r3)]) url inputs
    = Answers q3 →
  (status_code q3 =? 200) = false → (status_code q3 =? 404) = false →
  for_attempt net prompt max_tokens temperature safe_messages url [0; 1; 2] st
  = ({| trace := trace st ++ (attempt1 ++ attempt2 ++ attempt3);
        last_err := Some (returned_diagnostic url r3) |}, None).
Proof.
  intros inputs attempt1 attempt2 attempt3
    E1 O1 F1 N1 M1 E2 O2 F2 N2 M2 E3 O3 F3 N3 M3.
  pose proof (attempt_body_other_other net prompt max_tokens temperature safe_messages
                url 0 st r1 q1 E1 O1 F1 N1 M1) as A1.
  set (st1 := {| trace := _; last_err := _ |}) in A1.
  assert (F2' : net (trace st1 ++ [Post url chat (Answers r2)]) url inputs = Answers q2).
  { subst st1. cbn [trace]. rewrite <- app_assoc. exact F2. }
  pose proof (attempt_body_other_other net prompt max_tokens temperature safe_messages
                url 1 st1 r2 q2 E2 O2 F2' N2 M2) as A2.
  set (st2 := {| trace := _; last_err := _ |}) in A2.
  assert (E3' : net (trace st2) url chat = Answers r3).
  { subst st2 st1. cbn [trace]. rewrite <- app_assoc. exact E3. }
  assert (F3' : net (trace st2 ++ [Post url chat (Answers r3)]) url inputs = Answers q3).
  { subst st2 st1. cbn [trace]. rewrite <- !app_assoc. exact F3. }
  pose proof (attempt_body_other_other net prompt max_tokens temperature safe_messages
                url 2 st2 r3 q3 E3' O3 F3' N3 M3) as A3.
  cbn [for_attempt]. rewrite A1, A2, A3.
  subst st1 st2 attempt1 attempt2 attempt3. cbn [trace]. rewrite <- !app_assoc. reflexivity.
Qed.

End GivenUp.

(** C3.  Let a call reach a candidate URL (the candidates [before] it are
    given up without a result) whose chat-shape request is answered, on each
    of the three attempts, with a status among 408, 409, 429, 500, 502, 503 and
    504.  Then the trace of the call is what came before, then exactly three
    attempts against that URL, each a chat-shape request followed by a
    diagnostic naming the URL and the status and by a sleep of 0.6 times the
    number of the attempt (the doubles [0.6 * 1], [0.6 * 2] and [0.6 * 3],
    which are 0.6, 1.2 and 1.7999999999999998), then what the remaining
    candidates add.  No other request of the call goes to that URL, and the
    call goes on with the next candidate: its next event is the chat-shape
    request to it; when there is none, the call returns the failure made of
    the last diagnostic. *)
Theorem call_model_retries_recoverable
    MODEL_HOST net prompt max_tokens stop temperature messages
    safe_messages before url after st r1 r2 r3 :
  let chat := chat_payload safe_messages max_tokens temperature in
  let attempt1 := [Post url chat (Answers r1); Diagnostic (returned_diagnostic url r1);
                   Sleep (0.6 * 1)] in
  let attempt2 := [Post url chat (Answers r2); Diagnostic (returned_diagnostic url r2);
                   Sleep (0.6 * 2)] in
  let attempt3 := [Post url chat (Answers r3); Diagnostic (returned_diagnostic url r3);
                   Sleep (0.6 * 3)] in
  reaches MODEL_HOST net prompt max_tokens temperature messages safe_messages before url after st →
  net (trace st) url chat = Answers r1 → status_in recoverable r1 = true →
  net (trace st ++ attempt1) url chat = Answers r2 → status_in recoverable r2 = true →
  net (trace st ++ attempt1 ++ attempt2) url chat = Answers r3 → status_in recoverable r3 = true →
  ∃ rest,
    fst (call_model MODEL_HOST net prompt max_tokens stop temperature messages)
    = trace st ++ (attempt1 ++ attempt2 ++ attempt3) ++ rest
    ∧ attempt1 ++ attempt2 ++ attempt3
      = [ Post url chat (Answers r1); Diagnostic (returned_diagnostic url r1); Sleep 0.6;
          Post url chat (Answers r2); Diagnostic (returned_diagnostic url r2); Sleep 1.2;
          Post url chat (Answers r3); Diagnostic (returned_diagnostic url r3);
          Sleep 1.7999999999999998 ]
    ∧ Forall (not_to url) (trace st ++ rest)
    ∧ goes_on chat after (returned_diagnostic url r3) rest
        (snd (call_model MODEL_HOST net prompt max_tokens stop temperature messages)).
Proof.
  intros chat attempt1 attempt2 attempt3 Hreach E1 H1 E2 H2 E3 H3.
  destruct (call_model_gives_up net prompt max_tokens temperature safe_messages
              MODEL_HOST stop messages before url after st
              (attempt1 ++ attempt2 ++ attempt3) (returned_diagnostic url r3) Hreach)
    as (rest & Htr & Hnot & Hon).
  { apply (for_attempt_recoverable net prompt max_tokens temperature safe_messages
             url st r1 r2 r3); assumption. }
  exists rest. split; [exact Htr|]. split; [reflexivity|]. split; [exact Hnot|exact Hon].
Qed.

(** X2.  A candidate URL that answers the chat-shape request with 404 gets
    that one request only: the trace of the call is what came before, then
    that request and the diagnostic, then what the remaining candidates add
    (no completion-shape request, no second attempt, no sleep); no other
    request of the call goes to that URL, and the call goes on with the next
    candidate, or returns the failure made of this diagnostic when there is
    none. *)
Theorem call_model_404_next_endpoint
    MODEL_HOST net prompt max_tokens stop temperature messages
    safe_messages before url after st r :
  let chat := chat_payload safe_messages max_tokens temperature in
  reaches MODEL_HOST net prompt max_tokens temperature messages safe_messages before url after st →
  net (trace st) url chat = Answers r →
  status_code r = 404 →
  ∃ rest,
    fst (call_model MODEL_HOST net prompt max_tokens stop temperature messages)
    = trace st ++ [Post url chat (Answers r); Diagnostic (url +:+ " returned 404 Not Found")]
      ++ rest
    ∧ Forall (not_to url) (trace st ++ rest)
    ∧ goes_on chat after (url +:+ " returned 404 Not Found") rest
        (snd (call_model MODEL_HOST net prompt max_tokens stop temperature messages)).
Proof.
  intros chat Hreach Hnet H404.
  apply (call_model_gives_up net prompt max_tokens temperature safe_messages
           MODEL_HOST stop messages before url after st _ _ Hreach).
  cbn [for_attempt].
  rewrite (attempt_body_404 _ _ _ _ _ _ _ _ _ Hnet H404). reflexivity.
Qed.

(** X3.  A candidate URL at which [requests.post] raises on each of the
    three attempts (connection refused, timeout, ...) gets exactly these
    three attempts: the trace of the call is what came before, then three
    times a chat-shape request followed by the text of the exception as
    diagnostic and by a sleep of 0.5 times the number of the attempt (0.5, 1.0
    and 1.5 seconds), then what the remaining candidates add; no other request
    of the call goes to that URL, and the call goes on with the next
    candidate, or returns the failure made of the last exception text when
    there is none. *)
Theorem call_model_network_failures
    MODEL_HOST net prompt max_tokens stop temperature messages
    safe_messages before url after st msg1 msg2 msg3 :
  let chat := chat_payload safe_messages max_tokens temperature in
  let attempt1 := [Post url chat (Fails msg1); Diagnostic msg1; Sleep 0.5] in
  let attempt2 := [Post url chat (Fails msg2); Diagnostic msg2; Sleep 1] in
  let attempt3 := [Post url chat (Fails msg3); Diagnostic msg3; Sleep 1.5] in
  reaches MODEL_HOST net prompt max_tokens temperature messages safe_messages before url after st →
  net (trace st) url chat = Fails msg1 →
  net (trace st ++ attempt1) url chat = Fails msg2 →
  net (trace st ++ attempt1 ++ attempt2) url chat = Fails msg3 →
  ∃ rest,
    fst (call_model MODEL_HOST net prompt max_tokens stop temperature messages)
    = trace st ++ (attempt1 ++ attempt2 ++ attempt3) ++ rest
    ∧ Forall (not_to url) (trace st ++ rest)
    ∧ goes_on chat after msg3 rest
        (snd (call_model MODEL_HOST net prompt max_tokens stop temperature messages)).
Proof.
  intros chat attempt1 attempt2 attempt3 Hreach E1 E2 E3.
  apply (call_model_gives_up net prompt max_tokens temperature safe_messages
           MODEL_HOST stop messages before url after st _ _ Hreach).
  apply (for_attempt_fails net prompt max_tokens temperature safe_messages
           url st msg1 msg2 msg3); assumption.
Qed.

(** X4.  A candidate URL that answers the chat-shape request with a status
    that is neither 200, nor 404, nor recoverable, and then answers the
    completion-shape request with 404, gets these two requests only: the
    trace of the call is what came before, then the two requests and the
    diagnostic, then what the remaining candidates add (no second attempt, no
    sleep); no other request of the call goes to that URL, and the call goes
    on with the next candidate, or returns the failure made of this
    diagnostic when there is none. *)
Theorem call_model_inputs_404_next_endpoint
    MODEL_HOST net prompt max_tokens stop temperature messages
    safe_messages before url after st r r2 :
  let chat := chat_payload safe_messages max_tokens temperature in
  let inputs := inputs_payload prompt max_tokens temperature in
  reaches MODEL_HOST net prompt max_tokens temperature messages safe_messages before url after st →
  net (trace st) url chat = Answers r →
  other_status r = true →
  net (trace st ++ [Post url chat (Answers r)]) url inputs = Answers r2 →
  status_code r2 = 404 →
  ∃ rest,
    fst (call_model MODEL_HOST net prompt max_tokens stop temperature messages)
    = trace st ++ [ Post url chat (Answers r); Post url inputs (Answers r2);
                    Diagnostic (url +:+ " (inputs) returned 404") ] ++ rest
    ∧ Forall (not_to url) (trace st ++ rest)
    ∧ goes_on chat after (url +:+ " (inputs) returned 404") rest
        (snd (call_model MODEL_HOST net prompt max_tokens stop temperature messages)).
Proof.
  intros chat inputs Hreach Hnet Hother Hnet2 H404.
  apply (call_model_gives_up net prompt max_tokens temperature safe_messages
           MODEL_HOST stop messages before url after st _ _ Hreach).
  cbn [for_attempt].
  rewrite (attempt_body_other _ _ _ _ _ _ _ _ _ _ Hnet Hother Hnet2) by (rewrite H404; reflexivity).
  rewrite H404. change (404 =? 404) with true. cbv zeta iota.
  unfold set_last_err, log. cbn [trace last_err]. rewrite <- app_assoc. reflexivity.
Qed.

(** X5.  A candidate URL that answers each of the three chat-shape requests
    with a status that is neither 200, nor 404, nor recoverable, and each of
    the completion-shape requests that follow with a status other than 200
    and 404, gets three attempts of two requests each, with no sleep in
    between: the trace of the call is what came before, then three times the
    two requests and a diagnostic that names the status of the chat-shape
    answer, then what the remaining candidates add; no other request of the
    call goes to that URL, and the call goes on with the next candidate, or
    returns the failure made of the last diagnostic when there is none. *)
Theorem call_model_both_shapes_refused
    MODEL_HOST net prompt max_tokens stop temperature messages
    safe_messages before url after st r1 q1 r2 q2 r3 q3 :
  let chat := chat_payload safe_messages max_tokens temperature in
  let inputs := inputs_payload prompt max_tokens temperature in
  let attempt1 := [Post url chat (Answers r1); Post url inputs (Answers q1);
                   Diagnostic (returned_diagnostic url r1)] in
  let attempt2 := [Post url chat (Answers r2); Post url inputs (Answers q2);
                   Diagnostic (returned_diagnostic url r2)] in
  let attempt3 := [Post url chat (Answers r3); Post url inputs (Answers q3);
                   Diagnostic (returned_diagnostic url r3)] in
  reaches MODEL_HOST net prompt max_tokens temperature messages safe_messages before url after st →
  net (trace st) url chat = Answers r1 → other_status r1 = true →
  net (trace st ++ [Post url chat (Answers r1)]) url inputs = Answers q1 →
  (status_code q1 =? 200) = false → (status_code q1 =? 404) = false →
  net (trace st ++ attempt1) url chat = Answers r2 → other_status r2 = true →
  net (trace st ++ attempt1 ++ [Post url chat (Answers r2)]) url inputs = Answers q2 →
  (status_code q2 =? 200) = false → (status_code q2 =? 404) = false →
  net (trace st ++ attempt1 ++ attempt2) url chat = Answers r3 → other_status r3 = true →
  net (trace st ++ attempt1 ++ attempt2 ++ [Post url chat (Answers r3)]) url inputs
    = Answers q3 →
  (status_code q3 =? 200) = false → (status_code q3 =? 404) = false →
  ∃ rest,
    fst (call_model MODEL_HOST net prompt max_tokens stop temperature messages)
    = trace st ++ (attempt1 ++ attempt2 ++ attempt3) ++ rest
    ∧ Forall (not_to url) (trace st ++ rest)
    ∧ goes_on chat after (returned_diagnostic url r3) rest
        (snd (call_model MODEL_HOST net prompt max_tokens stop temperature messages)).
Proof.
  intros chat inputs attempt1 attempt2 attempt3 Hreach
    E1 O1 F1 N1 M1 E2 O2 F2 N2 M2 E3 O3 F3 N3 M3.
  apply (call_model_gives_up net prompt max_tokens temperature safe_messages
           MODEL_HOST stop messages before url after st _ _ Hreach).
  apply (for_attempt_refused net prompt max_tokens temperature safe_messages
           url st r1 q1 r2 q2 r3 q3); assumption.
Qed.

Lemma call_model_result MODEL_HOST net prompt max_tokens stop temperature messages :
  ∃ ok text_or_error,
    snd (call_model MODEL_HOST net prompt max_tokens stop temperature messages)
      = Returns (ok, text_or_error)
    ∧ (ok = true ↔
       ∃ url payload r,
         In (Post url payload (Answers r))
            (fst (call_model MODEL_HOST net prompt max_tokens stop temperature messages))
         ∧ status_code r = 200)
    ∧ (ok = false →
       ∃ d, text_or_error = PStr ("Failed to contact model. Last error: " +:+ d)).
Proof.
  destruct (call_model_cases MODEL_HOST net prompt max_tokens stop temperature messages)
    as (safe & st & _ & [(result & Hret & Hcall)|(d & Hrun & _ & Hcall)]);
    rewrite Hcall; cbn [fst snd].
  - destruct Hret as (pre & url & p & r & Htr & _ & H200 & -> & _).
    exists true, (snd (success r)). split.
    { unfold success. destruct (json r); reflexivity. }
    split; [|discriminate]. split; [intros _|reflexivity].
    exists url, p, r. split; [|exact H200]. rewrite Htr. apply in_or_app. right. left. reflexivity.
  - eexists false, _. split; [reflexivity|]. split; [|eauto]. split; [discriminate|].
    intros (url & p & r & Hin & H200). exfalso.
    destruct Hrun as [Hno _ _]. unfold no_200 in Hno. rewrite Forall_forall in Hno.
    apply list_elem_of_In, Hno in Hin. cbn in Hin. rewrite H200 in Hin. discriminate.
Qed.

(** X6.  [call_model] returns in every case, and its first component is
    [True] exactly when some request of the call was answered with status
    200. *)
Theorem call_model_ok_iff_200 MODEL_HOST net prompt max_tokens stop temperature messages :
  ∃ ok text_or_error,
    snd (call_model MODEL_HOST net prompt max_tokens stop temperature messages)
      = Returns (ok, text_or_error)
    ∧ (ok = true ↔
       ∃ url payload r,
         In (Post url payload (Answers r))
            (fst (call_model MODEL_HOST net prompt max_tokens stop temperature messages))
         ∧ status_code r = 200).
Proof.
  destruct (call_model_result MODEL_HOST net prompt max_tokens stop temperature messages)
    as (ok & v & Hres & Hok & _).
  exists ok, v. auto.
Qed.

(** X7.  Without messages ([None] or an empty list) every chat-shape
    payload of the call holds one single message, of role [user], whose
    content is the prompt as it was given: nothing is trimmed. *)
Theorem call_model_without_messages
    MODEL_HOST net prompt max_tokens stop temperature messages url payload o msgs :
  messages = None ∨ messages = Some [] →
  In (Post url payload o)
     (fst (call_model MODEL_HOST net prompt max_tokens stop temperature messages)) →
  field "messages" payload = Some msgs →
  msgs = PList [PDict [("role", PStr "user"); ("content", prompt)]].
Proof.
  intros Hnone Hin Hmsgs.
  assert (Hsafe : safe_messages_of prompt messages
                  = Returns [[("role", PStr "user"); ("content", prompt)]]).
  { destruct Hnone as [-> | ->]; reflexivity. }
  destruct (call_model_cases MODEL_HOST net prompt max_tokens stop temperature messages)
    as (safe & st & Hsafe' & Hcases).
  rewrite Hsafe in Hsafe'. injection Hsafe' as <-.
  assert (Hsent : sent_by_call prompt max_tokens temperature
                    [[("role", PStr "user"); ("content", prompt)]] (Post url payload o)).
  { destruct Hcases as [(result & Hret & Hcall)|(d & Hrun & _ & Hcall)];
      rewrite Hcall in Hin; cbn [fst snd] in Hin.
    - destruct Hret as (_ & _ & _ & _ & _ & _ & _ & _ & Hall).
      rewrite Forall_forall in Hall. apply Hall, list_elem_of_In, Hin.
    - destruct Hrun as [_ _ Hall].
      rewrite Forall_forall in Hall. apply Hall, list_elem_of_In, Hin. }
  destruct Hsent as [-> | ->]; [|discriminate].
  injection Hmsgs as <-. reflexivity.
Qed.

(** ** More on the trimmer *)

Lemma str_drop_suffix n s : ∃ cut, s = cut +:+ str_drop n s.
Proof.
  revert s. induction n as [|n IH]; intros s.
  - exists "". destruct s; reflexivity.
  - destruct s as [|c s]; [exists ""; reflexivity|].
    destruct (IH s) as [cut Hcut]. exists (String c cut).
    change (String c s = String c (cut +:+ str_drop n s)). f_equal. exact Hcut.
Qed.

(** X8.  [trim_msg] on a message with text content keeps the role (["user"]
    when there is none) and the end of the content: all of it up to 3000
    characters, its last 3000 characters beyond. *)
Theorem trim_msg_keeps_the_end m s :
  dict_get m "content" (PStr "") = PStr s →
  ∃ cut kept,
    s = cut +:+ kept
    ∧ Z.of_nat (String.length kept) = Z.min MAX_MESSAGE_CHARS (Z.of_nat (String.length s))
    ∧ trim_msg m = Returns [("role", dict_get m "role" (PStr "user")); ("content", PStr kept)].
Proof.
  intros Hc. unfold trim_msg. rewrite Hc. cbn.
  destruct (Z.ltb_spec MAX_MESSAGE_CHARS (Z.of_nat (String.length s))) as [Hlong|Hshort]; cbn.
  - unfold str_slice_from.
    destruct (str_drop_suffix (slice_start (- MAX_MESSAGE_CHARS) (Z.of_nat (String.length s))) s)
      as [cut Hcut].
    exists cut, (str_drop (slice_start (- MAX_MESSAGE_CHARS) (Z.of_nat (String.length s))) s).
    split; [exact Hcut|]. split; [|reflexivity].
    pose proof (length_str_slice_from MAX_MESSAGE_CHARS s) as H. unfold str_slice_from in H.
    apply H. reflexivity.
  - exists "", s. split; [reflexivity|]. split; [lia|reflexivity].
Qed.

Lemma comprehension_app_inv {A B} (f : A → exc B) xs ys1 ys2 :
  comprehension f xs = Returns (ys1 ++ ys2) →
  ∃ xs1 xs2, xs = xs1 ++ xs2
             ∧ comprehension f xs1 = Returns ys1 ∧ comprehension f xs2 = Returns ys2.
Proof.
  revert xs. induction ys1 as [|y ys1 IH]; intros xs H.
  - exists [], xs. auto.
  - destruct xs as [|x xs]; [discriminate|]. cbn in H.
    destruct (f x) as [y'|] eqn:Ex; [|discriminate]. cbn in H.
    destruct (comprehension f xs) as [ys|] eqn:Exs; [|discriminate]. cbn in H.
    injection H as -> ->.
    destruct (IH xs Exs) as (xs1 & xs2 & -> & H1 & H2).
    exists (x :: xs1), xs2. cbn. rewrite Ex, H1. auto.
Qed.

(** What the [while] loop drops: the oldest messages, and no more of them than
    the cap on the total asks for. *)
Lemma drop_oldest_minimal l l' :
  drop_oldest l = Returns l' →
  ∃ dropped, l = dropped ++ l'
    ∧ ∀ dropped' m, dropped = dropped' ++ [m] →
        ∃ t, total_chars (m :: l') = Returns t ∧ MAX_TOTAL_CHARS < t.
Proof.
  revert l'. induction l as [|m l IH]; intros l'.
  - cbn. intros [= <-]. exists []. split; [reflexivity|].
    intros [|? ?] ? H; discriminate.
  - rewrite drop_oldest_step.
    destruct (total_chars (m :: l)) as [t|] eqn:Et; [|discriminate]. cbn [mbind exc_bind].
    destruct ((MAX_TOTAL_CHARS <? t) && (1 <? Z.of_nat (length (m :: l)))) eqn:Hc.
    + intros Hl. destruct (IH l' Hl) as (dropped & -> & Hmin).
      exists (m :: dropped). split; [reflexivity|].
      intros dropped' m' Heq.
      destruct dropped as [|d dropped].
      * destruct dropped' as [|? [|? ?]]; try discriminate.
        cbn in Heq. injection Heq as <-.
        exists t. split; [exact Et|]. apply andb_true_iff in Hc as [Hc _]. lia.
      * destruct dropped' as [|d' dropped']; [destruct dropped; discriminate|].
        cbn in Heq. injection Heq as <- Heq. eapply Hmin, Heq.
    + intros [= <-]. exists []. split; [reflexivity|].
      intros [|? ?] ? H; discriminate.
Qed.

(** X9.  [trim_messages] keeps the newest messages and their order: its
    result is made, message by message, of the messages at the end of its
    input, the older ones being dropped; and the newest message is always
    kept. *)
Theorem trim_messages_keeps_the_newest messages :
  forallb is_text messages = true →
  ∃ out older kept,
    trim_messages messages = Returns out
    ∧ messages = older ++ kept
    ∧ comprehension trim_msg kept = Returns out
    ∧ (messages ≠ [] → kept ≠ []).
Proof.
  intros Htext.
  destruct (trim_messages_returns messages Htext) as (out & Hout & _).
  destruct (trim_messages_result messages out Hout)
    as (_ & _ & _ & Hne & _ & (l & Hl & [l0 ->])).
  apply comprehension_app_inv in Hl as (xs1 & xs2 & Hx & H1 & H2).
  exists out, (take (slice_start (- MAX_MESSAGES) (Z.of_nat (length messages))) messages ++ xs1), xs2.
  split; [exact Hout|]. split; [|split; [exact H2|]].
  - rewrite <- app_assoc, <- Hx. unfold slice_from. rewrite take_drop. reflexivity.
  - intros Hm -> . cbn in H2. injection H2 as <-. apply Hne; auto.
Qed.

(** X10.  [trim_messages] drops no more than the cap on the total asks for:
    within the window of the last 24 messages, each cut to its last 3000
    characters, the message just before the ones that are kept, if there is
    one, would bring the total above 14000. *)
Theorem trim_messages_drops_no_more_than_needed messages :
  forallb is_text messages = true →
  ∃ out dropped,
    trim_messages messages = Returns out
    ∧ comprehension trim_msg (slice_from (- MAX_MESSAGES) messages) = Returns (dropped ++ out)
    ∧ ∀ dropped' m, dropped = dropped' ++ [m] →
        ∃ t, total_chars (m :: out) = Returns t ∧ MAX_TOTAL_CHARS < t.
Proof.
  intros Htext.
  destruct (trim_messages_returns messages Htext) as (out & Hout & _).
  pose proof Hout as Hout'. unfold trim_messages in Hout'.
  destruct messages as [|m ms].
  - injection Hout' as <-. exists [], []. split; [reflexivity|]. split; [reflexivity|].
    intros [|? ?] ? H; discriminate.
  - destruct (comprehension trim_msg (slice_from (- MAX_MESSAGES) (m :: ms))) as [l|] eqn:El;
      [|discriminate]. cbn [mbind exc_bind] in Hout'.
    destruct (drop_oldest_minimal l out Hout') as (dropped & -> & Hmin).
    exists out, dropped. split; [exact Hout|]. split; [reflexivity|exact Hmin].
Qed.

Lemma drop_oldest_within_cap l t :
  total_chars l = Returns t → t ≤ MAX_TOTAL_CHARS → drop_oldest l = Returns l.
Proof.
  intros Ht Hcap. destruct l as [|m l]; [reflexivity|].
  rewrite drop_oldest_step, Ht. cbn [mbind exc_bind].
  destruct (Z.ltb_spec MAX_TOTAL_CHARS t); [lia|reflexivity].
Qed.

(** X11.  A history that is within the three limits goes through
    [trim_messages] unchanged: at most 24 messages, each a role with a content
    of at most 3000 characters, and at most 14000 characters in all. *)
Theorem trim_messages_within_limits messages total :
  Z.of_nat (length messages) ≤ MAX_MESSAGES →
  Forall trimmed_text messages →
  total_chars messages = Returns total →
  total ≤ MAX_TOTAL_CHARS →
  trim_messages messages = Returns messages.
Proof.
  intros Hlen Htr Ht Hcap. unfold trim_messages.
  destruct messages as [|m ms] eqn:E; [reflexivity|]. rewrite <- E in *.
  rewrite slice_from_all by (try reflexivity; exact Hlen).
  rewrite comprehension_fixed.
  - cbn [mbind exc_bind]. eapply drop_oldest_within_cap; eauto.
  - eapply Forall_impl; [exact Htr|]. intros x Hx. apply trim_msg_fixed, trimmed_text_trimmed, Hx.
Qed.

(** X12.  [trim_messages] on list objects changes no list that existed
    before the call, the list it is given included; when the trimmed list is
    computed without an exception, it returns a list object that holds it,
    and that is a new object whenever the input is not empty. *)
Theorem trim_messages_leaves_its_argument messages (h : store) out :
  trim_messages (deref h messages) = Returns out →
  ∃ h' r,
    trim_messages_st messages h = Returns (h', r)
    ∧ deref h' r = out
    ∧ (∀ a, is_Some (h !! a) → h' !! a = h !! a)
    ∧ (deref h messages ≠ [] → h !! r = None).
Proof.
  intros Hout.
  assert (Hst : ∃ h' r, trim_messages_st messages h = Returns (h', r)).
  { rewrite trim_messages_st_spec. destruct (deref h messages); [eauto|].
    rewrite Hout. cbn. eauto. }
  destruct Hst as (h' & r & Hst). exists h', r.
  destruct (trim_messages_st_frame _ _ _ _ Hst) as (Hframe & Hpure & Hnew).
  rewrite Hout in Hpure. injection Hpure as <-. auto.
Qed.
(** ** The session store *)

Lemma append_is_Some a x (h : store) b : is_Some (h !! b) → is_Some (append a x h !! b).
Proof.
  intros [l Hl]. unfold append. destruct (decide (a = b)) as [->|Hne].
  - rewrite lookup_alter_eq, Hl. eauto.
  - rewrite lookup_alter_ne by exact Hne. eauto.
Qed.

Lemma store_ok_with_lists w h :
  store_ok w → (∀ a, is_Some (lists w !! a) → is_Some (h !! a)) → store_ok (with_lists h w).
Proof.
  intros Hok Hext sid s Hs. cbn in Hs. destruct (Hok sid s Hs) as (Hid & Hl & Hown).
  split; [exact Hid|]. split; [apply Hext, Hl|]. exact Hown.
Qed.

(** A session stored with a list object that no session had. *)
Lemma store_ok_new_list w sid s l :
  store_ok w → sess_id s = sid → lists w !! sess_messages s = None →
  store_ok {| lists := <[sess_messages s := l]> (lists w);
              sessions := <[sid := s]> (sessions w) |}.
Proof.
  intros Hok Hid Hfresh sid0 s0 Hs0. cbn [lists sessions] in *.
  rewrite lookup_insert in Hs0. destruct (decide (sid = sid0)) as [Heq|Hne].
  - injection Hs0 as <-. split; [congruence|]. split; [rewrite lookup_insert_eq; eauto|].
    intros sid' s' Hs' Hloc. rewrite lookup_insert in Hs'.
    destruct (decide (sid = sid')) as [|Hne']; [congruence|].
    destruct (Hok sid' s' Hs') as (_ & [x Hx] & _). rewrite Hloc, Hfresh in Hx. discriminate.
  - destruct (Hok sid0 s0 Hs0) as (Hid0 & [x Hx] & Hown). split; [exact Hid0|]. split.
    { rewrite lookup_insert_ne; [eauto|]. intros Heq. rewrite Heq, Hx in Hfresh. discriminate. }
    intros sid' s' Hs' Hloc. rewrite lookup_insert in Hs'.
    destruct (decide (sid = sid')) as [Heq'|Hne'].
    + injection Hs' as <-. rewrite Hloc, Hx in Hfresh. discriminate.
    + eapply Hown; eauto.
Qed.

Lemma create_session_store_ok sid now name w :
  store_ok w → store_ok (create_session sid now name w).1.
Proof.
  intros Hok.
  assert (Hfresh : lists w !! fresh (dom (lists w)) = None) by apply not_elem_of_dom, is_fresh.
  exact (store_ok_new_list w sid
           {| sess_id := sid;
              sess_name := match name with
                           | Some (String c n) => String c n
                           | _ => "Chat " +:+ repr_int (Z.of_nat (size (sessions w)) + 1)
                           end;
              sess_created := now;
              sess_messages := fresh (dom (lists w)) |} [] Hok eq_refl Hfresh).
Qed.

(** The two ways in which the chat route finds its session. *)
Lemma session_of_cases e session_id w w0 sid s :
  session_of e session_id w = Returns (w0, sid, s) →
  (w0 = w ∧ session_id = PStr sid ∧ sessions w !! sid = Some s)
  ∨ (w0 = (create_session (uuid4 e) (time_created e) None w).1
     ∧ sid = uuid4 e
     ∧ s = (create_session (uuid4 e) (time_created e) None w).2
     ∧ (py_truthy session_id = false ∨ in_sessions session_id (sessions w) = Returns false)).
Proof.
  unfold session_of.
  destruct (py_truthy session_id) eqn:Ht.
  - destruct (in_sessions session_id (sessions w)) as [[|]|] eqn:Hin; cbn [mbind exc_bind].
    + destruct session_id; try discriminate.
      destruct (sessions w !! s0) eqn:Hs; [|discriminate].
      intros [= <- <- <-]. left. auto.
    + unfold create_session, alloc. cbn. rewrite lookup_insert_eq.
      intros [= <- <- <-]. right. auto.
    + discriminate.
  - cbn [mbind exc_bind]. unfold create_session, alloc. cbn. rewrite lookup_insert_eq.
    intros [= <- <- <-]. right. auto.
Qed.

Lemma session_of_store_ok e session_id w w0 sid s :
  session_of e session_id w = Returns (w0, sid, s) → store_ok w →
  store_ok w0 ∧ sessions w0 !! sid = Some s.
Proof.
  intros [(-> & _ & Hs)|(-> & -> & -> & _)]%session_of_cases Hok.
  - auto.
  - split; [apply create_session_store_ok, Hok|].
    unfold create_session, alloc. cbn. apply lookup_insert_eq.
Qed.

(** The chat route in one equation: the session store it leaves and the
    answer it gives, from the call of the model on the projected and trimmed
    history. *)
Lemma api_chat_spec MODEL_HOST net e prompt session_id max_tokens w w0 sid s old :
  session_of e session_id w = Returns (w0, sid, s) →
  lists w0 !! sess_messages s = Some old →
  let r := api_chat MODEL_HOST net e prompt session_id max_tokens w in
  let u := user_message prompt (time_user e) in
  sessions r.1.1 = sessions w0
  ∧ (∀ a, is_Some (lists w0 !! a) → is_Some (lists r.1.1 !! a))
  ∧ (∀ a, a ≠ sess_messages s → is_Some (lists w0 !! a) → lists r.1.1 !! a = lists w0 !! a)
  ∧ match r.2 with
    | Raises => lists r.1.1 !! sess_messages s = Some (old ++ [u]) ∧ r.1.2 = []
    | Returns v =>
        ∃ l out ok model_resp,
          comprehension project (old ++ [u]) = Returns l
          ∧ trim_messages l = Returns out
          ∧ call_model MODEL_HOST net prompt max_tokens PNone (PFloat "0.2") (Some out)
            = (r.1.2, Returns (ok, model_resp))
          ∧ let assistant_text :=
              if ok : bool then model_resp else PStr ("[Model error] " +:+ py_str model_resp) in
            v = PDict [("session_id", PStr sid); ("response", assistant_text)]
            ∧ lists r.1.1 !! sess_messages s
              = Some (old ++ [u; assistant_message assistant_text (time_assistant e)])
    end.
Proof.
  intros Hs Hold. cbv zeta. unfold api_chat. rewrite Hs.
  set (a := sess_messages s) in *.
  set (u := user_message prompt (time_user e)).
  set (h1 := append a u (lists w0)).
  assert (H1 : h1 !! a = Some (old ++ [u])) by (apply append_lookup, Hold).
  assert (H1' : ∀ b, a ≠ b → h1 !! b = lists w0 !! b) by (intros b; apply append_other).
  assert (H1s : ∀ b, is_Some (lists w0 !! b) → is_Some (h1 !! b)) by (intros b; apply append_is_Some).
  assert (Hd : deref h1 a = old ++ [u]) by (unfold deref; rewrite H1; reflexivity).
  cbn [lists with_lists]. rewrite Hd.
  destruct (comprehension project (old ++ [u])) as [l|]; cbn [mbind exc_bind].
  2:{ cbn. repeat split; auto. }
  destruct (alloc l h1) as [h2 mfm] eqn:E2.
  assert (H2 : ∀ b, is_Some (h1 !! b) → h2 !! b = h1 !! b).
  { intros b Hb. pose proof (alloc_old l h1 b Hb) as H. rewrite E2 in H. exact H. }
  assert (Hd2 : deref h2 mfm = l).
  { pose proof (deref_alloc l h1) as H. rewrite E2 in H. exact H. }
  destruct (trim_messages_st mfm h2) as [[h3 r]|] eqn:E3.
  2:{ cbn. repeat split; auto. }
  destruct (trim_messages_st_frame _ _ _ _ E3) as (H3 & Htrim & _).
  rewrite Hd2 in Htrim.
  assert (H13 : ∀ b, is_Some (h1 !! b) → h3 !! b = h1 !! b).
  { intros b Hb. rewrite H3, H2; auto. rewrite H2; auto. }
  assert (Hcall : ∃ tr ok model_resp,
             call_model MODEL_HOST net prompt max_tokens PNone (PFloat "0.2") (Some (deref h3 r))
             = (tr, Returns (ok, model_resp))).
  { destruct (call_model_cases MODEL_HOST net prompt max_tokens PNone (PFloat "0.2")
                (Some (deref h3 r)))
      as (safe & st & _ & [([ok v] & _ & Hc)|(d & _ & _ & Hc)]); rewrite Hc; eauto. }
  destruct Hcall as (tr & ok & model_resp & Ecall). rewrite Ecall.
  cbn [fst snd lists sessions with_lists].
  split; [reflexivity|]. split; [|split].
  - intros b Hb. apply append_is_Some. rewrite H13; auto.
  - intros b Hb Hb'. rewrite append_other by auto. rewrite H13, H1'; auto.
  - exists l, (deref h3 r), ok, model_resp.
    split; [reflexivity|]. split; [exact Htrim|]. split; [exact Ecall|].
    cbv zeta. split; [reflexivity|].
    erewrite append_lookup; [|rewrite H13; eauto]. rewrite <- app_assoc. reflexivity.
Qed.

(** C8.  Trimming never mutates the stored history.  [trim_messages] is
    pure: on list objects it changes no list that existed before the call,
    and what it returns for a list that is not empty is a new list object,
    which holds the bounded copy (at most 24 messages, each a role with a
    content within the cap).  So after a chat request the list stored in the
    session holds all it held, followed by the user message with the prompt
    as it was given, untrimmed, and, when the route answers, by the assistant
    message; the other lists of the store are as they were; and only what is
    sent to the model is trimmed: every chat-shape payload of the request
    carries a list within the three limits. *)
Theorem trimming_never_mutates_stored_history
    MODEL_HOST net e prompt session_id max_tokens w w0 sid s old :
  session_of e session_id w = Returns (w0, sid, s) →
  lists w0 !! sess_messages s = Some old →
  (∀ messages (h h' : store) r,
     trim_messages_st messages h = Returns (h', r) →
     (∀ a, is_Some (h !! a) → h' !! a = h !! a)
     ∧ (deref h messages ≠ [] → h !! r = None)
     ∧ trim_messages (deref h messages) = Returns (deref h' r)
     ∧ Z.of_nat (length (deref h' r)) ≤ MAX_MESSAGES
     ∧ Forall trimmed (deref h' r))
  ∧ (∃ rest,
       lists (api_chat MODEL_HOST net e prompt session_id max_tokens w).1.1 !! sess_messages s
       = Some (old ++ user_message prompt (time_user e) :: rest)
       ∧ match (api_chat MODEL_HOST net e prompt session_id max_tokens w).2 with
         | Returns _ =>
             ∃ assistant_text, rest = [assistant_message assistant_text (time_assistant e)]
         | Raises => rest = []
         end)
  ∧ (∀ a, a ≠ sess_messages s → is_Some (lists w0 !! a) →
       lists (api_chat MODEL_HOST net e prompt session_id max_tokens w).1.1 !! a
       = lists w0 !! a)
  ∧ (∀ url payload o msgs,
       In (Post url payload o) (api_chat MODEL_HOST net e prompt session_id max_tokens w).1.2 →
       field "messages" payload = Some msgs →
       ∃ out total,
         msgs = PList (map PDict out)
         ∧ Z.of_nat (length out) ≤ MAX_MESSAGES
         ∧ Forall trimmed_text out
         ∧ total_chars out = Returns total
         ∧ (total ≤ MAX_TOTAL_CHARS ∨ length out = 1%nat)).
Proof.
  intros Hs Hold.
  destruct (api_chat_history MODEL_HOST net e prompt session_id max_tokens w w0 sid s old
              Hs Hold) as (rest & Hh & Hother & Hrest).
  split; [|split; [|split]].
  - intros messages h h' r Htrim.
    destruct (trim_messages_st_frame _ _ _ _ Htrim) as (Hframe & Hout & Hnew).
    destruct (trim_messages_result _ _ Hout) as (Hlen & Htr & _).
    auto.
  - exists rest. split; [exact Hh|exact Hrest].
  - exact Hother.
  - destruct (api_chat_spec MODEL_HOST net e prompt session_id max_tokens w w0 sid s old Hs Hold)
      as (_ & _ & _ & Hres).
    cbv zeta in Hres. intros url payload o msgs Hin Hmsgs.
    destruct (api_chat MODEL_HOST net e prompt session_id max_tokens w) as [[w' tr] res].
    cbn [fst snd] in *. destruct res as [v|].
    2:{ destruct Hres as [_ ->]. destruct Hin. }
    destruct Hres as (l & out & ok & resp & Hl & Hout & Hcall & _).
    assert (Hne : out ≠ []).
    { destruct (trim_messages_result _ _ Hout) as (_ & _ & _ & Hne & _). apply Hne.
      apply comprehension_Forall2, Forall2_length in Hl. rewrite length_app in Hl.
      destruct l; [cbn in Hl; lia|discriminate]. }
    destruct out as [|m ms]; [contradiction|].
    apply (f_equal fst) in Hcall. cbn [fst] in Hcall. rewrite <- Hcall in Hin.
    exact (call_model_chat_payload_trimmed _ _ _ _ _ _ _ _ _ _ _ _ Hin Hmsgs).
Qed.

(** ** [str.strip] *)

Lemma blank_app a b : blank (a +:+ b) = blank a && blank b.
Proof.
  induction a as [|c a IH]; [reflexivity|].
  change (is_space c && blank (a +:+ b) = is_space c && blank a && blank b).
  rewrite IH. apply andb_assoc.
Qed.

Lemma lstrip_spec s :
  ∃ pre, s = pre +:+ lstrip s ∧ blank pre = true
         ∧ ∀ c t, lstrip s = String c t → is_space c = false.
Proof.
  induction s as [|c s (pre & Hs & Hpre & Hfirst)].
  - exists "". split; [reflexivity|]. split; [reflexivity|]. discriminate.
  - cbn [lstrip]. destruct (is_space c) eqn:Hc.
    + exists (String c pre). split.
      { change (String c s = String c (pre +:+ lstrip s)). f_equal. exact Hs. }
      split; [|exact Hfirst].
      change (is_space c && blank pre = true). rewrite Hc. exact Hpre.
    + exists "". split; [reflexivity|]. split; [reflexivity|].
      intros c' t [= <- <-]. exact Hc.
Qed.

Lemma rstrip_spec s :
  ∃ post, s = rstrip s +:+ post ∧ blank post = true
          ∧ (∀ c t, rstrip s = t +:+ String c "" → is_space c = false)
          ∧ (∀ c t, s = String c t → is_space c = false → ∃ t', rstrip s = String c t').
Proof.
  induction s as [|c s (post & Hs & Hpost & Hlast & _)].
  - exists "". split; [reflexivity|]. split; [reflexivity|]. split.
    + intros c t H. destruct t; discriminate.
    + discriminate.
  - cbn [rstrip]. destruct (rstrip s) as [|a r] eqn:Er.
    + cbn in Hs. destruct (is_space c) eqn:Hc.
      * exists (String c s). split; [reflexivity|]. split.
        { change (is_space c && blank s = true). rewrite Hc, Hs. exact Hpost. }
        split.
        -- intros c0 t H. destruct t; discriminate.
        -- intros c0 t [= <- <-] Hc0. congruence.
      * exists s. split; [reflexivity|]. split; [rewrite Hs; exact Hpost|]. split.
        -- intros c0 t H. destruct t as [|b t]; cbn in H.
           ++ injection H as <-. exact Hc.
           ++ injection H as _ H. destruct t; discriminate.
        -- intros c0 t [= <- <-] _. eauto.
    + exists post. split.
      { change (String c s = String c (String a r +:+ post)). f_equal. exact Hs. }
      split; [exact Hpost|]. split.
      * intros c0 t H. destruct t as [|b t]; cbn in H; [discriminate|].
        injection H as _ H. eapply Hlast. exact H.
      * intros c0 t [= <- <-] _. eauto.
Qed.

Lemma strip_spec s :
  ∃ pre post, s = pre +:+ strip s +:+ post ∧ blank pre = true ∧ blank post = true
              ∧ no_space_at_ends (strip s).
Proof.
  destruct (lstrip_spec s) as (pre & Hs & Hpre & Hfirst).
  destruct (rstrip_spec (lstrip s)) as (post & Hl & Hpost & Hlast & Hkeep).
  exists pre, post. unfold strip. split; [rewrite <- Hl; exact Hs|].
  split; [exact Hpre|]. split; [exact Hpost|].
  intros c t [H|H].
  - apply (Hfirst c (t +:+ post)). rewrite Hl, H. reflexivity.
  - eapply Hlast, H.
Qed.

Lemma strip_blank s : strip s = "" ↔ blank s = true.
Proof.
  split.
  - intros H. destruct (strip_spec s) as (pre & post & Hs & Hpre & Hpost & _).
    rewrite H in Hs. rewrite Hs, !blank_app, Hpre, Hpost. reflexivity.
  - intros H. unfold strip.
    assert (Hl : lstrip s = "").
    { induction s as [|c s IH]; [reflexivity|]. cbn in *.
      apply andb_true_iff in H as [-> H]. auto. }
    rewrite Hl. reflexivity.
Qed.

(** ** The session routes *)

Lemma store_ok_same_list w sid s s' :
  store_ok w → sessions w !! sid = Some s →
  sess_id s' = sid → sess_messages s' = sess_messages s →
  store_ok {| lists := lists w; sessions := <[sid := s']> (sessions w) |}.
Proof.
  intros Hok Hs Hid Hloc sid0 s0 Hs0. cbn [lists sessions] in *.
  destruct (Hok sid s Hs) as (_ & Hl & Hown).
  rewrite lookup_insert in Hs0. destruct (decide (sid = sid0)) as [Heq|Hne].
  - injection Hs0 as <-. split; [congruence|]. split; [rewrite Hloc; exact Hl|].
    intros sid' s'' Hs' Hloc'. rewrite lookup_insert in Hs'.
    destruct (decide (sid = sid')) as [|Hne']; [congruence|].
    rewrite Hloc in Hloc'. rewrite <- Heq. eapply Hown; eauto.
  - destruct (Hok sid0 s0 Hs0) as (Hid0 & Hl0 & Hown0). split; [exact Hid0|].
    split; [exact Hl0|].
    intros sid' s'' Hs' Hloc'. rewrite lookup_insert in Hs'.
    destruct (decide (sid = sid')) as [Heq'|Hne'].
    + injection Hs' as <-. rewrite Hloc in Hloc'. exfalso. apply Hne.
      symmetry. eapply Hown; eauto.
    + eapply Hown0; eauto.
Qed.

Lemma store_ok_delete w sid :
  store_ok w → store_ok {| lists := lists w; sessions := delete sid (sessions w) |}.
Proof.
  intros Hok sid0 s0 Hs0. cbn [lists sessions] in *.
  apply lookup_delete_Some in Hs0 as [Hne Hs0].
  destruct (Hok sid0 s0 Hs0) as (Hid0 & Hl0 & Hown0).
  split; [exact Hid0|]. split; [exact Hl0|].
  intros sid' s' Hs' Hloc. apply lookup_delete_Some in Hs' as [_ Hs']. eapply Hown0; eauto.
Qed.

Lemma api_chat_store_ok MODEL_HOST net e prompt session_id max_tokens w :
  store_ok w → store_ok (api_chat MODEL_HOST net e prompt session_id max_tokens w).1.1.
Proof.
  intros Hok.
  destruct (session_of e session_id w) as [[[w0 sid] s]|] eqn:Hs.
  2:{ unfold api_chat. rewrite Hs. exact Hok. }
  destruct (session_of_store_ok _ _ _ _ _ _ Hs Hok) as [Hok0 Hs0].
  destruct (Hok0 sid s Hs0) as (_ & [old Hold] & _).
  destruct (api_chat_spec MODEL_HOST net e prompt session_id max_tokens w w0 sid s old Hs Hold)
    as (Hsess & Hext & _).
  destruct (api_chat MODEL_HOST net e prompt session_id max_tokens w).1.1 as [h ss].
  cbn [lists sessions] in *. subst ss. exact (store_ok_with_lists w0 h Hok0 Hext).
Qed.

Lemma api_sessions_rename_store_ok sid data w :
  store_ok w → store_ok (api_sessions_rename sid data w).1.
Proof.
  intros Hok. unfold api_sessions_rename.
  destruct (sessions w !! sid) as [s|] eqn:Hs; [|exact Hok].
  destruct (_ ≫= _) as [name|]; [|exact Hok].
  destruct (String.eqb name ""); [exact Hok|]. cbn [fst].
  destruct (Hok sid s Hs) as (Hid & _).
  apply (store_ok_same_list w sid s (with_name name s) Hok Hs Hid eq_refl).
Qed.

Lemma api_session_clear_store_ok data w :
  store_ok w → store_ok (api_session_clear data w).1.
Proof.
  intros Hok. unfold api_session_clear.
  destruct (_ ≫= _) as [[[] []]|]; try exact Hok.
  destruct (sessions w !! s) as [s0|] eqn:Hs; [|exact Hok].
  destruct (Hok s s0 Hs) as (Hid & _).
  assert (Hfresh : lists w !! fresh (dom (lists w)) = None) by apply not_elem_of_dom, is_fresh.
  exact (store_ok_new_list w s (with_messages (fresh (dom (lists w))) s0) [] Hok Hid Hfresh).
Qed.

(** X13.  An invariant of the session store: every session is stored under
    its own id, its list of messages exists, and no two sessions share a
    list.  Every operation that writes to the store keeps it. *)
Theorem session_store_invariant w :
  store_ok w →
  (∀ sid now name, store_ok (create_session sid now name w).1)
  ∧ (∀ MODEL_HOST net e prompt session_id max_tokens,
       store_ok (api_chat MODEL_HOST net e prompt session_id max_tokens w).1.1)
  ∧ (∀ sid, store_ok (api_sessions_delete sid w).1)
  ∧ (∀ sid data, store_ok (api_sessions_rename sid data w).1)
  ∧ (∀ data, store_ok (api_session_clear data w).1).
Proof.
  intros Hok. split; [|split; [|split; [|split]]].
  - intros. apply create_session_store_ok, Hok.
  - intros. apply api_chat_store_ok, Hok.
  - intros sid. unfold api_sessions_delete.
    destruct (sessions w !! sid); [apply store_ok_delete, Hok|exact Hok].
  - intros. apply api_sessions_rename_store_ok, Hok.
  - intros. apply api_session_clear_store_ok, Hok.
Qed.

(** X14.  Deleting, renaming and clearing leave the store as it was unless
    they answer with status 200. *)
Theorem store_changes_only_on_200 w :
  (∀ sid, (api_sessions_delete sid w).2.2 ≠ 200 → (api_sessions_delete sid w).1 = w)
  ∧ (∀ sid data, (∀ v, (api_sessions_rename sid data w).2 ≠ Returns (v, 200)) →
       (api_sessions_rename sid data w).1 = w)
  ∧ (∀ data, (∀ v, (api_session_clear data w).2 ≠ Returns (v, 200)) →
       (api_session_clear data w).1 = w).
Proof.
  split; [|split].
  - intros sid. unfold api_sessions_delete.
    destruct (sessions w !! sid); [|reflexivity]. cbn. congruence.
  - intros sid data. unfold api_sessions_rename.
    destruct (sessions w !! sid); [|reflexivity].
    destruct (_ ≫= _) as [name|]; [|reflexivity].
    destruct (String.eqb name ""); [reflexivity|]. cbn [fst snd].
    intros H. exfalso. eapply H. reflexivity.
  - intros data. unfold api_session_clear.
    destruct (_ ≫= _) as [[[] []]|]; try reflexivity.
    destruct (sessions w !! s); [|reflexivity]. cbn [fst snd].
    intros H. exfalso. eapply H. reflexivity.
Qed.

Lemma api_sessions_get_insert_ne sid sid' s' w h :
  sid' ≠ sid → (∀ s, sessions w !! sid' = Some s → h !! sess_messages s = lists w !! sess_messages s) →
  api_sessions_get sid' {| lists := h; sessions := <[sid := s']> (sessions w) |}
  = api_sessions_get sid' w.
Proof.
  intros Hne Hh. unfold api_sessions_get. cbn [sessions lists].
  rewrite lookup_insert_ne by congruence.
  destruct (sessions w !! sid') as [s|] eqn:Hs; [|reflexivity].
  unfold session_dict, deref. cbn [lists]. rewrite (Hh s eq_refl). reflexivity.
Qed.

(** X15.  Renaming with a name that is missing, empty or made of whitespace
    only is refused with status 400, and the store is left as it was. *)
Theorem api_sessions_rename_blank sid data w n :
  is_Some (sessions w !! sid) →
  (py_truthy data = false ∧ n = "") ∨ (∃ d, data = PDict d ∧ dict_get d "name" (PStr "") = PStr n) →
  blank n = true →
  api_sessions_rename sid data w = (w, Returns (PDict [("error", PStr "empty_name")], 400)).
Proof.
  intros [s Hs] Hdata Hblank. unfold api_sessions_rename. rewrite Hs.
  assert (Hname : (v ← py_get_default (if py_truthy data then data else PDict []) "name" (PStr "");
                   py_strip v) = Returns "").
  { destruct Hdata as [[-> ->]|(d & -> & Hn)].
    - reflexivity.
    - destruct d as [|kv d]; [reflexivity|].
      change (py_truthy (PDict (kv :: d))) with true. cbv iota.
      unfold py_get_default. cbn [mbind exc_bind]. rewrite Hn. cbn [py_strip].
      f_equal. apply strip_blank, Hblank. }
  rewrite Hname. reflexivity.
Qed.

(** X16.  Renaming stores the name without the whitespace around it, and
    answers with that name; a later [GET] of the session shows the new name
    with the id, the creation time and the messages it had, and the other
    sessions are as they were. *)
Theorem api_sessions_rename_then_get sid d w s n :
  sessions w !! sid = Some s →
  dict_get d "name" (PStr "") = PStr n →
  blank n = false →
  ∃ name pre post,
    n = pre +:+ name +:+ post ∧ blank pre = true ∧ blank post = true
    ∧ name ≠ "" ∧ no_space_at_ends name
    ∧ (api_sessions_rename sid (PDict d) w).2
      = Returns (PDict [ ("renamed", PBool true);
                         ("session", PDict [("id", PStr sid); ("name", PStr name)]) ], 200)
    ∧ api_sessions_get sid (api_sessions_rename sid (PDict d) w).1
      = (PDict [("session", PDict [ ("id", PStr (sess_id s)); ("name", PStr name);
                                    ("created", sess_created s);
                                    ("messages",
                                     PList (map PDict (deref (lists w) (sess_messages s)))) ])],
         200)
    ∧ ∀ sid', sid' ≠ sid →
        api_sessions_get sid' (api_sessions_rename sid (PDict d) w).1 = api_sessions_get sid' w.
Proof.
  intros Hs Hn Hblank.
  destruct (strip_spec n) as (pre & post & Hsplit & Hpre & Hpost & Hends).
  assert (Hne : strip n ≠ "").
  { intros H. apply strip_blank in H. congruence. }
  exists (strip n), pre, post.
  split; [exact Hsplit|]. split; [exact Hpre|]. split; [exact Hpost|].
  split; [exact Hne|]. split; [exact Hends|].
  assert (Hd : py_truthy (PDict d) = true).
  { destruct d; [|reflexivity]. cbn in Hn. injection Hn as <-. discriminate. }
  unfold api_sessions_rename. rewrite Hs, Hd. unfold py_get_default. cbn [mbind exc_bind].
  rewrite Hn. cbn [py_strip].
  destruct (String.eqb_spec (strip n) ""); [contradiction|]. cbn [fst snd].
  split; [reflexivity|]. split.
  - unfold api_sessions_get. cbn [sessions]. rewrite lookup_insert_eq. reflexivity.
  - intros sid' Hsid'. apply api_sessions_get_insert_ne; auto.
Qed.

(** X17.  Deleting a session answers 200 and removes that session and no
    other: a later [GET] or [DELETE] of it answers 404, the other sessions
    are as they were, and there is one session less. *)
Theorem api_sessions_delete_then_get sid w :
  is_Some (sessions w !! sid) →
  (api_sessions_delete sid w).2 = (PDict [("deleted", PBool true)], 200)
  ∧ api_sessions_get sid (api_sessions_delete sid w).1 = (PDict [("error", PStr "not_found")], 404)
  ∧ (api_sessions_delete sid (api_sessions_delete sid w).1).2 = (PDict [("deleted", PBool false)], 404)
  ∧ (∀ sid', sid' ≠ sid →
       api_sessions_get sid' (api_sessions_delete sid w).1 = api_sessions_get sid' w)
  ∧ S (size (sessions (api_sessions_delete sid w).1)) = size (sessions w).
Proof.
  intros [s Hs]. unfold api_sessions_delete at 1 2 4 5. unfold api_sessions_delete at 2.
  rewrite Hs. cbn [fst snd].
  split; [reflexivity|]. split; [|split; [|split]].
  - unfold api_sessions_get. cbn [sessions]. rewrite lookup_delete_eq. reflexivity.
  - unfold api_sessions_delete. cbn [sessions]. rewrite lookup_delete_eq. reflexivity.
  - intros sid' Hne. unfold api_sessions_get. cbn [sessions].
    rewrite lookup_delete_ne by congruence. reflexivity.
  - cbn [sessions]. rewrite map_size_delete_Some by eauto.
    assert (size (sessions w) ≠ 0%nat); [|lia].
    intros H0. apply map_size_empty_inv in H0. rewrite H0, lookup_empty in Hs. discriminate.
Qed.

(** X18.  Clearing a known session answers 200 and gives it a new, empty
    list: a later [GET] shows the session with no messages and the id, name
    and creation time it had; the list object it had before is not touched,
    and the other sessions are as they were. *)
Theorem api_session_clear_then_get d sid w s :
  store_ok w →
  dict_get d "session_id" PNone = PStr sid →
  sid ≠ "" →
  sessions w !! sid = Some s →
  (api_session_clear (PDict d) w).2 = Returns (PDict [("cleared", PBool true)], 200)
  ∧ api_sessions_get sid (api_session_clear (PDict d) w).1
    = (PDict [("session", PDict [ ("id", PStr (sess_id s)); ("name", PStr (sess_name s));
                                  ("created", sess_created s); ("messages", PList []) ])], 200)
  ∧ lists (api_session_clear (PDict d) w).1 !! sess_messages s = lists w !! sess_messages s
  ∧ ∀ sid', sid' ≠ sid →
      api_sessions_get sid' (api_session_clear (PDict d) w).1 = api_sessions_get sid' w.
Proof.
  intros Hok Hd Hne Hs.
  assert (Hfresh : lists w !! fresh (dom (lists w)) = None) by apply not_elem_of_dom, is_fresh.
  assert (Hold : ∀ a, is_Some (lists w !! a) →
                   <[fresh (dom (lists w)) := []]> (lists w) !! a = lists w !! a).
  { intros a [l Hl]. apply lookup_insert_ne. intros Heq. rewrite Heq, Hl in Hfresh. discriminate. }
  unfold api_session_clear, py_get_method. cbn [mbind exc_bind]. rewrite Hd.
  assert (Ht : py_truthy (PStr sid) = true).
  { cbn. destruct (String.eqb_spec sid ""); [contradiction|reflexivity]. }
  rewrite Ht. unfold in_sessions. rewrite Hs. cbn [is_Some_b mbind exc_bind].
  rewrite Hs. unfold alloc. cbn [fst snd].
  split; [reflexivity|]. split; [|split].
  - unfold api_sessions_get. cbn [sessions]. rewrite lookup_insert_eq.
    unfold session_dict, deref. cbn [lists with_messages sess_messages sess_id sess_name sess_created].
    rewrite lookup_insert_eq. reflexivity.
  - cbn [lists]. apply Hold. apply (Hok sid s Hs).
  - intros sid' Hsid'. apply api_sessions_get_insert_ne; [exact Hsid'|].
    intros s' Hs'. apply Hold. apply (Hok sid' s' Hs').
Qed.

(** X19.  [/health] always answers, with status 200: [model_reachable] is
    [True] exactly when a request of its probe was answered with status 200,
    and [sessions_count] is the number of sessions. *)
Theorem health_reports MODEL_HOST net w :
  ∃ ok,
    (health MODEL_HOST net w).2
    = Returns (PDict [ ("model_reachable", PBool ok);
                       ("sessions_count", PInt (Z.of_nat (size (sessions w)))) ], 200)
    ∧ (ok = true ↔
       ∃ url payload r,
         In (Post url payload (Answers r)) (health MODEL_HOST net w).1 ∧ status_code r = 200)
    ∧ ∀ url payload o msgs,
        In (Post url payload o) (health MODEL_HOST net w).1 →
        field "messages" payload = Some msgs →
        msgs = PList [PDict [("role", PStr "user"); ("content", PStr "Hello")]].
Proof.
  unfold health.
  destruct (call_model_result MODEL_HOST net (PStr "Hello") 5 PNone (PFloat "0.2") None)
    as (ok & v & Hres & Hok & _).
  destruct (call_model_cases MODEL_HOST net (PStr "Hello") 5 PNone (PFloat "0.2") None)
    as (safe & st & Hsafe & Hcases).
  injection Hsafe as <-.
  destruct (call_model MODEL_HOST net (PStr "Hello") 5 PNone (PFloat "0.2") None)
    as [tr r] eqn:Ecall.
  cbn [fst snd] in *. subst r. exists ok. split; [reflexivity|]. split; [exact Hok|].
  intros url payload o msgs Hin Hmsgs.
  assert (Hsent : sent_by_call (PStr "Hello") 5 (PFloat "0.2")
                    [[("role", PStr "user"); ("content", PStr "Hello")]] (Post url payload o)).
  { destruct Hcases as [(result & Hret & Hcall)|(d & Hrun & _ & Hcall)];
      injection Hcall as -> _.
    - destruct Hret as (_ & _ & _ & _ & _ & _ & _ & _ & Hall).
      rewrite Forall_forall in Hall. apply Hall, list_elem_of_In, Hin.
    - destruct Hrun as [_ _ Hall].
      rewrite Forall_forall in Hall. apply Hall, list_elem_of_In, Hin. }
  destruct Hsent as [-> | ->]; [|discriminate].
  injection Hmsgs as <-. reflexivity.
Qed.

(** ** The chat route and the sessions *)

Lemma session_of_new e session_id w :
  py_truthy session_id = false ∨ in_sessions session_id (sessions w) = Returns false →
  session_of e session_id w
  = Returns ((create_session (uuid4 e) (time_created e) None w).1, uuid4 e,
             (create_session (uuid4 e) (time_created e) None w).2).
Proof.
  intros H. unfold session_of.
  assert (Hknown : (if py_truthy session_id then in_sessions session_id (sessions w)
                    else Returns false) = Returns false).
  { destruct H as [->| ->]; [reflexivity|]. destruct (py_truthy session_id); reflexivity. }
  rewrite Hknown. cbn [mbind exc_bind]. unfold create_session, alloc. cbn.
  rewrite lookup_insert_eq. reflexivity.
Qed.

Lemma session_of_known e sid w s :
  sid ≠ "" → sessions w !! sid = Some s → session_of e (PStr sid) w = Returns (w, sid, s).
Proof.
  intros Hne Hs. unfold session_of.
  assert (Ht : py_truthy (PStr sid) = true).
  { cbn. destruct (String.eqb_spec sid ""); [contradiction|reflexivity]. }
  rewrite Ht. unfold in_sessions. rewrite Hs. reflexivity.
Qed.

Lemma history_unfold w sid s :
  sessions w !! sid = Some s → history w sid = lists w !! sess_messages s.
Proof. intros H. unfold history. rewrite H. reflexivity. Qed.

(** X20.  A chat request without a session id, or with an id that is not
    known, opens one session under a new id, named after the number of
    sessions; its history is the user message followed, when the route
    answers, by the assistant message with the text of the answer, and the
    answer names the new id.  The histories of the other sessions are as they
    were. *)
Theorem api_chat_opens_a_session MODEL_HOST net e prompt session_id max_tokens w :
  store_ok w →
  py_truthy session_id = false ∨ in_sessions session_id (sessions w) = Returns false →
  ∃ s rest,
    sessions (api_chat MODEL_HOST net e prompt session_id max_tokens w).1.1
    = <[uuid4 e := s]> (sessions w)
    ∧ sess_id s = uuid4 e
    ∧ sess_name s = "Chat " +:+ repr_int (Z.of_nat (size (sessions w)) + 1)
    ∧ sess_created s = time_created e
    ∧ history (api_chat MODEL_HOST net e prompt session_id max_tokens w).1.1 (uuid4 e)
      = Some (user_message prompt (time_user e) :: rest)
    ∧ (∀ sid, sid ≠ uuid4 e →
         history (api_chat MODEL_HOST net e prompt session_id max_tokens w).1.1 sid
         = history w sid)
    ∧ match (api_chat MODEL_HOST net e prompt session_id max_tokens w).2 with
      | Returns v =>
          ∃ text, v = PDict [("session_id", PStr (uuid4 e)); ("response", text)]
                  ∧ rest = [assistant_message text (time_assistant e)]
      | Raises => rest = []
      end.
Proof.
  intros Hok Hid.
  pose proof (session_of_new e session_id w Hid) as Hs.
  set (w0 := (create_session (uuid4 e) (time_created e) None w).1) in *.
  set (s := (create_session (uuid4 e) (time_created e) None w).2) in *.
  assert (Hw0 : sessions w0 = <[uuid4 e := s]> (sessions w)) by reflexivity.
  assert (Hfresh : lists w !! sess_messages s = None) by exact (alloc_fresh [] (lists w)).
  assert (Hl0 : ∀ a, lists w0 !! a = if decide (sess_messages s = a) then Some [] else lists w !! a).
  { intros a. apply (alloc_lookup [] (lists w) a). }
  assert (Hold : lists w0 !! sess_messages s = Some []).
  { rewrite Hl0, decide_True by reflexivity. reflexivity. }
  destruct (api_chat_spec MODEL_HOST net e prompt session_id max_tokens w w0 (uuid4 e) s []
              Hs Hold) as (Hsess & _ & Hother & Hres).
  cbv zeta in Hres. cbn [app] in Hres.
  set (r := api_chat MODEL_HOST net e prompt session_id max_tokens w) in *.
  assert (Hs' : sessions r.1.1 !! uuid4 e = Some s).
  { rewrite Hsess, Hw0. apply lookup_insert_eq. }
  exists s.
  exists (match r.2 with
          | Returns (PDict [_; (_, text)]) => [assistant_message text (time_assistant e)]
          | _ => []
          end).
  split; [rewrite Hsess; exact Hw0|]. split; [reflexivity|]. split; [reflexivity|].
  split; [reflexivity|]. split; [|split].
  - rewrite (history_unfold _ _ _ Hs').
    destruct r.2 as [v|].
    + destruct Hres as (l & out & ok & resp & _ & _ & _ & -> & Hh). exact Hh.
    + apply Hres.
  - intros sid Hsid. unfold history. rewrite Hsess, Hw0, lookup_insert_ne by congruence.
    destruct (sessions w !! sid) as [s'|] eqn:Es'; [|reflexivity]. cbn.
    destruct (Hok sid s' Es') as (_ & [x Hx] & _).
    assert (Hne : sess_messages s' ≠ sess_messages s).
    { intros Heq. rewrite Heq, Hfresh in Hx. discriminate. }
    rewrite Hother; [|exact Hne|]; rewrite Hl0, decide_False by congruence; eauto.
  - destruct r.2 as [v|]; [|reflexivity].
    destruct Hres as (l & out & ok & resp & _ & _ & _ & -> & _). eauto.
Qed.

(** X21.  A chat request with the id of a session goes on with that
    session: no session is added, the history keeps all it held, followed by
    the user message and, when the route answers, by the assistant message
    with the text of the answer; the histories of the other sessions are as
    they were. *)
Theorem api_chat_continues_a_session MODEL_HOST net e prompt sid max_tokens w old :
  store_ok w →
  sid ≠ "" →
  history w sid = Some old →
  ∃ rest,
    sessions (api_chat MODEL_HOST net e prompt (PStr sid) max_tokens w).1.1 = sessions w
    ∧ history (api_chat MODEL_HOST net e prompt (PStr sid) max_tokens w).1.1 sid
      = Some (old ++ user_message prompt (time_user e) :: rest)
    ∧ (∀ sid', sid' ≠ sid →
         history (api_chat MODEL_HOST net e prompt (PStr sid) max_tokens w).1.1 sid'
         = history w sid')
    ∧ match (api_chat MODEL_HOST net e prompt (PStr sid) max_tokens w).2 with
      | Returns v =>
          ∃ text, v = PDict [("session_id", PStr sid); ("response", text)]
                  ∧ rest = [assistant_message text (time_assistant e)]
      | Raises => rest = []
      end.
Proof.
  intros Hok Hne Hh.
  destruct (sessions w !! sid) as [s|] eqn:Es; [|unfold history in Hh; rewrite Es in Hh; discriminate].
  rewrite (history_unfold _ _ _ Es) in Hh.
  pose proof (session_of_known e sid w s Hne Es) as Hs.
  destruct (api_chat_spec MODEL_HOST net e prompt (PStr sid) max_tokens w w sid s old Hs Hh)
    as (Hsess & _ & Hother & Hres).
  cbv zeta in Hres.
  set (r := api_chat MODEL_HOST net e prompt (PStr sid) max_tokens w) in *.
  assert (Hs' : sessions r.1.1 !! sid = Some s) by (rewrite Hsess; exact Es).
  exists (match r.2 with
          | Returns (PDict [_; (_, text)]) => [assistant_message text (time_assistant e)]
          | _ => []
          end).
  split; [exact Hsess|]. split; [|split].
  - rewrite (history_unfold _ _ _ Hs').
    destruct r.2 as [v|].
    + destruct Hres as (l & out & ok & resp & _ & _ & _ & -> & Hh'). exact Hh'.
    + apply Hres.
  - intros sid' Hsid'. unfold history. rewrite Hsess.
    destruct (sessions w !! sid') as [s'|] eqn:Es'; [|reflexivity]. cbn.
    destruct (Hok sid' s' Es') as (_ & Hx & _).
    destruct (Hok sid s Es) as (_ & _ & Hown).
    apply Hother; [|exact Hx].
    intros Heq. apply Hsid'. eapply Hown; eauto.
  - destruct r.2 as [v|]; [|reflexivity].
    destruct Hres as (l & out & ok & resp & _ & _ & _ & -> & _). eauto.
Qed.

(** X22.  When no request of the model call is answered with status 200 and
    the route answers, the text of the answer is the failure message of
    [call_model] with the mark [[Model error]] before it, and that text is
    stored in the history as the reply of the assistant. *)
Theorem api_chat_model_error MODEL_HOST net e prompt session_id max_tokens w v :
  store_ok w →
  (api_chat MODEL_HOST net e prompt session_id max_tokens w).2 = Returns v →
  no_200 (api_chat MODEL_HOST net e prompt session_id max_tokens w).1.2 →
  ∃ sid d old,
    let text := PStr ("[Model error] Failed to contact model. Last error: " +:+ d) in
    v = PDict [("session_id", PStr sid); ("response", text)]
    ∧ history (api_chat MODEL_HOST net e prompt session_id max_tokens w).1.1 sid
      = Some (old ++ [ user_message prompt (time_user e);
                       assistant_message text (time_assistant e) ]).
Proof.
  intros Hok Hv Hno.
  destruct (session_of e session_id w) as [[[w0 sid] s]|] eqn:Hs.
  2:{ unfold api_chat in Hv. rewrite Hs in Hv. discriminate. }
  destruct (session_of_store_ok _ _ _ _ _ _ Hs Hok) as [Hok0 Hs0].
  destruct (Hok0 sid s Hs0) as (_ & [old Hold] & _).
  destruct (api_chat_spec MODEL_HOST net e prompt session_id max_tokens w w0 sid s old Hs Hold)
    as (Hsess & _ & _ & Hres).
  cbv zeta in Hres.
  set (r := api_chat MODEL_HOST net e prompt session_id max_tokens w) in *.
  rewrite Hv in Hres. destruct Hres as (l & out & ok & resp & _ & _ & Hcall & -> & Hh).
  destruct (call_model_result MODEL_HOST net prompt max_tokens PNone (PFloat "0.2") (Some out))
    as (ok' & resp' & Hres' & Hiff & Hfail).
  rewrite Hcall in Hres', Hiff. cbn [fst snd] in Hres', Hiff. injection Hres' as <- <-.
  assert (Hok' : ok = false).
  { destruct ok; [|reflexivity]. destruct Hiff as [Hiff _].
    destruct (Hiff eq_refl) as (url & p & r0 & Hin & H200).
    unfold no_200 in Hno. rewrite Forall_forall in Hno.
    apply list_elem_of_In, Hno in Hin. cbn in Hin. rewrite H200 in Hin. discriminate. }
  subst ok. destruct (Hfail eq_refl) as (d & ->).
  exists sid, d, old. cbv zeta. split; [reflexivity|].
  rewrite (history_unfold _ sid s) by (rewrite Hsess; exact Hs0). exact Hh.
Qed.

(** ** Contents without a length *)

Lemma comprehension_raises_at {A B} (f : A → exc B) xs x ys :
  f x = Raises → comprehension f (xs ++ x :: ys) = Raises.
Proof.
  intros Hx. induction xs as [|a xs IH]; cbn.
  - rewrite Hx. reflexivity.
  - destruct (f a); [|reflexivity]. cbn. rewrite IH. reflexivity.
Qed.

Lemma slice_from_app {A} k (pre post : list A) :
  0 < k → k ≤ Z.of_nat (length post) → slice_from (- k) (pre ++ post) = slice_from (- k) post.
Proof.
  intros Hk Hlen. unfold slice_from.
  rewrite !slice_start_neg by lia. rewrite length_app, drop_app.
  replace (Z.to_nat (Z.of_nat (length pre + length post) - k) - length pre)%nat
    with (Z.to_nat (Z.of_nat (length post) - k)) by lia.
  rewrite drop_ge by lia. reflexivity.
Qed.

Lemma slice_from_keeps {A} k (pre : list A) x post :
  0 < k → Z.of_nat (length post) < k →
  ∃ pre', slice_from (- k) (pre ++ x :: post) = pre' ++ x :: post.
Proof.
  intros Hk Hlen. unfold slice_from.
  rewrite slice_start_neg by lia. rewrite drop_app.
  replace (Z.to_nat (Z.of_nat (length (pre ++ x :: post)) - k) - length pre)%nat with 0%nat
    by (rewrite length_app; cbn [length]; lia).
  eexists. reflexivity.
Qed.

Lemma trim_msg_unsized m :
  sized (dict_get m "content" (PStr "")) = false → trim_msg m = Raises.
Proof.
  intros H. unfold trim_msg. destruct (dict_get m "content" (PStr "")); try discriminate;
    reflexivity.
Qed.

Lemma trim_messages_raises pre m post :
  Z.of_nat (length post) < MAX_MESSAGES → trim_msg m = Raises →
  trim_messages (pre ++ m :: post) = Raises.
Proof.
  intros Hlen Hm. unfold trim_messages.
  destruct (slice_from_keeps MAX_MESSAGES pre m post) as [pre' Hsl]; [reflexivity|exact Hlen|].
  rewrite Hsl, comprehension_raises_at by exact Hm.
  destruct (pre ++ m :: post) eqn:E; [|reflexivity].
  destruct pre; discriminate.
Qed.

(** X23.  [trim_messages] looks at the last [MAX_MESSAGES] (24) messages
    only: what comes before them has no influence on the result, whatever it
    holds. *)
Theorem trim_messages_window older messages :
  MAX_MESSAGES ≤ Z.of_nat (length messages) →
  trim_messages (older ++ messages) = trim_messages messages.
Proof.
  intros Hlen. unfold trim_messages.
  rewrite slice_from_app by (try reflexivity; exact Hlen).
  destruct messages as [|m ms]; [cbn in Hlen; unfold MAX_MESSAGES in Hlen; lia|].
  destruct (older ++ m :: ms) eqn:E; [|reflexivity].
  destruct older; discriminate.
Qed.

(** X24.  [trim_messages] raises when one of the last [MAX_MESSAGES] (24)
    messages has a content that has no length ([None], a bool, a number):
    [len(content)] fails inside [trim_msg]. *)
Theorem trim_messages_content_without_length older m newer :
  Z.of_nat (length newer) < MAX_MESSAGES →
  sized (dict_get m "content" (PStr "")) = false →
  trim_messages (older ++ m :: newer) = Raises.
Proof.
  intros Hlen Hm. apply trim_messages_raises; [exact Hlen|]. apply trim_msg_unsized, Hm.
Qed.

Lemma comprehension_app {A B} (f : A → exc B) xs ys :
  comprehension f (xs ++ ys)
  = (xs' ← comprehension f xs; ys' ← comprehension f ys; Returns (xs' ++ ys')).
Proof.
  induction xs as [|x xs IH]; cbn.
  - destruct (comprehension f ys); reflexivity.
  - destruct (f x); [|reflexivity]. cbn. rewrite IH.
    destruct (comprehension f xs); [|reflexivity]. cbn.
    destruct (comprehension f ys); reflexivity.
Qed.

Lemma comprehension_length {A B} (f : A → exc B) xs ys :
  comprehension f xs = Returns ys → length ys = length xs.
Proof. intros H%comprehension_Forall2. symmetry. eapply Forall2_length, H. Qed.

(** The projection of a history with a message whose content has no length
    cannot be trimmed. *)
Lemma project_unsized pre m c post l :
  dict_lookup "content" m = Some c → sized c = false →
  Z.of_nat (length post) < MAX_MESSAGES →
  comprehension project (pre ++ m :: post) = Returns l →
  trim_messages l = Raises.
Proof.
  intros Hc Hs Hlen Hl. rewrite comprehension_app in Hl.
  destruct (comprehension project pre) as [lpre|]; [|discriminate]. cbn [mbind exc_bind] in Hl.
  cbn [comprehension] in Hl.
  destruct (project m) as [pm|] eqn:Hpm; [|discriminate]. cbn [mbind exc_bind] in Hl.
  destruct (comprehension project post) as [lpost|] eqn:Hpost; [|discriminate].
  cbn [mbind exc_bind] in Hl. injection Hl as <-.
  apply trim_messages_raises.
  - rewrite (comprehension_length _ _ _ Hpost). exact Hlen.
  - unfold project, py_getitem in Hpm. rewrite Hc in Hpm.
    destruct (dict_lookup "role" m); [|discriminate]. cbn in Hpm. injection Hpm as <-.
    apply trim_msg_unsized. exact Hs.
Qed.

(** On the list of the session: the route fails, no request is sent, and
    the user message has been appended. *)
Lemma api_chat_unsized_list
    MODEL_HOST net e prompt sid max_tokens w s older m c newer :
  sid ≠ "" →
  sessions w !! sid = Some s →
  lists w !! sess_messages s = Some (older ++ m :: newer) →
  dict_lookup "content" m = Some c →
  sized c = false →
  Z.of_nat (length newer) < MAX_MESSAGES - 1 →
  api_chat MODEL_HOST net e prompt (PStr sid) max_tokens w
  = ((api_chat MODEL_HOST net e prompt (PStr sid) max_tokens w).1.1, [], Raises)
  ∧ sessions (api_chat MODEL_HOST net e prompt (PStr sid) max_tokens w).1.1 = sessions w
  ∧ lists (api_chat MODEL_HOST net e prompt (PStr sid) max_tokens w).1.1 !! sess_messages s
    = Some (older ++ m :: newer ++ [user_message prompt (time_user e)]).
Proof.
  intros Hne Es Hh Hc Hs Hlen.
  pose proof (session_of_known e sid w s Hne Es) as Hsof.
  destruct (api_chat_spec MODEL_HOST net e prompt (PStr sid) max_tokens w w sid s _ Hsof Hh)
    as (Hsess & _ & _ & Hres).
  cbv zeta in Hres.
  set (r := api_chat MODEL_HOST net e prompt (PStr sid) max_tokens w) in *.
  destruct r as [[w' tr] res] eqn:Er. cbn [fst snd] in *.
  destruct res as [v|].
  - exfalso. destruct Hres as (l & out & _ & _ & Hl & Hout & _).
    rewrite <- app_assoc in Hl. cbn [app] in Hl.
    rewrite (project_unsized older m c (newer ++ [user_message prompt (time_user e)]) l Hc Hs)
      in Hout; [discriminate| |exact Hl].
    rewrite length_app. cbn [length]. unfold MAX_MESSAGES in *. lia.
  - destruct Hres as [Hl ->]. split; [reflexivity|]. split; [exact Hsess|].
    rewrite Hl, <- app_assoc. reflexivity.
Qed.

(** X25.  A session whose history holds, among its last 23 messages, a
    message whose content has no length ([None], a bool, a number) makes the
    chat route fail (status 500) before any request is sent to the model; the
    user message of the failed request is in the history nonetheless. *)
Theorem api_chat_content_without_length
    MODEL_HOST net e prompt sid max_tokens w older m c newer :
  sid ≠ "" →
  history w sid = Some (older ++ m :: newer) →
  dict_lookup "content" m = Some c →
  sized c = false →
  Z.of_nat (length newer) < MAX_MESSAGES - 1 →
  api_chat MODEL_HOST net e prompt (PStr sid) max_tokens w
  = ((api_chat MODEL_HOST net e prompt (PStr sid) max_tokens w).1.1, [], Raises)
  ∧ history (api_chat MODEL_HOST net e prompt (PStr sid) max_tokens w).1.1 sid
    = Some (older ++ m :: newer ++ [user_message prompt (time_user e)]).
Proof.
  intros Hne Hh Hc Hs Hlen.
  destruct (sessions w !! sid) as [s|] eqn:Es;
    [|unfold history in Hh; rewrite Es in Hh; discriminate].
  rewrite (history_unfold _ _ _ Es) in Hh.
  destruct (api_chat_unsized_list MODEL_HOST net e prompt sid max_tokens w s older m c newer
              Hne Es Hh Hc Hs Hlen) as (Hfail & Hsess & Hlist).
  split; [exact Hfail|].
  rewrite (history_unfold _ sid s) by (rewrite Hsess; exact Es). exact Hlist.
Qed.

(** X26.  An answer whose text has no length (the model sent a content that
    is [null], a bool or a number, which the normalizer returns as it is)
    breaks the session: the next chat request with its id fails. *)
Theorem api_chat_reply_without_length_breaks_session
    MODEL_HOST net e prompt session_id max_tokens w sid text MODEL_HOST' net' e' prompt' max_tokens' :
  store_ok w →
  (api_chat MODEL_HOST net e prompt session_id max_tokens w).2
  = Returns (PDict [("session_id", PStr sid); ("response", text)]) →
  sized text = false →
  sid ≠ "" →
  (api_chat MODEL_HOST' net' e' prompt' (PStr sid) max_tokens'
     (api_chat MODEL_HOST net e prompt session_id max_tokens w).1.1).2 = Raises.
Proof.
  intros Hok Hv Htext Hne.
  destruct (session_of e session_id w) as [[[w0 sid0] s]|] eqn:Hs.
  2:{ unfold api_chat in Hv. rewrite Hs in Hv. discriminate. }
  destruct (session_of_store_ok _ _ _ _ _ _ Hs Hok) as [Hok0 Hs0].
  destruct (Hok0 sid0 s Hs0) as (_ & [old Hold] & _).
  destruct (api_chat_spec MODEL_HOST net e prompt session_id max_tokens w w0 sid0 s old Hs Hold)
    as (Hsess & _ & _ & Hres).
  cbv zeta in Hres.
  set (w1 := (api_chat MODEL_HOST net e prompt session_id max_tokens w).1.1) in *.
  rewrite Hv in Hres. destruct Hres as (l & out & ok & resp & _ & _ & _ & Heq & Hh).
  injection Heq as Hsid Htxt. subst sid0. rewrite <- Htxt in Hh.
  assert (Hs1 : sessions w1 !! sid = Some s) by (rewrite Hsess; exact Hs0).
  assert (Hl1 : lists w1 !! sess_messages s
                = Some ((old ++ [user_message prompt (time_user e)])
                        ++ assistant_message text (time_assistant e) :: [])).
  { rewrite Hh, <- app_assoc. reflexivity. }
  destruct (api_chat_unsized_list MODEL_HOST' net' e' prompt' sid max_tokens' w1 s
              _ _ text [] Hne Hs1 Hl1 eq_refl Htext) as [-> _]; [reflexivity|reflexivity].
Qed.

(** ** Password and text checks *)

Lemma one_char_methods c :
  str_isupper (String c "") = char_isupper c
  ∧ str_islower (String c "") = char_islower c
  ∧ str_isdigit (String c "") = char_isdigit c
  ∧ str_isalnum (String c "") = char_isalnum c.
Proof. destruct c as [[] [] [] [] [] [] [] []]; vm_compute; auto. Qed.

Lemma py_any_chars (f : pyval → exc bool) (p : ascii → bool) s :
  (∀ c, f (PStr (String c "")) = Returns (p c)) →
  py_any f (map (fun c => PStr (String c "")) (list_ascii_of_string s)) = Returns (str_any p s).
Proof.
  intros Hf. induction s as [|c s IH]; [reflexivity|].
  cbn [list_ascii_of_string map py_any str_any]. rewrite Hf. cbn [mbind exc_bind].
  destruct (p c); [reflexivity|exact IH].
Qed.

Lemma any_isupper s :
  py_any (str_method str_isupper) (map (fun c => PStr (String c "")) (list_ascii_of_string s))
  = Returns (str_any char_isupper s).
Proof. apply py_any_chars. intros c. cbn. f_equal. apply one_char_methods. Qed.

Lemma any_islower s :
  py_any (str_method str_islower) (map (fun c => PStr (String c "")) (list_ascii_of_string s))
  = Returns (str_any char_islower s).
Proof. apply py_any_chars. intros c. cbn. f_equal. apply one_char_methods. Qed.

Lemma any_isdigit s :
  py_any (str_method str_isdigit) (map (fun c => PStr (String c "")) (list_ascii_of_string s))
  = Returns (str_any char_isdigit s).
Proof. apply py_any_chars. intros c. cbn. f_equal. apply one_char_methods. Qed.

Lemma any_symbol s :
  py_any (fun c => a ← str_method str_isalnum c; Returns (negb a))
    (map (fun c => PStr (String c "")) (list_ascii_of_string s))
  = Returns (str_any (fun c => negb (char_isalnum c)) s).
Proof.
  apply py_any_chars. intros c. cbn [str_method mbind exc_bind]. do 2 f_equal.
  apply one_char_methods.
Qed.

(** The score goes through [int((score / 10) * 10)] unchanged. *)
Lemma score_round_trip z :
  0 ≤ z ≤ 10 →
  int_of_float (float_of_int z / float_of_int 10 * float_of_int 10)%float = Returns z.
Proof.
  intros Hz.
  assert (H : z = 0 ∨ z = 1 ∨ z = 2 ∨ z = 3 ∨ z = 4 ∨ z = 5 ∨ z = 6 ∨ z = 7 ∨ z = 8
              ∨ z = 9 ∨ z = 10) by lia.
  repeat (destruct H as [->|H]; [vm_compute; reflexivity|]). subst z. vm_compute. reflexivity.
Qed.

(** X27.  The score of a password that is a non-empty str is the sum of its
    points (4 for a length of 12 or more, 2 for an uppercase letter, 1 for a
    lowercase letter, 2 for a digit, 1 for a character that is neither letter
    nor digit), and 1 when there is no point: the division by 10 and the
    multiplication by 10 change nothing, and the upper bound 10 is never
    needed.  No suggestion is made exactly when the password is long enough
    and has a digit, an uppercase letter and a symbol, so that a password
    without lowercase letter gets 9 and no suggestion. *)
Theorem api_password_check_score d pw :
  dict_get d "password" (PStr "") = PStr pw →
  pw ≠ "" →
  ∃ suggestions,
    api_password_check (PDict d)
    = Returns (PDict [ ("score", PInt (Z.max 1 (points pw)));
                       ("suggestions", PList suggestions) ])
    ∧ 1 ≤ Z.max 1 (points pw) ≤ 10
    ∧ (suggestions = [] ↔
       12 ≤ Z.of_nat (String.length pw)
       ∧ str_any char_isdigit pw = true
       ∧ str_any char_isupper pw = true
       ∧ str_any (fun c => negb (char_isalnum c)) pw = true)
    ∧ (suggestions = [] → 9 ≤ points pw).
Proof.
  intros Hpw Hne.
  assert (Ht : py_truthy (PStr pw) = true).
  { cbn. destruct (String.eqb_spec pw ""); [contradiction|reflexivity]. }
  unfold api_password_check, py_get_default. cbn [mbind exc_bind]. rewrite Hpw, Ht.
  cbn [negb py_len py_iter mbind exc_bind].
  rewrite any_isupper, any_islower, any_isdigit, any_symbol. cbn [mbind exc_bind]. cbv zeta.
  unfold points.
  set (n := Z.of_nat (String.length pw)).
  assert (Hlt : (n <? 12) = negb (12 <=? n)).
  { destruct (Z.ltb_spec n 12), (Z.leb_spec 12 n); try reflexivity; lia. }
  rewrite Hlt.
  destruct (Z.leb_spec 12 n) as [Hn|Hn];
    destruct (str_any char_isupper pw), (str_any char_islower pw), (str_any char_isdigit pw),
      (str_any (fun c => negb (char_isalnum c)) pw);
    cbn [negb app Z.add Pos.add Pos.succ];
    (rewrite score_round_trip by lia);
    cbn [mbind exc_bind];
    (eexists; split; [reflexivity|]);
    (split; [lia|]);
    (split; [split; [intros H; try discriminate H; auto; lia
                    |intros (H0 & H1 & H2 & H3); try discriminate; try reflexivity; lia]
            |intros H; try discriminate H; lia]).
Qed.

(** X28.  A password that is missing, empty or any other false value gets
    score 0 and the one suggestion [Empty password], and no other password
    gets score 0; a password that is true and has no length (a number,
    [True]) makes the route fail (status 500). *)
Theorem api_password_check_no_password d :
  (py_truthy (dict_get d "password" (PStr "")) = false →
   api_password_check (PDict d)
   = Returns (PDict [("score", PInt 0); ("suggestions", PList [PStr "Empty password"])]))
  ∧ (∀ suggestions,
       api_password_check (PDict d)
       = Returns (PDict [("score", PInt 0); ("suggestions", suggestions)]) →
       py_truthy (dict_get d "password" (PStr "")) = false)
  ∧ (py_truthy (dict_get d "password" (PStr "")) = true →
     sized (dict_get d "password" (PStr "")) = false →
     api_password_check (PDict d) = Raises).
Proof.
  unfold api_password_check, py_get_default. cbn [mbind exc_bind].
  set (pw := dict_get d "password" (PStr "")). clearbody pw.
  split; [|split].
  - intros ->. reflexivity.
  - intros suggestions. destruct (py_truthy pw); [|reflexivity]. cbn [negb].
    destruct (py_len pw) as [n|]; [|discriminate]. cbn [mbind exc_bind].
    destruct (py_iter pw) as [cs|]; [|discriminate]. cbn [mbind exc_bind].
    repeat match goal with
           | |- context [py_any ?f cs] =>
               destruct (py_any f cs) as [?|]; cbn [mbind exc_bind]; [|discriminate]
           end.
    cbv zeta.
    match goal with |- context [int_of_float ?f] => destruct (int_of_float f) as [z|] end;
      [|discriminate]. cbn [mbind exc_bind].
    intros [= H _]. lia.
  - intros -> Hs. cbn [negb]. destruct pw; try discriminate; reflexivity.
Qed.

(** X29.  [/api/scan-text] answers exactly when the text is a str (or is
    missing); any other text, [null] or a list included, makes it fail
    (status 500).  The answer is one of four: no issue and score 0, a URL
    and score 30, urgent language and score 20, or both, in this order, and
    score 50; the upper bound 100 is never reached. *)
Theorem api_scan_text_answers d :
  match dict_get d "text" (PStr "") with
  | PStr s =>
      ∃ score issues,
        api_scan_text (PDict d)
        = Returns (PDict [("score", PInt score); ("issues", PList issues)])
        ∧ ((score = 0 ∧ issues = [])
           ∨ (score = 30 ∧ issues = [PStr "URL(s) detected"])
           ∨ (score = 20 ∧ issues = [PStr "Urgent language"])
           ∨ (score = 50 ∧ issues = [PStr "URL(s) detected"; PStr "Urgent language"]))
  | _ => api_scan_text (PDict d) = Raises
  end.
Proof.
  unfold api_scan_text, py_get_default. cbn [mbind exc_bind].
  destruct (dict_get d "text" (PStr "")) as [|b|z|r|s|l|d'].
  - reflexivity.
  - reflexivity.
  - reflexivity.
  - reflexivity.
  - cbn [py_in py_lower mbind exc_bind].
    set (u1 := is_Some_b (index 0 "http://" s)).
    set (u2 := is_Some_b (index 0 "https://" s)).
    set (g1 := is_Some_b (index 0 "urgent" (str_lower s))).
    set (g2 := is_Some_b (index 0 "immediately" (str_lower s))).
    destruct u1, u2, g1, g2; cbn; eexists _, _; (split; [reflexivity|]); auto 10.
  - cbn [py_in mbind exc_bind].
    destruct (existsb _ l); cbn [mbind exc_bind]; [reflexivity|].
    destruct (existsb _ l); reflexivity.
  - cbn [py_in mbind exc_bind].
    destruct (is_Some_b _); cbn [mbind exc_bind]; [reflexivity|].
    destruct (is_Some_b _); reflexivity.
Qed.

(** ** The candidate URLs *)

Lemma rstrip_slash_app_slash s : rstrip_slash (s +:+ "/") = rstrip_slash s.
Proof.
  induction s as [|c s IH]; [reflexivity|].
  change (rstrip_slash (String c (s +:+ "/")) = rstrip_slash (String c s)).
  cbn [rstrip_slash]. rewrite IH. reflexivity.
Qed.

Lemma rstrip_slash_spec s :
  ∃ tail, s = rstrip_slash s +:+ tail
          ∧ str_all (fun c => Ascii.eqb c "/") tail = true
          ∧ ∀ t, rstrip_slash s ≠ t +:+ "/".
Proof.
  induction s as [|c s (tail & Hs & Htail & Hend)].
  - exists "". split; [reflexivity|]. split; [reflexivity|]. intros [|? ?]; discriminate.
  - cbn [rstrip_slash]. destruct (rstrip_slash s) as [|a r] eqn:Er.
    + cbn in Hs. destruct (Ascii.eqb_spec c "/") as [->|Hc].
      * exists (String "/" s). split; [reflexivity|]. split; [rewrite Hs; exact Htail|].
        intros [|? ?]; discriminate.
      * exists s. split; [reflexivity|]. split; [rewrite Hs; exact Htail|].
        intros [|b t] H; cbn in H.
        -- injection H as H. contradiction.
        -- injection H as _ H. destruct t; discriminate.
    + exists tail. split.
      { change (String c s = String c (String a r +:+ tail)). f_equal. exact Hs. }
      split; [exact Htail|].
      intros [|b t] H; cbn in H; [discriminate|].
      injection H as _ H. apply (Hend t H).
Qed.

(** X30.  Slashes at the end of [MODEL_HOST] make no difference: the
    candidate URLs are the five endpoints after the host without its final
    slashes, so that no URL has two slashes where host and endpoint meet;
    with or without a final slash, a call does the same. *)
Theorem MODEL_URLS_trailing_slashes MODEL_HOST :
  MODEL_URLS (MODEL_HOST +:+ "/") = MODEL_URLS MODEL_HOST
  ∧ (∀ net prompt max_tokens stop temperature messages,
       call_model (MODEL_HOST +:+ "/") net prompt max_tokens stop temperature messages
       = call_model MODEL_HOST net prompt max_tokens stop temperature messages)
  ∧ ∃ base tail,
      MODEL_HOST = base +:+ tail
      ∧ str_all (fun c => Ascii.eqb c "/") tail = true
      ∧ (∀ t, base ≠ t +:+ "/")
      ∧ MODEL_URLS MODEL_HOST = map (fun ep => base +:+ ep) MODEL_ENDPOINTS.
Proof.
  assert (H : MODEL_URLS (MODEL_HOST +:+ "/") = MODEL_URLS MODEL_HOST).
  { unfold MODEL_URLS. rewrite rstrip_slash_app_slash. reflexivity. }
  split; [exact H|]. split.
  - intros. unfold call_model. rewrite H. reflexivity.
  - destruct (rstrip_slash_spec MODEL_HOST) as (tail & Hs & Htail & Hend).
    exists (rstrip_slash MODEL_HOST), tail. auto.
Qed.

(** ** The further theorems at concrete inputs *)

Lemma store_ok_no_sessions : store_ok no_sessions.
Proof. intros sid s H. cbn in H. rewrite lookup_empty in H. discriminate. Qed.

Lemma store_ok_after_hi : store_ok after_hi.
Proof. apply api_chat_store_ok, store_ok_no_sessions. Qed.

Lemma after_hi_session : sessions after_hi !! "3f2b" = Some the_session.
Proof. vm_compute. reflexivity. Qed.

Lemma after_hi_history :
  history after_hi "3f2b"
  = Some [ user_message (PStr "Hello") (PFloat "2.0");
           assistant_message (PStr "hi") (PFloat "3.0") ].
Proof. vm_compute. reflexivity. Qed.

Lemma reaches_first net prompt max_tokens temperature messages safe_messages :
  safe_messages_of prompt messages = Returns safe_messages →
  reaches local_host net prompt max_tokens temperature messages safe_messages
    [] first_url other_urls initial.
Proof. intros H. split; [exact H|]. split; reflexivity. Qed.

(** A server that is busy at the third candidate only, and knows no other
    endpoint. *)
Lemma call_model_retries_recoverable_witness :
  ∃ rest,
    fst (call_model local_host busy_at_predict (PStr "Hello") 5 PNone (PFloat "0.2") None)
    = trace two_given_up
      ++ ([ Post predict_url hello_chat (Answers busy);
            Diagnostic (returned_diagnostic predict_url busy); Sleep (0.6 * 1) ]
          ++ [ Post predict_url hello_chat (Answers busy);
               Diagnostic (returned_diagnostic predict_url busy); Sleep (0.6 * 2) ]
          ++ [ Post predict_url hello_chat (Answers busy);
               Diagnostic (returned_diagnostic predict_url busy); Sleep (0.6 * 3) ])
      ++ rest
    ∧ [ Post predict_url hello_chat (Answers busy);
        Diagnostic (returned_diagnostic predict_url busy); Sleep (0.6 * 1) ]
      ++ [ Post predict_url hello_chat (Answers busy);
           Diagnostic (returned_diagnostic predict_url busy); Sleep (0.6 * 2) ]
      ++ [ Post predict_url hello_chat (Answers busy);
           Diagnostic (returned_diagnostic predict_url busy); Sleep (0.6 * 3) ]
      = [ Post predict_url hello_chat (Answers busy);
          Diagnostic (returned_diagnostic predict_url busy); Sleep 0.6;
          Post predict_url hello_chat (Answers busy);
          Diagnostic (returned_diagnostic predict_url busy); Sleep 1.2;
          Post predict_url hello_chat (Answers busy);
          Diagnostic (returned_diagnostic predict_url busy); Sleep 1.7999999999999998 ]
    ∧ Forall (not_to predict_url) (trace two_given_up ++ rest)
    ∧ goes_on hello_chat
        ["http://127.0.0.1:5000/v1/generate"; "http://127.0.0.1:5000/v1/complete"]
        (returned_diagnostic predict_url busy) rest
        (snd (call_model local_host busy_at_predict (PStr "Hello") 5 PNone (PFloat "0.2") None)).
Proof.
  apply (call_model_retries_recoverable local_host busy_at_predict (PStr "Hello") 5 PNone
           (PFloat "0.2") None hello_messages
           ["http://127.0.0.1:5000/v1/chat/completions"; "http://127.0.0.1:5000/v1/completions"]
           predict_url
           ["http://127.0.0.1:5000/v1/generate"; "http://127.0.0.1:5000/v1/complete"]
           two_given_up busy busy busy).
  - split; [reflexivity|]. split; vm_compute; reflexivity.
  - reflexivity.
  - reflexivity.
  - reflexivity.
  - reflexivity.
  - reflexivity.
  - reflexivity.
Defined.

(** A server that knows no endpoint: the first candidate is given up after
    one request. *)
Lemma call_model_404_next_endpoint_witness :
  ∃ rest,
    fst (call_model local_host (always 404 "Not Found" None) (PStr "Hello") 5 PNone
           (PFloat "0.2") None)
    = trace initial
      ++ [ Post first_url (chat_payload hello_messages 5 (PFloat "0.2")) (Answers not_found);
           Diagnostic (first_url +:+ " returned 404 Not Found") ]
      ++ rest
    ∧ Forall (not_to first_url) (trace initial ++ rest)
    ∧ goes_on (chat_payload hello_messages 5 (PFloat "0.2")) other_urls
        (first_url +:+ " returned 404 Not Found") rest
        (snd (call_model local_host (always 404 "Not Found" None) (PStr "Hello") 5 PNone
                (PFloat "0.2") None)).
Proof.
  apply (call_model_404_next_endpoint local_host (always 404 "Not Found" None) (PStr "Hello") 5
           PNone (PFloat "0.2") None hello_messages [] first_url other_urls initial not_found).
  - apply reaches_first. reflexivity.
  - reflexivity.
  - reflexivity.
Defined.

(** A server that cannot be reached. *)
Lemma call_model_network_failures_witness :
  ∃ rest,
    fst (call_model local_host unreachable (PStr "Hello") 5 PNone (PFloat "0.2") None)
    = trace initial
      ++ ([ Post first_url hello_chat (Fails "Connection refused");
            Diagnostic "Connection refused"; Sleep 0.5 ]
          ++ [ Post first_url hello_chat (Fails "Connection refused");
               Diagnostic "Connection refused"; Sleep 1 ]
          ++ [ Post first_url hello_chat (Fails "Connection refused");
               Diagnostic "Connection refused"; Sleep 1.5 ])
      ++ rest
    ∧ Forall (not_to first_url) (trace initial ++ rest)
    ∧ goes_on hello_chat other_urls "Connection refused" rest
        (snd (call_model local_host unreachable (PStr "Hello") 5 PNone (PFloat "0.2") None)).
Proof.
  apply (call_model_network_failures local_host unreachable (PStr "Hello") 5 PNone (PFloat "0.2")
           None hello_messages [] first_url other_urls initial
           "Connection refused" "Connection refused" "Connection refused").
  - apply reaches_first. reflexivity.
  - reflexivity.
  - reflexivity.
  - reflexivity.
Defined.

(** A server that refuses the chat shape with 401 and answers the
    completion shape with 404. *)
Lemma call_model_inputs_404_next_endpoint_witness :
  ∃ rest,
    fst (call_model local_host chat_refused (PStr "Hello") 5 PNone (PFloat "0.2") None)
    = trace initial
      ++ [ Post first_url (chat_payload hello_messages 5 (PFloat "0.2")) (Answers unauthorized);
           Post first_url (inputs_payload (PStr "Hello") 5 (PFloat "0.2")) (Answers not_found);
           Diagnostic (first_url +:+ " (inputs) returned 404") ]
      ++ rest
    ∧ Forall (not_to first_url) (trace initial ++ rest)
    ∧ goes_on (chat_payload hello_messages 5 (PFloat "0.2")) other_urls
        (first_url +:+ " (inputs) returned 404") rest
        (snd (call_model local_host chat_refused (PStr "Hello") 5 PNone (PFloat "0.2") None)).
Proof.
  apply (call_model_inputs_404_next_endpoint local_host chat_refused (PStr "Hello") 5 PNone
           (PFloat "0.2") None hello_messages [] first_url other_urls initial
           unauthorized not_found).
  - apply reaches_first. reflexivity.
  - reflexivity.
  - reflexivity.
  - reflexivity.
  - reflexivity.
Defined.

(** A server that answers 401 to everything. *)
Lemma call_model_both_shapes_refused_witness :
  ∃ rest,
    fst (call_model local_host (always 401 "Unauthorized" None) (PStr "Hello") 5 PNone
           (PFloat "0.2") None)
    = trace initial
      ++ ([ Post first_url hello_chat (Answers unauthorized);
            Post first_url hello_inputs (Answers unauthorized);
            Diagnostic (returned_diagnostic first_url unauthorized) ]
          ++ [ Post first_url hello_chat (Answers unauthorized);
               Post first_url hello_inputs (Answers unauthorized);
               Diagnostic (returned_diagnostic first_url unauthorized) ]
          ++ [ Post first_url hello_chat (Answers unauthorized);
               Post first_url hello_inputs (Answers unauthorized);
               Diagnostic (returned_diagnostic first_url unauthorized) ])
      ++ rest
    ∧ Forall (not_to first_url) (trace initial ++ rest)
    ∧ goes_on hello_chat other_urls (returned_diagnostic first_url unauthorized) rest
        (snd (call_model local_host (always 401 "Unauthorized" None) (PStr "Hello") 5 PNone
                (PFloat "0.2") None)).
Proof.
  apply (call_model_both_shapes_refused local_host (always 401 "Unauthorized" None) (PStr "Hello")
           5 PNone (PFloat "0.2") None hello_messages [] first_url other_urls initial
           unauthorized unauthorized unauthorized unauthorized unauthorized unauthorized).
  all: try reflexivity.
  apply reaches_first. reflexivity.
Defined.

(** The probe of [/health] at a server that answers at once. *)
Lemma call_model_without_messages_witness :
  PList (map PDict hello_messages) = PList [PDict [("role", PStr "user"); ("content", PStr "Hello")]].
Proof.
  apply (call_model_without_messages local_host (always 200 "{...}" (Some hi_response))
           (PStr "Hello") 5 PNone (PFloat "0.2") None first_url
           (chat_payload hello_messages 5 (PFloat "0.2"))
           (Answers {| status_code := 200; text := "{...}"; json := Some hi_response |})).
  - left. reflexivity.
  - vm_compute. left. reflexivity.
  - reflexivity.
Defined.

Lemma trim_msg_keeps_the_end_witness :
  ∃ cut kept,
    "What is phishing?" = cut +:+ kept
    ∧ Z.of_nat (String.length kept)
      = Z.min MAX_MESSAGE_CHARS (Z.of_nat (String.length "What is phishing?"))
    ∧ trim_msg [("content", PStr "What is phishing?"); ("time", PFloat "1.5")]
      = Returns [("role", PStr "user"); ("content", PStr kept)].
Proof.
  apply (trim_msg_keeps_the_end [("content", PStr "What is phishing?"); ("time", PFloat "1.5")]
           "What is phishing?").
  reflexivity.
Defined.

Lemma trim_messages_keeps_the_newest_witness :
  ∃ out older kept,
    trim_messages three_messages = Returns out
    ∧ three_messages = older ++ kept
    ∧ comprehension trim_msg kept = Returns out
    ∧ (three_messages ≠ [] → kept ≠ []).
Proof. apply trim_messages_keeps_the_newest. reflexivity. Defined.

Lemma trim_messages_drops_no_more_than_needed_witness :
  ∃ out dropped,
    trim_messages three_messages = Returns out
    ∧ comprehension trim_msg (slice_from (- MAX_MESSAGES) three_messages)
      = Returns (dropped ++ out)
    ∧ ∀ dropped' m, dropped = dropped' ++ [m] →
        ∃ t, total_chars (m :: out) = Returns t ∧ MAX_TOTAL_CHARS < t.
Proof. apply trim_messages_drops_no_more_than_needed. reflexivity. Defined.

Lemma trim_messages_within_limits_witness :
  trim_messages hello_messages = Returns hello_messages.
Proof.
  apply (trim_messages_within_limits hello_messages 5).
  - vm_compute. discriminate.
  - constructor; [|constructor]. exists (PStr "user"), "Hello". split; [reflexivity|].
    vm_compute. discriminate.
  - reflexivity.
  - vm_compute. discriminate.
Defined.

Lemma trim_messages_leaves_its_argument_witness :
  ∃ h' r,
    trim_messages_st 7%nat {[ 7%nat := hello_messages ]} = Returns (h', r)
    ∧ deref h' r = hello_messages
    ∧ (∀ a, is_Some (({[ 7%nat := hello_messages ]} : store) !! a) →
         h' !! a = ({[ 7%nat := hello_messages ]} : store) !! a)
    ∧ (deref {[ 7%nat := hello_messages ]} 7%nat ≠ [] →
       ({[ 7%nat := hello_messages ]} : store) !! r = None).
Proof.
  apply (trim_messages_leaves_its_argument 7%nat {[ 7%nat := hello_messages ]} hello_messages).
  vm_compute. reflexivity.
Defined.

Lemma session_store_invariant_witness :
  (∀ sid now name, store_ok (create_session sid now name no_sessions).1)
  ∧ (∀ MODEL_HOST net e prompt session_id max_tokens,
       store_ok (api_chat MODEL_HOST net e prompt session_id max_tokens no_sessions).1.1)
  ∧ (∀ sid, store_ok (api_sessions_delete sid no_sessions).1)
  ∧ (∀ sid data, store_ok (api_sessions_rename sid data no_sessions).1)
  ∧ (∀ data, store_ok (api_session_clear data no_sessions).1).
Proof.
  apply session_store_invariant.
  intros sid s H. cbn in H. rewrite lookup_empty in H. discriminate.
Defined.

Lemma api_sessions_rename_blank_witness :
  api_sessions_rename "3f2b" (PDict [("name", PStr "   ")]) after_hi
  = (after_hi, Returns (PDict [("error", PStr "empty_name")], 400)).
Proof.
  apply (api_sessions_rename_blank "3f2b" (PDict [("name", PStr "   ")]) after_hi "   ").
  - rewrite after_hi_session. eauto.
  - right. eexists. split; reflexivity.
  - reflexivity.
Defined.

Lemma api_sessions_rename_then_get_witness :
  ∃ name pre post,
    "  Phishing " = pre +:+ name +:+ post ∧ blank pre = true ∧ blank post = true
    ∧ name ≠ "" ∧ no_space_at_ends name
    ∧ (api_sessions_rename "3f2b" (PDict [("name", PStr "  Phishing ")]) after_hi).2
      = Returns (PDict [ ("renamed", PBool true);
                         ("session", PDict [("id", PStr "3f2b"); ("name", PStr name)]) ], 200)
    ∧ api_sessions_get "3f2b"
        (api_sessions_rename "3f2b" (PDict [("name", PStr "  Phishing ")]) after_hi).1
      = (PDict [("session", PDict [ ("id", PStr (sess_id the_session)); ("name", PStr name);
                                    ("created", sess_created the_session);
                                    ("messages",
                                     PList (map PDict (deref (lists after_hi)
                                                         (sess_messages the_session)))) ])],
         200)
    ∧ ∀ sid', sid' ≠ "3f2b" →
        api_sessions_get sid'
          (api_sessions_rename "3f2b" (PDict [("name", PStr "  Phishing ")]) after_hi).1
        = api_sessions_get sid' after_hi.
Proof.
  apply (api_sessions_rename_then_get "3f2b" [("name", PStr "  Phishing ")] after_hi
           the_session "  Phishing ").
  - exact after_hi_session.
  - reflexivity.
  - reflexivity.
Defined.

Lemma api_sessions_delete_then_get_witness :
  (api_sessions_delete "3f2b" after_hi).2 = (PDict [("deleted", PBool true)], 200)
  ∧ api_sessions_get "3f2b" (api_sessions_delete "3f2b" after_hi).1
    = (PDict [("error", PStr "not_found")], 404)
  ∧ (api_sessions_delete "3f2b" (api_sessions_delete "3f2b" after_hi).1).2
    = (PDict [("deleted", PBool false)], 404)
  ∧ (∀ sid', sid' ≠ "3f2b" →
       api_sessions_get sid' (api_sessions_delete "3f2b" after_hi).1
       = api_sessions_get sid' after_hi)
  ∧ S (size (sessions (api_sessions_delete "3f2b" after_hi).1)) = size (sessions after_hi).
Proof.
  apply api_sessions_delete_then_get. rewrite after_hi_session. eauto.
Defined.

Lemma api_session_clear_then_get_witness :
  (api_session_clear (PDict [("session_id", PStr "3f2b")]) after_hi).2
  = Returns (PDict [("cleared", PBool true)], 200)
  ∧ api_sessions_get "3f2b" (api_session_clear (PDict [("session_id", PStr "3f2b")]) after_hi).1
    = (PDict [("session", PDict [ ("id", PStr (sess_id the_session));
                                  ("name", PStr (sess_name the_session));
                                  ("created", sess_created the_session);
                                  ("messages", PList []) ])], 200)
  ∧ lists (api_session_clear (PDict [("session_id", PStr "3f2b")]) after_hi).1
      !! sess_messages the_session
    = lists after_hi !! sess_messages the_session
  ∧ ∀ sid', sid' ≠ "3f2b" →
      api_sessions_get sid' (api_session_clear (PDict [("session_id", PStr "3f2b")]) after_hi).1
      = api_sessions_get sid' after_hi.
Proof.
  apply (api_session_clear_then_get [("session_id", PStr "3f2b")] "3f2b" after_hi the_session).
  - exact store_ok_after_hi.
  - reflexivity.
  - discriminate.
  - exact after_hi_session.
Defined.

Lemma api_chat_opens_a_session_witness :
  ∃ s rest,
    sessions (api_chat local_host (always 200 "{...}" (Some hi_response)) first_request
                (PStr "Hello") PNone 256 no_sessions).1.1
    = <[uuid4 first_request := s]> (sessions no_sessions)
    ∧ sess_id s = uuid4 first_request
    ∧ sess_name s = "Chat " +:+ repr_int (Z.of_nat (size (sessions no_sessions)) + 1)
    ∧ sess_created s = time_created first_request
    ∧ history (api_chat local_host (always 200 "{...}" (Some hi_response)) first_request
                 (PStr "Hello") PNone 256 no_sessions).1.1 (uuid4 first_request)
      = Some (user_message (PStr "Hello") (time_user first_request) :: rest)
    ∧ (∀ sid, sid ≠ uuid4 first_request →
         history (api_chat local_host (always 200 "{...}" (Some hi_response)) first_request
                    (PStr "Hello") PNone 256 no_sessions).1.1 sid
         = history no_sessions sid)
    ∧ match (api_chat local_host (always 200 "{...}" (Some hi_response)) first_request
               (PStr "Hello") PNone 256 no_sessions).2 with
      | Returns v =>
          ∃ text, v = PDict [("session_id", PStr (uuid4 first_request)); ("response", text)]
                  ∧ rest = [assistant_message text (time_assistant first_request)]
      | Raises => rest = []
      end.
Proof.
  apply api_chat_opens_a_session.
  - exact store_ok_no_sessions.
  - left. reflexivity.
Defined.

Lemma api_chat_continues_a_session_witness :
  ∃ rest,
    sessions (api_chat local_host unreachable second_request (PStr "Again") (PStr "3f2b") 256
                after_hi).1.1
    = sessions after_hi
    ∧ history (api_chat local_host unreachable second_request (PStr "Again") (PStr "3f2b") 256
                 after_hi).1.1 "3f2b"
      = Some ([ user_message (PStr "Hello") (PFloat "2.0");
                assistant_message (PStr "hi") (PFloat "3.0") ]
              ++ user_message (PStr "Again") (time_user second_request) :: rest)
    ∧ (∀ sid', sid' ≠ "3f2b" →
         history (api_chat local_host unreachable second_request (PStr "Again") (PStr "3f2b") 256
                    after_hi).1.1 sid'
         = history after_hi sid')
    ∧ match (api_chat local_host unreachable second_request (PStr "Again") (PStr "3f2b") 256
               after_hi).2 with
      | Returns v =>
          ∃ text, v = PDict [("session_id", PStr "3f2b"); ("response", text)]
                  ∧ rest = [assistant_message text (time_assistant second_request)]
      | Raises => rest = []
      end.
Proof.
  apply api_chat_continues_a_session.
  - exact store_ok_after_hi.
  - discriminate.
  - exact after_hi_history.
Defined.

Lemma api_chat_model_error_witness :
  ∃ sid d old,
    let text := PStr ("[Model error] Failed to contact model. Last error: " +:+ d) in
    PDict [ ("session_id", PStr "3f2b");
            ("response",
             PStr "[Model error] Failed to contact model. Last error: Connection refused") ]
    = PDict [("session_id", PStr sid); ("response", text)]
    ∧ history (api_chat local_host unreachable first_request (PStr "Hello") PNone 256
                 no_sessions).1.1 sid
      = Some (old ++ [ user_message (PStr "Hello") (time_user first_request);
                       assistant_message text (time_assistant first_request) ]).
Proof.
  apply (api_chat_model_error local_host unreachable first_request (PStr "Hello") PNone 256
           no_sessions).
  - exact store_ok_no_sessions.
  - vm_compute. reflexivity.
  - apply no_200_forallb. vm_compute. reflexivity.
Defined.

(** Whatever stands before the last 24 messages, a content without length
    included. *)
Lemma trim_messages_window_witness :
  trim_messages ([[("role", PStr "assistant"); ("content", PNone)]] ++ many_messages)
  = trim_messages many_messages.
Proof. apply trim_messages_window. vm_compute. discriminate. Defined.

Lemma trim_messages_content_without_length_witness :
  trim_messages ([] ++ [("role", PStr "assistant"); ("content", PNone)] :: hello_messages)
  = Raises.
Proof. apply trim_messages_content_without_length; reflexivity. Defined.

Lemma api_chat_content_without_length_witness :
  api_chat local_host (always 200 "{...}" (Some hi_response)) second_request (PStr "Again")
    (PStr "3f2b") 256 after_null
  = ((api_chat local_host (always 200 "{...}" (Some hi_response)) second_request (PStr "Again")
        (PStr "3f2b") 256 after_null).1.1, [], Raises)
  ∧ history (api_chat local_host (always 200 "{...}" (Some hi_response)) second_request
               (PStr "Again") (PStr "3f2b") 256 after_null).1.1 "3f2b"
    = Some ([user_message (PStr "Hello") (PFloat "2.0")]
            ++ assistant_message PNone (PFloat "3.0")
            :: [] ++ [user_message (PStr "Again") (time_user second_request)]).
Proof.
  apply (api_chat_content_without_length local_host (always 200 "{...}" (Some hi_response))
           second_request (PStr "Again") "3f2b" 256 after_null
           [user_message (PStr "Hello") (PFloat "2.0")]
           (assistant_message PNone (PFloat "3.0")) PNone []).
  - discriminate.
  - vm_compute. reflexivity.
  - reflexivity.
  - reflexivity.
  - reflexivity.
Defined.

(** A model that answers with a content that is [null]: the first request
    is answered, with the response [None]; the second one fails. *)
Lemma api_chat_reply_without_length_breaks_session_witness :
  (api_chat local_host (always 200 "{...}" (Some null_response)) first_request (PStr "Hello")
     PNone 256 no_sessions).2
  = Returns (PDict [("session_id", PStr "3f2b"); ("response", PNone)])
  ∧ (api_chat local_host (always 200 "{...}" (Some hi_response)) second_request (PStr "Again")
       (PStr "3f2b") 256
       (api_chat local_host (always 200 "{...}" (Some null_response)) first_request (PStr "Hello")
          PNone 256 no_sessions).1.1).2
    = Raises.
Proof.
  assert (H : (api_chat local_host (always 200 "{...}" (Some null_response)) first_request
                 (PStr "Hello") PNone 256 no_sessions).2
              = Returns (PDict [("session_id", PStr "3f2b"); ("response", PNone)])).
  { vm_compute. reflexivity. }
  split; [exact H|].
  apply (api_chat_reply_without_length_breaks_session local_host
           (always 200 "{...}" (Some null_response)) first_request (PStr "Hello") PNone 256
           no_sessions "3f2b" PNone).
  - exact store_ok_no_sessions.
  - exact H.
  - reflexivity.
  - discriminate.
Defined.

Lemma api_password_check_score_witness :
  ∃ suggestions,
    api_password_check (PDict [("password", PStr "Tr0ub4dor&3")])
    = Returns (PDict [ ("score", PInt (Z.max 1 (points "Tr0ub4dor&3")));
                       ("suggestions", PList suggestions) ])
    ∧ 1 ≤ Z.max 1 (points "Tr0ub4dor&3") ≤ 10
    ∧ (suggestions = [] ↔
       12 ≤ Z.of_nat (String.length "Tr0ub4dor&3")
       ∧ str_any char_isdigit "Tr0ub4dor&3" = true
       ∧ str_any char_isupper "Tr0ub4dor&3" = true
       ∧ str_any (fun c => negb (char_isalnum c)) "Tr0ub4dor&3" = true)
    ∧ (suggestions = [] → 9 ≤ points "Tr0ub4dor&3").
Proof.
  apply (api_password_check_score [("password", PStr "Tr0ub4dor&3")] "Tr0ub4dor&3").
  - reflexivity.
  - discriminate.
Defined.

(** A first chat request, answered by the model with [hi]. *)
Lemma trimming_never_mutates_stored_history_witness :
  (∀ messages (h h' : store) r,
     trim_messages_st messages h = Returns (h', r) →
     (∀ a, is_Some (h !! a) → h' !! a = h !! a)
     ∧ (deref h messages ≠ [] → h !! r = None)
     ∧ trim_messages (deref h messages) = Returns (deref h' r)
     ∧ Z.of_nat (length (deref h' r)) ≤ MAX_MESSAGES
     ∧ Forall trimmed (deref h' r))
  ∧ (∃ rest,
       lists after_hi !! sess_messages the_session
       = Some ([] ++ user_message (PStr "Hello") (time_user first_request) :: rest)
       ∧ match (api_chat local_host (always 200 "{...}" (Some hi_response)) first_request
                  (PStr "Hello") PNone 256 no_sessions).2 with
         | Returns _ =>
             ∃ assistant_text,
               rest = [assistant_message assistant_text (time_assistant first_request)]
         | Raises => rest = []
         end)
  ∧ (∀ a, a ≠ sess_messages the_session →
       is_Some (lists (create_session "3f2b" (PFloat "1.0") None no_sessions).1 !! a) →
       lists after_hi !! a = lists (create_session "3f2b" (PFloat "1.0") None no_sessions).1 !! a)
  ∧ (∀ url payload o msgs,
       In (Post url payload o)
          (api_chat local_host (always 200 "{...}" (Some hi_response)) first_request
             (PStr "Hello") PNone 256 no_sessions).1.2 →
       field "messages" payload = Some msgs →
       ∃ out total,
         msgs = PList (map PDict out)
         ∧ Z.of_nat (length out) ≤ MAX_MESSAGES
         ∧ Forall trimmed_text out
         ∧ total_chars out = Returns total
         ∧ (total ≤ MAX_TOTAL_CHARS ∨ length out = 1%nat)).
Proof.
  apply (trimming_never_mutates_stored_history local_host (always 200 "{...}" (Some hi_response))
           first_request (PStr "Hello") PNone 256 no_sessions
           (create_session "3f2b" (PFloat "1.0") None no_sessions).1 "3f2b" the_session []).
  - vm_compute. reflexivity.
  - vm_compute. reflexivity.
Defined.
